(** * Taste Map: the taste-profile and recommendation engine

    A shallow embedding of the profile builder, the similarity scorer, the
    browser's data store and exploration filters, and the two recommendation
    engines of the repository, followed by the properties proved about them.

    Numbers.  JavaScript numbers are binary64 floating-point numbers.  The
    similarity scorer and the ranking call of the browser-side engine are
    embedded in binary64 (module [Binary64]: primitive floats, the operations
    in the order of the source), where rounding, underflow and ties decide
    what is returned.  They are also embedded, with the profile builder and
    the data store, in exact real arithmetic, and the two server-side engines
    in exact rational arithmetic (they only add, divide, compare and round):
    there the stated averages are those of the code up to rounding, and the
    stated orders, memberships, counts and bounds are not affected by it.

    Objects used as maps are finite maps of their own properties, keyed by
    strings; where the data store, the trend analysis and the diversity pass
    read a plain object at a key taken from their input, the properties
    inherited from [Object.prototype] are read as well ([Js.get]).  Arrays are
    lists; [null]/[undefined] is [None]. *)

From Stdlib Require Import Floats.
From Stdlib Require Import Reals Lra Psatz ZArith QArith Qround Lia Ascii String.
From Stdlib Require OrderedTypeEx.
From stdpp Require Import base option list strings gmap pretty sorting.

Set Warnings "-clear-no-such-hyp".
Set Warnings "-inexact-float".

(** ** Decidable comparisons on the reals, as the code's [<], [>] and [===] *)

#[global] Instance Rlt_decision (x y : R) : Decision (x < y)%R := Rlt_dec x y.
#[global] Instance Req_decision (x y : R) : Decision (x = y) := Req_dec_T x y.

(** ** JavaScript arrays and values *)

Module Js.

(** [Array.prototype.sort(cmp)]: a stable sort.  [after x y] says that the
    comparator puts [x] after [y] ([cmp(x, y) > 0]). *)
Section Sort.
Context {A : Type} (after : A -> A -> bool).

Fixpoint insertBy (x : A) (l : list A) : list A :=
  match l with
  | [] => [x]
  | y :: l' => if after x y then y :: insertBy x l' else x :: l
  end.

Definition sortBy (l : list A) : list A := foldr insertBy [] l.

End Sort.

(** [arr.slice(0, n)]; a negative [n] counts from the end. *)
Definition sliceTo {A : Type} (n : Z) (l : list A) : list A :=
  if bool_decide (n < 0)%Z then take (Z.to_nat (Z.of_nat (length l) + n)) l
  else take (Z.to_nat n) l.

(** Truthiness of a nullable integer, rational or string column. *)
Definition truthyZ (v : option Z) : bool :=
  match v with Some n => negb (n =? 0)%Z | None => false end.

Definition truthyQ (v : option Q) : bool :=
  match v with Some q => negb (Qeq_bool q 0) | None => false end.

Definition truthyS (v : option string) : bool :=
  match v with Some s => negb (bool_decide (s = "")) | None => false end.

(** [a < b] on rationals. *)
Definition Qltb (a b : Q) : bool := negb (Qle_bool b a).

(** [parseFloat(x.toFixed(digits))]: round to [digits] decimals, halves away
    from zero. *)
Definition toFixed (digits : nat) (x : Q) : Q :=
  let scale := inject_Z (10 ^ Z.of_nat digits) in
  if Qltb x 0 then - (inject_Z (Qfloor (- x * scale + (1 # 2))) / scale)
  else inject_Z (Qfloor (x * scale + (1 # 2))) / scale.

Definition toFixed2 (x : Q) : Q := toFixed 2 x.

(** [Math.max(a, b)] and [Math.min(a, b)] *)
Definition Qmax (a b : Q) : Q := if Qle_bool a b then b else a.
Definition Qmin (a b : Q) : Q := if Qle_bool a b then a else b.

(** [String.prototype.toLowerCase], on the ASCII letters. *)
Definition lowerAscii (c : ascii) : ascii :=
  if (Ascii.leb "A" c && Ascii.leb c "Z")%bool
  then ascii_of_N (N_of_ascii c + 32) else c.

Fixpoint toLowerCase (s : string) : string :=
  match s with
  | EmptyString => EmptyString
  | String c s' => String (lowerAscii c) (toLowerCase s')
  end.

(** [s.split(',')] *)
Fixpoint splitAfter (cur : string) (s : string) : list string :=
  match s with
  | EmptyString => [cur]
  | String c s' =>
      if Ascii.eqb c "," then cur :: splitAfter EmptyString s'
      else splitAfter (cur +:+ String c EmptyString) s'
  end.

Definition splitComma (s : string) : list string := splitAfter EmptyString s.

(** [s.trim()], for blanks, tabs and line breaks. *)
Definition isBlank (c : ascii) : bool :=
  (Ascii.eqb c " " || Ascii.eqb c "009" || Ascii.eqb c "010" || Ascii.eqb c "013")%bool.

Fixpoint trimStart (s : string) : string :=
  match s with
  | EmptyString => EmptyString
  | String c s' => if isBlank c then trimStart s' else s
  end.

Definition trim (s : string) : string :=
  String.rev (trimStart (String.rev (trimStart s))).

(** An object whose keys are read back in insertion order (keys that look
    like integers, which JavaScript reads back first, are not expected):
    [obj[key] = (obj[key] || 0) + x]. *)
Fixpoint bump {V : Type} (plus : V -> V -> V) (key : string) (x : V)
    (obj : list (string * V)) : list (string * V) :=
  match obj with
  | [] => [(key, x)]
  | (k, v) :: obj' =>
      if bool_decide (k = key) then (k, plus v x) :: obj'
      else (k, v) :: bump plus key x obj'
  end.

(** [arr.filter((k, i) => arr.indexOf(k) === i)]: first occurrences only. *)
Definition firstOccurrences (l : list string) : list string :=
  foldl (fun seen k => if bool_decide (k ∈ seen) then seen else seen ++ [k]) [] l.

(** A call either returns or throws. *)
Inductive Outcome (A : Type) :=
  | Returned (a : A)
  | Thrown (message : string).
Arguments Returned {A}.
Arguments Thrown {A}.

(** [arr.forEach(f)] for a callback that updates the state [s] of the
    enclosing function and may throw: the first throw ends the loop. *)
Definition forEach {S A : Type} (f : S -> A -> Outcome S) (arr : list A) (s : S) : Outcome S :=
  foldl (fun acc x =>
           match acc with
           | Thrown message => Thrown message
           | Returned s => f s x
           end)
        (Returned s) arr.

(** The property names that every plain object (an object literal, the value
    of a [reduce] into [{}]) inherits from [Object.prototype]. *)
Definition OBJECT_PROTOTYPE : list string := [
  "constructor"; "__defineGetter__"; "__defineSetter__"; "hasOwnProperty";
  "__lookupGetter__"; "__lookupSetter__"; "isPrototypeOf"; "propertyIsEnumerable";
  "toString"; "valueOf"; "__proto__"; "toLocaleString"
].

(** What [obj[key]] reads from a plain object: a property of its own, an
    inherited one (a function, or the prototype itself for [__proto__]: truthy,
    and without the methods of the own values), or [undefined]. *)
Inductive Property (A : Type) :=
  | Own (a : A)
  | Inherited
  | Undefined.
Arguments Own {A}.
Arguments Inherited {A}.
Arguments Undefined {A}.

(** [obj[key]], for the plain object whose own properties are [obj]. *)
Definition get {A : Type} (obj : gmap string A) (key : string) : Property A :=
  match obj !! key with
  | Some a => Own a
  | None => if bool_decide (key ∈ OBJECT_PROTOTYPE) then Inherited else Undefined
  end.

(** Truthiness of [obj[key]], when the own values are objects. *)
Definition truthy {A : Type} (p : Property A) : bool :=
  match p with
  | Undefined => false
  | _ => true
  end.

(** [obj[key] || 0] for an object of counters, where the key is not an
    inherited name. *)
Definition orZero (p : Property Z) : Z :=
  match p with
  | Own n => n
  | _ => 0%Z
  end.

(** The message of the TypeError that [movie.getAttributeScore(...)] throws
    when [movie] has no such method (the wording is the engine's; V8's and
    SpiderMonkey's is taken). *)
Definition NOT_A_FUNCTION : string := "movie.getAttributeScore is not a function".

End Js.

(** ** frontend/filmAttributes.js *)

Module FilmAttributes.

Record FilmAttribute := mkFilmAttribute {
  attr_id : string;
  attr_name : string;
  attr_type : string
}.

(** The fixed registry (descriptions are display text only). *)
Definition FILM_ATTRIBUTES : list FilmAttribute := [
  mkFilmAttribute "action" "Action" "genre";
  mkFilmAttribute "drama" "Drama" "genre";
  mkFilmAttribute "comedy" "Comedy" "genre";
  mkFilmAttribute "dark" "Dark" "mood";
  mkFilmAttribute "uplifting" "Uplifting" "mood";
  mkFilmAttribute "artistic" "Artistic Vision" "influence"
].

Record Movie := mkMovie {
  movie_id : string;
  movie_title : string;
  movie_year : Z;
  attributes : gmap string R
}.

(** [this.attributes[attributeId] || 0] *)
Definition getAttributeScore (m : Movie) (attributeId : string) : R :=
  match attributes m !! attributeId with
  | Some v => v
  | None => 0%R
  end.

Record Rating := mkRating {
  movieId : string;
  userId : string;
  score : Z;
  timestamp : Z
}.

(** The [Rating] constructor throws unless the score is an integer in 1..5. *)
Definition newRating (mid uid : string) (s ts : Z) : option Rating :=
  if bool_decide (s < 1 ∨ s > 5)%Z then None else Some (mkRating mid uid s ts).

Definition attrs6 (a d c k u r : R) : gmap string R :=
  <["action" := a]> (<["drama" := d]> (<["comedy" := c]>
  (<["dark" := k]> (<["uplifting" := u]> (<["artistic" := r]> ∅))))).

Local Open Scope R_scope.

Definition SAMPLE_MOVIES : list Movie := [
  mkMovie "movie-1" "Mad Max: Fury Road" 2015 (attrs6 0.95 0.4 0.1 0.7 0.5 0.85);
  mkMovie "movie-2" "The Shawshank Redemption" 1994 (attrs6 0.2 1.0 0.15 0.6 0.9 0.7);
  mkMovie "movie-3" "Superbad" 2007 (attrs6 0.3 0.4 0.95 0.2 0.7 0.3);
  mkMovie "movie-4" "Blade Runner 2049" 2017 (attrs6 0.6 0.8 0.05 0.85 0.3 0.95);
  mkMovie "movie-5" "The Grand Budapest Hotel" 2014 (attrs6 0.4 0.6 0.7 0.3 0.6 0.9);
  mkMovie "movie-6" "Die Hard" 1988 (attrs6 0.9 0.5 0.4 0.4 0.6 0.4);
  mkMovie "movie-7" "Schindler's List" 1993 (attrs6 0.3 1.0 0.0 0.95 0.4 0.85);
  mkMovie "movie-8" "Moonrise Kingdom" 2012 (attrs6 0.2 0.7 0.6 0.2 0.8 0.85);
  mkMovie "movie-9" "John Wick" 2014 (attrs6 0.95 0.5 0.15 0.7 0.4 0.75);
  mkMovie "movie-10" "Amélie" 2001 (attrs6 0.1 0.6 0.7 0.2 0.95 0.9)
].

(** [SAMPLE_MOVIES.reduce((map, movie) => { map[movie.id] = movie; ... }, {})] *)
Definition MOVIE_MAP : gmap string Movie :=
  foldl (fun map movie => <[movie_id movie := movie]> map) ∅ SAMPLE_MOVIES.

End FilmAttributes.

(** ** frontend/tasteProfileEngine.js *)

Module TasteProfileEngine.
Import FilmAttributes.
Local Open Scope R_scope.

(** A taste profile: attribute id to score. *)
Abbreviation Profile := (gmap string R).

Definition getNeutralProfile : Profile :=
  foldl (fun profile attr => <[attr_id attr := 0.5]> profile) ∅ FILM_ATTRIBUTES.

(** The two accumulator objects [attributeSums] and [attributeWeights]. *)
Record Accumulators := mkAcc {
  attributeSums : gmap string R;
  attributeWeights : gmap string R
}.

(** [obj[key] += x] on a key that holds a number. *)
Definition add_at (key : string) (x : R) (obj : gmap string R) : gmap string R :=
  alter (fun v => v + x) key obj.

Definition initAccumulators : Accumulators :=
  foldl (fun acc attr =>
           mkAcc (<[attr_id attr := 0]> (attributeSums acc))
                 (<[attr_id attr := 0]> (attributeWeights acc)))
        (mkAcc ∅ ∅) FILM_ATTRIBUTES.

(** The body of [ratings.forEach(rating => ...)], for the own properties
    [movieMap] of the lookup object and a rating that names none of its
    inherited ones. *)
Definition accumulateRating (movieMap : gmap string Movie)
    (acc : Accumulators) (rating : Rating) : Accumulators :=
  match movieMap !! movieId rating with
  | None => acc   (* skip invalid movie references *)
  | Some movie =>
      let weight := IZR (score rating) in
      foldl (fun acc attr =>
               let attributeScore := getAttributeScore movie (attr_id attr) in
               mkAcc (add_at (attr_id attr) (attributeScore * weight) (attributeSums acc))
                     (add_at (attr_id attr) weight (attributeWeights acc)))
            acc FILM_ATTRIBUTES
  end.

Definition calculateTasteProfile (ratings : list Rating)
    (movieMap : gmap string Movie) : Profile :=
  (* Edge case: no ratings, return the neutral profile *)
  if bool_decide (length ratings = 0%nat) then getNeutralProfile
  else
    let acc := foldl (accumulateRating movieMap) initAccumulators ratings in
    (* weighted averages *)
    foldl (fun profile attr =>
             match attributeWeights acc !! attr_id attr, attributeSums acc !! attr_id attr with
             | Some w, Some s =>
                 if bool_decide (0 < w) then <[attr_id attr := s / w]> profile
                 else <[attr_id attr := 0.5]> profile   (* neutral if no data *)
             | _, _ => <[attr_id attr := 0.5]> profile
             end)
          ∅ FILM_ATTRIBUTES.

(** [obj[key] || 0] *)
Definition or0 (v : option R) : R := default 0 v.

(** [obj[key] || 0.5]: a missing entry and a stored 0 both give 0.5. *)
Definition orHalf (v : option R) : R :=
  match v with
  | Some x => if bool_decide (x = 0) then 0.5 else x
  | None => 0.5
  end.

(** The three running sums of [calculateCosineSimilarity]. *)
Definition cosineSums (profileA profileB : Profile) : R * R * R :=
  foldl (fun '(dotProduct, magnitudeA, magnitudeB) attr =>
           let a := or0 (profileA !! attr_id attr) in
           let b := or0 (profileB !! attr_id attr) in
           (dotProduct + a * b, magnitudeA + a * a, magnitudeB + b * b))
        (0, 0, 0) FILM_ATTRIBUTES.

Definition calculateCosineSimilarity (profileA profileB : Profile) : R :=
  let '(dotProduct, magnitudeA, magnitudeB) := cosineSums profileA profileB in
  let magnitudeA := sqrt magnitudeA in
  let magnitudeB := sqrt magnitudeB in
  if bool_decide (magnitudeA = 0) || bool_decide (magnitudeB = 0) then 0
  else dotProduct / (magnitudeA * magnitudeB).

Definition isProfileNeutral (profile : Profile) : bool :=
  let values := map (fun attr => orHalf (profile !! attr_id attr)) FILM_ATTRIBUTES in
  let average := foldl (fun sum val => sum + val) 0 values / INR (length values) in
  let variance :=
    foldl (fun sum val => sum + (val - average) ^ 2) 0 values / INR (length values) in
  bool_decide (Rabs (average - 0.5) < 0.1) && bool_decide (variance < 0.01).

Definition calculateAttributeStrength (attributes : gmap string R) : R :=
  let values := map (fun attr => or0 (attributes !! attr_id attr)) FILM_ATTRIBUTES in
  let deviations := map (fun val => Rabs (val - 0.5)) values in
  let averageDeviation :=
    foldl (fun sum dev => sum + dev) 0 deviations / INR (length deviations) in
  averageDeviation / 0.5.

Record Scored := mkScored {
  movie : Movie;
  similarity : R
}.

(** The comparator [(a, b) => b.similarity - a.similarity]: it is positive,
    and [a] goes after [b], when [a] is the less similar. *)
Definition bySimilarity (a b : Scored) : bool :=
  bool_decide (similarity a < similarity b).

Definition findSimilarMovies (userProfile : Profile) (allMovies : list Movie)
    (topN : nat) (excludeMovieIds : list string) : list Scored :=
  if bool_decide (length allMovies = 0%nat) then []
  else
    let isNeutralProfile := isProfileNeutral userProfile in
    let moviesWithSimilarity :=
      map (fun movie =>
             mkScored movie
               (if isNeutralProfile
                then calculateAttributeStrength (attributes movie)
                else calculateCosineSimilarity userProfile (attributes movie)))
          (filter (fun movie => movie_id movie ∉ excludeMovieIds) allMovies) in
    take topN (Js.sortBy bySimilarity moviesWithSimilarity).

End TasteProfileEngine.

(** ** frontend/filmAttributes.js and frontend/tasteProfileEngine.js, in binary64

    The movies, the similarity scorer and the ranking call once more, with
    JavaScript's numbers as they are: binary64 floating-point numbers, each
    operation rounded to nearest, with signed zeros, infinities and NaN.  The
    order of the operations is the order of the source. *)

Module Binary64.
Import FilmAttributes.
Local Open Scope float_scope.

(** The [Movie] class. *)
Record Movie := mkMovie {
  movie_id : string;
  movie_title : string;
  movie_year : Z;
  attributes : gmap string float
}.

(** [x || dflt] for a number or [undefined]: 0, -0 and NaN are falsy. *)
Definition orNumber (dflt : float) (v : option float) : float :=
  match v with
  | Some x => if (x =? 0) || is_nan x then dflt else x
  | None => dflt
  end.

(** [obj[key] || 0] and [obj[key] || 0.5] *)
Definition or0 (v : option float) : float := orNumber 0 v.
Definition orHalf (v : option float) : float := orNumber 0.5 v.

(** [this.attributes[attributeId] || 0] *)
Definition getAttributeScore (m : Movie) (attributeId : string) : float :=
  or0 (attributes m !! attributeId).

Definition attrs6 (a d c k u r : float) : gmap string float :=
  <["action" := a]> (<["drama" := d]> (<["comedy" := c]>
  (<["dark" := k]> (<["uplifting" := u]> (<["artistic" := r]> ∅))))).

Definition SAMPLE_MOVIES : list Movie := [
  mkMovie "movie-1" "Mad Max: Fury Road" 2015 (attrs6 0.95 0.4 0.1 0.7 0.5 0.85);
  mkMovie "movie-2" "The Shawshank Redemption" 1994 (attrs6 0.2 1.0 0.15 0.6 0.9 0.7);
  mkMovie "movie-3" "Superbad" 2007 (attrs6 0.3 0.4 0.95 0.2 0.7 0.3);
  mkMovie "movie-4" "Blade Runner 2049" 2017 (attrs6 0.6 0.8 0.05 0.85 0.3 0.95);
  mkMovie "movie-5" "The Grand Budapest Hotel" 2014 (attrs6 0.4 0.6 0.7 0.3 0.6 0.9);
  mkMovie "movie-6" "Die Hard" 1988 (attrs6 0.9 0.5 0.4 0.4 0.6 0.4);
  mkMovie "movie-7" "Schindler's List" 1993 (attrs6 0.3 1.0 0.0 0.95 0.4 0.85);
  mkMovie "movie-8" "Moonrise Kingdom" 2012 (attrs6 0.2 0.7 0.6 0.2 0.8 0.85);
  mkMovie "movie-9" "John Wick" 2014 (attrs6 0.95 0.5 0.15 0.7 0.4 0.75);
  mkMovie "movie-10" "Amélie" 2001 (attrs6 0.1 0.6 0.7 0.2 0.95 0.9)
].

(** A taste profile: attribute id to score. *)
Abbreviation Profile := (gmap string float).

Definition getNeutralProfile : Profile :=
  foldl (fun profile attr => <[attr_id attr := 0.5]> profile) ∅ FILM_ATTRIBUTES.

(** The three running sums of [calculateCosineSimilarity]. *)
Definition cosineSums (profileA profileB : Profile) : float * float * float :=
  foldl (fun '(dotProduct, magnitudeA, magnitudeB) attr =>
           let a := or0 (profileA !! attr_id attr) in
           let b := or0 (profileB !! attr_id attr) in
           (dotProduct + a * b, magnitudeA + a * a, magnitudeB + b * b))
        (0, 0, 0) FILM_ATTRIBUTES.

Definition calculateCosineSimilarity (profileA profileB : Profile) : float :=
  let '(dotProduct, magnitudeA, magnitudeB) := cosineSums profileA profileB in
  let magnitudeA := PrimFloat.sqrt magnitudeA in
  let magnitudeB := PrimFloat.sqrt magnitudeB in
  if (magnitudeA =? 0) || (magnitudeB =? 0) then 0
  else dotProduct / (magnitudeA * magnitudeB).

(** [arr.length], as a number. *)
Definition length64 {A : Type} (l : list A) : float :=
  PrimFloat.of_uint63 (Uint63.of_Z (Z.of_nat (length l))).

(** [Math.pow(val - average, 2)] is the product
    [(val - average) * (val - average)]: the [pow] of fdlibm, which the
    JavaScript engines derive theirs from, returns [x * x] for the
    exponent 2. *)
Definition isProfileNeutral (profile : Profile) : bool :=
  let values := map (fun attr => orHalf (profile !! attr_id attr)) FILM_ATTRIBUTES in
  let average := foldl (fun sum val => sum + val) 0 values / length64 values in
  let variance :=
    foldl (fun sum val => sum + (val - average) * (val - average)) 0 values
    / length64 values in
  (PrimFloat.abs (average - 0.5) <? 0.1) && (variance <? 0.01).

Definition calculateAttributeStrength (attributes : gmap string float) : float :=
  let values := map (fun attr => or0 (attributes !! attr_id attr)) FILM_ATTRIBUTES in
  let deviations := map (fun val => PrimFloat.abs (val - 0.5)) values in
  let averageDeviation :=
    foldl (fun sum dev => sum + dev) 0 deviations / length64 deviations in
  averageDeviation / 0.5.

Record Scored := mkScored {
  movie : Movie;
  similarity : float
}.

(** The comparator [(a, b) => b.similarity - a.similarity]: the difference
    is positive, and [a] goes after [b], exactly when [a.similarity] is less
    than [b.similarity] (a difference of two different numbers is never
    rounded to zero, and it is NaN when one of them is). *)
Definition bySimilarity (a b : Scored) : bool := similarity a <? similarity b.

Definition findSimilarMovies (userProfile : Profile) (allMovies : list Movie)
    (topN : nat) (excludeMovieIds : list string) : list Scored :=
  if bool_decide (length allMovies = 0%nat) then []
  else
    let isNeutralProfile := isProfileNeutral userProfile in
    let moviesWithSimilarity :=
      map (fun movie =>
             mkScored movie
               (if isNeutralProfile
                then calculateAttributeStrength (attributes movie)
                else calculateCosineSimilarity userProfile (attributes movie)))
          (filter (fun movie => movie_id movie ∉ excludeMovieIds) allMovies) in
    take topN (Js.sortBy bySimilarity moviesWithSimilarity).

End Binary64.

(** ** frontend/dataStore.js *)

Module DataStore.
Import FilmAttributes.
Local Open Scope R_scope.

(** [{ success, data, error }] *)
Record Result (A : Type) := mkResult {
  success : bool;
  data : option A;
  error : option string
}.
Arguments mkResult {A}.
Arguments success {A}.
Arguments data {A}.
Arguments error {A}.

(** The store: its user and the values of its [ratings] map, in insertion
    order (one rating per movie id). *)
Record UserDataStore := mkStore {
  store_userId : string;
  ratings : list Rating
}.

Definition _getEmptyProfile : gmap string R :=
  foldl (fun profile attr => <[attr_id attr := 0]> profile) ∅ FILM_ATTRIBUTES.

Definition getTasteProfile (this : UserDataStore) : Result (gmap string R) :=
  let ratingsArray := ratings this in
  if bool_decide (length ratingsArray = 0%nat)
  then mkResult true (Some _getEmptyProfile) None
  else
    (* try: the weighted sums *)
    let sums :=
      Js.forEach
        (fun acc rating =>
           match Js.get MOVIE_MAP (movieId rating) with
           | Js.Undefined => Js.Returned acc   (* movie not found *)
           | Js.Inherited => Js.Thrown Js.NOT_A_FUNCTION
           | Js.Own movie =>
               let weight := IZR (score rating) in
               Js.Returned
                 (foldl (fun acc attr =>
                           let attributeScore := getAttributeScore movie (attr_id attr) in
                           TasteProfileEngine.mkAcc
                             (TasteProfileEngine.add_at (attr_id attr) (attributeScore * weight)
                                (TasteProfileEngine.attributeSums acc))
                             (TasteProfileEngine.add_at (attr_id attr) weight
                                (TasteProfileEngine.attributeWeights acc)))
                        acc FILM_ATTRIBUTES)
           end)
        ratingsArray TasteProfileEngine.initAccumulators in
    match sums with
    | Js.Returned acc =>
        let profile :=
          foldl (fun profile attr =>
                   match TasteProfileEngine.attributeWeights acc !! attr_id attr,
                         TasteProfileEngine.attributeSums acc !! attr_id attr with
                   | Some w, Some s =>
                       if bool_decide (0 < w) then <[attr_id attr := s / w]> profile
                       else <[attr_id attr := 0]> profile
                   | _, _ => <[attr_id attr := 0]> profile
                   end)
                ∅ FILM_ATTRIBUTES in
        mkResult true (Some profile) None
    | Js.Thrown message =>
        (* catch *)
        mkResult false None (Some ("Failed to calculate taste profile: " +:+ message))
    end.

(** *** The [ratings] map

    A [Map] from movie id to [Rating], kept as the list of its values in
    insertion order; the key of a value is its [movieId], as in every
    [this.ratings.set(movieId, rating)] of the class. *)

(** [map.set(rating.movieId, rating)]: an existing key keeps its place. *)
Fixpoint mapSet (rating : Rating) (map : list Rating) : list Rating :=
  match map with
  | [] => [rating]
  | r :: map' =>
      if bool_decide (movieId r = movieId rating) then rating :: map'
      else r :: mapSet rating map'
  end.

(** [map.get(key)] *)
Definition mapGet (key : string) (map : list Rating) : option Rating :=
  List.find (fun r => bool_decide (movieId r = key)) map.

(** [map.delete(key)] *)
Definition mapDelete (key : string) (map : list Rating) : list Rating :=
  filter (fun r => movieId r <> key) map.

(** *** localStorage

    What [localStorage.getItem(STORAGE_KEY)] holds, as [JSON.parse] reads it:
    a text that does not parse, or parses to a value whose [ratings] cannot be
    read; an object without a [ratings] array; or an object with one, as
    [save] writes it (its entries are rating objects with an integer score).
    [None] is a missing or empty item.  [quotaExceeded] is the message of the
    error that [setItem] throws, when it throws. *)
Inductive Stored :=
  | Unparsable (message : string)
  | NoRatingsArray
  | Saved (version : Z) (ratings : list Rating) (lastUpdated : Z).

Record LocalStorage := mkStorage {
  item : option Stored;
  quotaExceeded : option string
}.

(** [save]; [now] is the clock, read by [Date.now()]. *)
Definition save {A : Type} (this : UserDataStore) (storage : LocalStorage) (now : Z)
    : Result A * LocalStorage :=
  match item storage with
  | Some (Unparsable message) =>
      (mkResult false None (Some ("Failed to save to localStorage: " +:+ message)), storage)
  | stored =>
      (* Load existing data to preserve other users' ratings *)
      let allRatings :=
        match stored with
        | Some (Saved _ rs _) => filter (fun r => userId r <> store_userId this) rs
        | _ => []
        end in
      (* Add current user's ratings *)
      let allRatings := allRatings ++ ratings this in
      (* Save to localStorage *)
      match quotaExceeded storage with
      | Some message =>
          (mkResult false None (Some ("Failed to save to localStorage: " +:+ message)),
           storage)
      | None =>
          (mkResult true None None,
           mkStorage (Some (Saved 1 allRatings now)) (quotaExceeded storage))
      end
  end.

(** The body of the [forEach] of [load]: reconstruct the [Rating] object of
    a stored entry and set it, or skip the entry when the constructor throws. *)
Definition reconstruct (map : list Rating) (r : Rating) : list Rating :=
  match newRating (movieId r) (userId r) (score r) (timestamp r) with
  | Some rating => mapSet rating map
  | None => map
  end.

(** [load] *)
Definition load (this : UserDataStore) (storage : LocalStorage) : UserDataStore :=
  match item storage with
  | None => this                                          (* no stored data found *)
  | Some (Unparsable _) => mkStore (store_userId this) [] (* start with empty ratings *)
  | Some NoRatingsArray => this                           (* invalid stored data structure *)
  | Some (Saved _ rs _) =>
      (* Filter ratings for this user and reconstruct Rating objects *)
      mkStore (store_userId this)
        (foldl reconstruct [] (filter (fun r => userId r = store_userId this) rs))
  end.

(** [new UserDataStore(userId)] *)
Definition newUserDataStore (userId : string) (storage : LocalStorage) : UserDataStore :=
  load (mkStore userId []) storage.

(** [addRating]; the score is an integer, so that [Number.isInteger] holds.
    The check [!MOVIE_MAP[movieId]] lets the inherited property names pass. *)
Definition addRating (this : UserDataStore) (storage : LocalStorage) (now : Z)
    (movieId : string) (score : Z) : Result Rating * UserDataStore * LocalStorage :=
  (* Validate score *)
  if bool_decide (score < 1 \/ score > 5)%Z then
    (mkResult false None
       (Some ("Invalid score: " +:+ pretty score +:+ ". Must be an integer between 1-5.")),
     this, storage)
  (* Validate movieId exists *)
  else if negb (Js.truthy (Js.get MOVIE_MAP movieId)) then
    (mkResult false None (Some ("Invalid movieId: " +:+ movieId +:+ ". Movie not found.")),
     this, storage)
  else
    (* Create new rating *)
    match newRating movieId (store_userId this) score now with
    | None =>
        (mkResult false None
           (Some ("Failed to add rating: Invalid rating score " +:+ pretty score
                  +:+ ". Must be integer between 1-5")),
         this, storage)
    | Some rating =>
        (* Store in memory *)
        let this := mkStore (store_userId this) (mapSet rating (ratings this)) in
        (* Persist to localStorage *)
        let '(saveResult, storage) := save this storage now in
        if negb (success saveResult) then (saveResult, this, storage)
        else (mkResult true (Some rating) None, this, storage)
    end.

Definition getRating (this : UserDataStore) (movieId : string) : Result Rating :=
  match mapGet movieId (ratings this) with
  | None => mkResult false None (Some ("No rating found for movie: " +:+ movieId))
  | Some rating => mkResult true (Some rating) None
  end.

Definition getRatings (this : UserDataStore) : Result (list Rating) :=
  mkResult true (Some (ratings this)) None.

Definition deleteRating (this : UserDataStore) (storage : LocalStorage) (now : Z)
    (movieId : string) : Result Rating * UserDataStore * LocalStorage :=
  match mapGet movieId (ratings this) with
  | None =>
      (mkResult false None (Some ("No rating found for movie: " +:+ movieId)), this, storage)
  | Some _ =>
      let this := mkStore (store_userId this) (mapDelete movieId (ratings this)) in
      let '(saveResult, storage) := save this storage now in
      if negb (success saveResult) then (saveResult, this, storage)
      else (mkResult true None None, this, storage)
  end.

Definition clearAllRatings (this : UserDataStore) (storage : LocalStorage) (now : Z)
    : Result Rating * UserDataStore * LocalStorage :=
  let this := mkStore (store_userId this) [] in
  let '(saveResult, storage) := save this storage now in
  if negb (success saveResult) then (saveResult, this, storage)
  else (mkResult true None None, this, storage).

(** [distribution[rating.score]++] on the object [{ 1: 0, 2: 0, 3: 0, 4: 0,
    5: 0 }] (the score of a [Rating] is always one of its five keys). *)
Definition _getRatingDistribution (ratingsArray : list Rating) : gmap Z Z :=
  foldl (fun distribution rating => alter Z.succ (score rating) distribution)
        (<[1%Z := 0%Z]> (<[2%Z := 0%Z]> (<[3%Z := 0%Z]> (<[4%Z := 0%Z]> (<[5%Z := 0%Z]> ∅)))))
        ratingsArray.

Record Stats := mkStats {
  totalRatings : nat;
  averageRating : R;
  ratingDistribution : gmap Z Z
}.

Record ProfileWithStats := mkProfileWithStats {
  profile : option (gmap string R);
  stats : Stats
}.

Definition getTasteProfileWithStats (this : UserDataStore) : Result ProfileWithStats :=
  let profileResult := getTasteProfile this in
  if negb (success profileResult) then mkResult false None (error profileResult)
  else
    let ratingsArray := ratings this in
    let stats :=
      mkStats (length ratingsArray)
        (if bool_decide (0 < length ratingsArray)%nat
         then foldl (fun sum r => sum + IZR (score r)) 0 ratingsArray
              / INR (length ratingsArray)
         else 0)
        (_getRatingDistribution ratingsArray) in
    mkResult true (Some (mkProfileWithStats (data profileResult) stats)) None.

End DataStore.

(** ** frontend/explorationUI.js *)

Module ExplorationUI.
Import FilmAttributes.
Local Open Scope R_scope.

(** The callback of the filter: the movie matches ALL selected attributes; an
    attribute is present when its score is above 0.5. *)
Definition matchesAll (activeFilters : list string) (movie : Movie) : bool :=
  forallb (fun attrId => bool_decide (0.5 < getAttributeScore movie attrId)) activeFilters.

(** The new value of [filteredMovies] in [applyFilters]; [activeFilters] is
    the Set of the selected attribute ids, in insertion order. *)
Definition applyFilters (activeFilters : list string) (allMovies : list Movie) : list Movie :=
  if bool_decide (length activeFilters = 0%nat) then allMovies   (* show all movies *)
  else filter (fun movie => matchesAll activeFilters movie) allMovies.

(** [calculatePeriodProfile]; the call throws when a rating names an inherited
    property of [MOVIE_MAP]. *)
Definition calculatePeriodProfile (ratings : list Rating) : Js.Outcome (gmap string R) :=
  Js.forEach
    (fun profile attr =>
       let sums :=
         Js.forEach
           (fun '(sum, weightSum) rating =>
              match Js.get MOVIE_MAP (movieId rating) with
              | Js.Own movie =>
                  let weight := IZR (score rating) in
                  Js.Returned (sum + getAttributeScore movie (attr_id attr) * weight,
                               weightSum + weight)
              | Js.Inherited => Js.Thrown Js.NOT_A_FUNCTION
              | Js.Undefined => Js.Returned (sum, weightSum)
              end)
           ratings (0, 0) in
       match sums with
       | Js.Thrown message => Js.Thrown message
       | Js.Returned (sum, weightSum) =>
           Js.Returned
             (<[attr_id attr := if bool_decide (0 < weightSum) then sum / weightSum else 0]>
                profile)
       end)
    FILM_ATTRIBUTES ∅.

End ExplorationUI.

(** ** The [movies] table (worker/schema.sql, api/schema.sql) *)

Module Database.

(** A row of [movies].  [genres] is the stored text already split into its
    genre names (a JSON array for the worker, a comma-separated list for the
    api); [None] is a NULL or empty column. *)
Record Movie := mkMovie {
  id : Z;
  imdb_id : string;
  title : string;
  year : Z;
  runtime_minutes : option Z;
  genres : option (list string);
  director : option string;
  user_rating : option Z;
  tmdb_rating : option Q;
  plot_keywords : option (list string)
}.

(** [!m.user_rating] *)
Definition unrated (m : Movie) : bool := negb (Js.truthyZ (user_rating m)).

End Database.

(** ** worker/src/recommendations.js *)

Module WorkerRecommendations.
Export Database.
Local Open Scope Q_scope.

Definition CACHE_EXPIRY_HOURS : Z := 24.
Definition DEFAULT_COUNT : Z := 10.
Definition MAX_COUNT : Z := 50.

Record Director := mkDirector {
  name : string;
  count_loved : Z;
  avg_rating : Q
}.

Record TasteProfile := mkTasteProfile {
  p_genres : gmap string Q;
  p_eras : gmap string Q;
  p_themes : list string;
  p_runtime_preference : option string;
  p_directors : list Director;
  p_sample_size : Z;
  p_confidence : Q
}.

(** The parsed [metadata] column of a [taste_profile] row. *)
Inductive Metadata :=
  | MetaScores (scores : gmap string Q)
  | MetaThemes (themes : list string)
  | MetaRuntime (preference : option string)
  | MetaDirectors (directors : list Director).

Record ProfileRow := mkProfileRow {
  dimension_name : string;
  dimension_value : Q;
  sample_size : Z;
  metadata : option Metadata
}.

(** A row of [recommendations].  The two timestamps, stored as text by the
    code, are times in milliseconds on the clock that [now] reads. *)
Record CacheRow := mkCacheRow {
  recommended_movie_ids : list Z;
  reasoning : string;
  context : string;
  confidence_score : Q;
  created_at : Z;
  expires_at : Z
}.

Record DB := mkDB {
  movies : list Movie;
  taste_profile : list ProfileRow;
  recommendations : list CacheRow
}.

Record Options := mkOptions {
  mood : option string;
  genre_filter : option (list string);
  era_filter : option string;
  count : option Z
}.

(** What the oracle does in one call of [ai.run], after the engine's own
    decoding of the reply: it throws; or its text holds no JSON array (no
    match, or a match that does not parse); or it holds an array. *)
Inductive RankEntry :=
  | RankNull                          (* null: reading [r.title] throws *)
  | RankObject (r_title : option string) (r_reasoning : option string).

Inductive AiReply :=
  | AiThrows
  | AiNoJson
  | AiRankings (rankings : list RankEntry).

Definition isNull (r : RankEntry) : bool :=
  match r with RankNull => true | RankObject _ _ => false end.

(** The collaborators of one call: the clock, the oracle, and whether the
    INSERT into the cache table fails. *)
Record Env := mkEnv {
  now : Z;
  ai : AiReply;
  cacheWriteFails : bool
}.

(** Rows are the ones [calculateTasteProfile] writes: a row whose metadata has
    another shape than its dimension name announces is skipped here. *)
Definition loadTasteProfile (db : DB) : option TasteProfile :=
  let results := taste_profile db in
  if bool_decide (length results = 0%nat) then None
  else
    Some (foldl (fun profile row =>
      match metadata row with
      | Some (MetaScores m) =>
          if bool_decide (dimension_name row = "genres") then
            mkTasteProfile m (p_eras profile) (p_themes profile)
              (p_runtime_preference profile) (p_directors profile)
              (sample_size row) (p_confidence profile)
          else if bool_decide (dimension_name row = "eras") then
            mkTasteProfile (p_genres profile) m (p_themes profile)
              (p_runtime_preference profile) (p_directors profile)
              (p_sample_size profile) (p_confidence profile)
          else profile
      | Some (MetaThemes t) =>
          if bool_decide (dimension_name row = "themes") then
            mkTasteProfile (p_genres profile) (p_eras profile) t
              (p_runtime_preference profile) (p_directors profile)
              (p_sample_size profile) (p_confidence profile)
          else profile
      | Some (MetaRuntime pref) =>
          if bool_decide (dimension_name row = "runtime_preference") then
            mkTasteProfile (p_genres profile) (p_eras profile) (p_themes profile)
              pref (p_directors profile)
              (p_sample_size profile) (dimension_value row)
          else profile
      | Some (MetaDirectors d) =>
          if bool_decide (dimension_name row = "directors") then
            mkTasteProfile (p_genres profile) (p_eras profile) (p_themes profile)
              (p_runtime_preference profile) d
              (p_sample_size profile) (p_confidence profile)
          else profile
      | None => profile
      end)
      (mkTasteProfile ∅ ∅ [] (Some "medium") [] 0 0) results).

Record Cached := mkCached {
  movie_ids : list Z;
  c_reasoning : string;
  c_confidence : Q;
  c_created_at : Z
}.

(** [WHERE context = ? AND expires_at > now ORDER BY created_at DESC LIMIT 1] *)
Definition getCachedRecommendations (db : DB) (ctx : string) (now : Z) : option Cached :=
  let valid :=
    filter (fun row => context row = ctx /\ (now < expires_at row)%Z) (recommendations db) in
  let newest :=
    foldl (fun best row =>
             match best with
             | None => Some row
             | Some b => if (created_at b <? created_at row)%Z then Some row else Some b
             end) None valid in
  match newest with
  | None => None
  | Some result =>
      Some (mkCached (recommended_movie_ids result) (reasoning result)
              (confidence_score result) (created_at result))
  end.

(** The two filter callbacks of [applyFilters]. *)
Definition genreMatches (genre_filter : list string) (movie : Movie) : bool :=
  match genres movie with
  | None => false
  | Some gs => existsb (fun g => bool_decide (g ∈ gs)) genre_filter
  end.

Definition eraMatches (era_filter : option string) (movie : Movie) : bool :=
  if bool_decide (era_filter = Some "classic") then (year movie <? 1980)%Z
  else if bool_decide (era_filter = Some "modern")
       then (1980 <=? year movie)%Z && (year movie <? 2010)%Z
  else if bool_decide (era_filter = Some "recent") then (2010 <=? year movie)%Z
  else true.

Definition applyFilters (movies : list Movie) (options : Options) : list Movie :=
  let filtered := movies in
  (* Genre filter *)
  let filtered :=
    match genre_filter options with
    | Some gf =>
        if bool_decide (0 < length gf)%nat
        then filter (fun movie => genreMatches gf movie) filtered
        else filtered
    | None => filtered
    end in
  (* Era filter *)
  if Js.truthyS (era_filter options)
  then filter (fun movie => eraMatches (era_filter options) movie) filtered
  else filtered.

(** [`${Math.floor(movie.year / 10) * 10}s`] *)
Definition decadeOf (y : Z) : string := pretty (y / 10 * 10)%Z +:+ "s".

(** [obj[key] || 0] *)
Definition or0 (v : option Q) : Q := default 0 v.

(** (For a row whose genre array is empty the quotient below is 0/0: NaN in
    the code, 0 here; and a genre named like an inherited property, such as
    [toString], reads a function from [profile.genres], 0 here.) *)
Definition calculateBasicMatchScore (movie : Movie) (profile : TasteProfile) : Q :=
  let score := 0 in
  let factors := 0%nat in
  (* Genre matching *)
  let '(score, factors) :=
    match genres movie with
    | Some gs =>
        if (0 <? size (p_genres profile))%nat then
          let genreScore :=
            foldl (fun sum g => sum + or0 (p_genres profile !! g)) 0 gs
            / inject_Z (Z.of_nat (length gs)) in
          (score + genreScore, S factors)
        else (score, factors)
    | None => (score, factors)
    end in
  (* Era matching *)
  let '(score, factors) :=
    if negb (year movie =? 0)%Z && (0 <? size (p_eras profile))%nat then
      let decade := decadeOf (year movie) in
      let eraScore := or0 (p_eras profile !! decade) in
      (score + eraScore, S factors)
    else (score, factors) in
  (* Runtime matching *)
  let '(score, factors) :=
    match runtime_minutes movie with
    | Some runtime =>
        if negb (runtime =? 0)%Z && Js.truthyS (p_runtime_preference profile) then
          let pref := p_runtime_preference profile in
          let runtimeMatch :=
            if bool_decide (pref = Some "short") && (runtime <? 90)%Z then 1
            else if bool_decide (pref = Some "medium") && (90 <=? runtime)%Z
                    && (runtime <=? 150)%Z then 1
            else if bool_decide (pref = Some "long") && (150 <? runtime)%Z then 1
            else 3 # 10 in
          (score + runtimeMatch, S factors)
        else (score, factors)
    | None => (score, factors)
    end in
  if (0 <? factors)%nat then score / inject_Z (Z.of_nat factors) else 1 # 2.

Record AiRanked := mkAiRanked {
  ar_movie : Movie;
  ar_reasoning : option string
}.

(** [rankWithAI]: [None] is the fallback signal; an entry of the returned
    array is [None] (null) when its title names no candidate. *)
Definition rankWithAI (reply : AiReply) (candidates : list Movie)
    : option (list (option AiRanked)) :=
  match reply with
  | AiThrows => None
  | AiNoJson => None
  | AiRankings rankings =>
      (* reading [r.title] of a null entry inside the [find] callback throws;
         the error is caught *)
      if existsb isNull rankings && (0 <? length candidates)%nat then None
      else
        Some (map (fun r =>
                     match r with
                     | RankObject (Some t) reason =>
                         match find (fun c => bool_decide (title c = t)) candidates with
                         | Some movie => Some (mkAiRanked movie reason)
                         | None => None
                         end
                     | _ => None
                     end) rankings)
  end.

Definition generateBasicReasoning (movie : Movie) (profile : TasteProfile) : string :=
  let reasons := [] in
  let reasons :=
    match genres movie with
    | Some gs =>
        match find (fun g => Js.Qltb (1 # 2) (or0 (p_genres profile !! g))) gs with
        | Some topGenre => reasons ++ ["matches your love of " +:+ topGenre]
        | None => reasons
        end
    | None => reasons
    end in
  let reasons :=
    if negb (year movie =? 0)%Z then
      let decade := decadeOf (year movie) in
      if Js.Qltb (1 # 2) (or0 (p_eras profile !! decade))
      then reasons ++ ["from your favorite era (" +:+ decade +:+ ")"]
      else reasons
    else reasons in
  let reasons :=
    match director movie with
    | Some d =>
        if bool_decide (d = "") then reasons
        else
          match find (fun fd => bool_decide (name fd = d)) (p_directors profile) with
          | Some favoriteDirector =>
              reasons ++ ["directed by " +:+ d +:+ " (you've loved "
                          +:+ pretty (count_loved favoriteDirector) +:+ " films)"]
          | None => reasons
          end
    | None => reasons
    end in
  if bool_decide (length reasons = 0%nat) then "Similar to movies in your collection"
  else "Recommended because it " +:+ String.concat " and " reasons.

Record Recommendation := mkRecommendation {
  movie : Movie;
  match_score : Q;
  rec_reasoning : option string
}.

Record Result := mkResult {
  error : option string;
  res_recommendations : list Recommendation;
  profile_confidence : option Q;
  cached : option bool;
  ai_powered : option bool;
  res_created_at : option Z
}.

(** [Math.ceil(count / 3)] *)
Definition cap (count : Z) : Z := (count + 2) / 3.

(** The three variables of the diversity pass. *)
Record Diversity := mkDiversity {
  genreCounts : gmap string Z;
  diversified : list Recommendation;
  backup : list Recommendation
}.

(** [genres[0]] used as an object key: an empty array gives [undefined]. *)
Definition primaryGenre (gs : list string) : string :=
  match gs with
  | g :: _ => g
  | [] => "undefined"
  end.

(** The body of [recommendations.forEach(rec => ...)].  [genreCounts] is a
    plain object: for a genre named like an inherited property the counter
    read is a function, which is neither falsy nor below the cap. *)
Definition diversityStep (count : Z) (st : Diversity) (rec : Recommendation) : Diversity :=
  match genres (movie rec) with
  | None => mkDiversity (genreCounts st) (diversified st ++ [rec]) (backup st)
  | Some gs =>
      let g := primaryGenre gs in
      match Js.get (genreCounts st) g with
      | Js.Inherited => mkDiversity (genreCounts st) (diversified st) (backup st ++ [rec])
      | counter =>
          let seen := Js.orZero counter in
          if (seen =? 0)%Z || (seen <? cap count)%Z then
            mkDiversity (<[g := (seen + 1)%Z]> (genreCounts st)) (diversified st ++ [rec])
              (backup st)
          else
            mkDiversity (genreCounts st) (diversified st) (backup st ++ [rec])
      end
  end.

(** [while (diversified.length < count && backup.length > 0)
       diversified.push(backup.shift())] *)
Fixpoint fillFromBackup (count : Z) (diversified backup : list Recommendation)
    : list Recommendation :=
  match backup with
  | [] => diversified
  | b :: backup' =>
      if (Z.of_nat (length diversified) <? count)%Z
      then fillFromBackup count (diversified ++ [b]) backup'
      else diversified
  end.

Definition diversify (count : Z) (recommendations : list Recommendation)
    : list Recommendation :=
  let st := foldl (diversityStep count) (mkDiversity ∅ [] []) recommendations in
  fillFromBackup count (diversified st) (backup st).

(** [[mood || 'any', genre_filter?.join(',') || 'all', era_filter || 'all',
      count].join('|')] *)
Definition orText (v : option string) (dflt : string) : string :=
  if Js.truthyS v then default dflt v else dflt.

Definition contextOf (options : Options) (count : Z) : string :=
  String.concat "|"
    [ orText (mood options) "any";
      orText (String.concat "," <$> genre_filter options) "all";
      orText (era_filter options) "all";
      pretty count ].

(** [Math.min(options.count || DEFAULT_COUNT, MAX_COUNT)] *)
Definition effectiveCount (options : Options) : Z :=
  Z.min (if Js.truthyZ (count options) then default DEFAULT_COUNT (count options)
         else DEFAULT_COUNT) MAX_COUNT.

Definition generateRecommendations (db : DB) (env : Env) (options : Options)
    : Js.Outcome Result * DB :=
  let count := effectiveCount options in
  (* Load taste profile *)
  match loadTasteProfile db with
  | None =>
      (Js.Returned (mkResult
         (Some "No taste profile found. Please calculate taste profile first.")
         [] None None None None), db)
  | Some profile =>
      let context := contextOf options count in
      (* Check cache *)
      match getCachedRecommendations db context (now env) with
      | Some cached =>
          let found :=
            map (fun i => find (fun m => (id m =? i)%Z) (movies db))
                (Js.sliceTo count (movie_ids cached)) in
          (Js.Returned (mkResult None
             (imap (fun i m => mkRecommendation m (1 - inject_Z (Z.of_nat i) * (5 # 100))
                                 (Some (c_reasoning cached)))
                   (omap (fun m => m) found))
             (Some (p_confidence profile)) (Some true) None
             (Some (c_created_at cached))), db)
      | None =>
          let allMovies := movies db in
          (* Filter out already-rated movies *)
          let unrated := filter (fun m : Movie => unrated m) allMovies in
          (* Apply optional filters *)
          let filtered := applyFilters unrated options in
          if bool_decide (length filtered = 0%nat) then
            (Js.Returned (mkResult (Some "No movies match the specified filters")
               [] None None None None), db)
          else
            (* Calculate basic match scores for all candidates, sort by score *)
            let scored :=
              Js.sortBy (fun a b => Js.Qltb (snd a) (snd b))
                (map (fun movie => (movie, calculateBasicMatchScore movie profile)) filtered) in
            (* Get top candidates for AI ranking *)
            let topCandidates :=
              map fst (Js.sliceTo (Z.min 50 (Z.of_nat (length scored))) scored) in
            (* Try AI ranking *)
            let aiRanked := rankWithAI (ai env) topCandidates in
            let ranked : option (list Recommendation * string * bool) :=
              match aiRanked with
              | Some (r :: rs) =>
                  (* Use AI rankings; reading [r.movie] of a null entry throws *)
                  let top := Js.sliceTo count (r :: rs) in
                  if negb (forallb (fun r => bool_decide (is_Some r)) top) then None
                  else Some
                    (imap (fun i r =>
                             mkRecommendation (ar_movie r)
                               (Js.toFixed2 (1 - inject_Z (Z.of_nat i) * (5 # 100)))
                               (ar_reasoning r))
                          (omap (fun r => r) top),
                     "AI-powered recommendations based on your taste profile", true)
              | _ =>
                  (* Fallback to basic scoring *)
                  Some
                    (map (fun s => mkRecommendation (fst s) (Js.toFixed2 (snd s))
                                     (Some (generateBasicReasoning (fst s) profile)))
                         (Js.sliceTo count scored),
                     "Recommendations based on genre and era preferences", false)
              end in
            match ranked with
            | None => (Js.Thrown "TypeError: Cannot read properties of null (reading 'movie')", db)
            | Some (recs, reasoning, ai_powered) =>
                (* Add diversity check - ensure not all from same genre *)
                let diversified := diversify count recs in
                (* Cache recommendations *)
                let movieIds := map (fun r => id (movie r)) diversified in
                let expiresAt := (now env + CACHE_EXPIRY_HOURS * 60 * 60 * 1000)%Z in
                let db' :=
                  if cacheWriteFails env then db   (* caught and logged *)
                  else mkDB (movies db) (taste_profile db)
                         (recommendations db ++
                            [mkCacheRow movieIds reasoning context (p_confidence profile)
                               (now env) expiresAt]) in
                (Js.Returned (mkResult None diversified (Some (p_confidence profile))
                                (Some false) (Some ai_powered) None), db')
            end
      end
  end.

End WorkerRecommendations.

(** ** api/src/recommendations.js *)

Module ApiRecommendations.
Export Database.
Local Open Scope Q_scope.

Definition CACHE_DURATION_HOURS : Z := 24.
Definition DEFAULT_COUNT : Z := 10.
Definition MAX_COUNT : Z := 50.

Record TasteProfile := mkTasteProfile {
  p_genres : gmap string Q;
  p_eras : gmap string Q;
  p_themes : list string;
  p_directors : list string;
  p_runtime_preference : option string;
  p_sample_size : Z;
  p_confidence : Q
}.

(** The parsed [metadata] object of a [taste_profile] row; a NULL column is
    the empty object. *)
Record Metadata := mkMetadata {
  meta_score : option Q;
  meta_confidence : option Q
}.

Record ProfileRow := mkProfileRow {
  dimension_name : string;
  dimension_value : string;
  sample_size : Z;
  metadata : option Metadata
}.

(** One entry of the array stored in [recommended_movie_ids]. *)
Record Scored := mkScored {
  s_imdb_id : string;
  s_match_score : Q;
  s_reasoning : string
}.

Record CacheRow := mkCacheRow {
  context : string;
  recommended_movie_ids : list Scored;
  confidence_score : option Q;
  created_at : Z;
  expires_at : Z
}.

Record DB := mkDB {
  movies : list Movie;
  taste_profile : list ProfileRow;
  recommendations : list CacheRow
}.

Record Options := mkOptions {
  mood : option string;
  genre_filter : option (list string);
  era_filter : option string;
  count : option Z
}.

(** What the oracle does in one call of [ai.run], after the engine's own
    decoding of the reply: it throws; or its text is empty, does not parse, or
    is not an array; or it is an array. *)
Inductive RecEntry :=
  | RecNull                           (* null: reading [rec.imdb_id] throws *)
  | RecObject (r_imdb_id : option string) (r_match_score : option Q)
              (r_reasoning : option string).

Inductive AiReply :=
  | AiThrows
  | AiInvalid
  | AiArray (recommendations : list RecEntry).

Definition isNull (r : RecEntry) : bool :=
  match r with RecNull => true | RecObject _ _ _ => false end.

(** The collaborators of one call: the clock, the oracle, and whether the
    INSERT into the cache table fails. *)
Record Env := mkEnv {
  now : Z;
  ai : AiReply;
  cacheWriteFails : bool
}.

(** [obj[key] || 0] and [x || 0] *)
Definition or0 (v : option Q) : Q := default 0 v.

Definition loadTasteProfile (db : DB) : option TasteProfile :=
  let results := taste_profile db in
  if bool_decide (length results = 0%nat) then None
  else
    Some (foldl (fun profile row =>
      let metadata := default (mkMetadata None None) (metadata row) in
      let sample := sample_size row in
      if bool_decide (dimension_name row = "genre") then
        mkTasteProfile (<[dimension_value row := or0 (meta_score metadata)]> (p_genres profile))
          (p_eras profile) (p_themes profile) (p_directors profile)
          (p_runtime_preference profile) sample (p_confidence profile)
      else if bool_decide (dimension_name row = "era") then
        mkTasteProfile (p_genres profile)
          (<[dimension_value row := or0 (meta_score metadata)]> (p_eras profile))
          (p_themes profile) (p_directors profile)
          (p_runtime_preference profile) sample (p_confidence profile)
      else if bool_decide (dimension_name row = "theme") then
        mkTasteProfile (p_genres profile) (p_eras profile)
          (p_themes profile ++ [dimension_value row]) (p_directors profile)
          (p_runtime_preference profile) sample (p_confidence profile)
      else if bool_decide (dimension_name row = "director") then
        mkTasteProfile (p_genres profile) (p_eras profile)
          (p_themes profile) (p_directors profile ++ [dimension_value row])
          (p_runtime_preference profile) sample (p_confidence profile)
      else if bool_decide (dimension_name row = "runtime_preference") then
        mkTasteProfile (p_genres profile) (p_eras profile)
          (p_themes profile) (p_directors profile)
          (Some (dimension_value row)) sample (or0 (meta_confidence metadata))
      else
        mkTasteProfile (p_genres profile) (p_eras profile)
          (p_themes profile) (p_directors profile)
          (p_runtime_preference profile) sample (p_confidence profile))
      (mkTasteProfile ∅ ∅ [] [] None 0 0) results).

(** The filter callback of [filterByGenre]. *)
Definition genreMatches (genreFilter : list string) (movie : Movie) : bool :=
  match genres movie with
  | None => false
  | Some movieGenres =>
      existsb (fun genre =>
                 existsb (fun mg => bool_decide (Js.toLowerCase mg = Js.toLowerCase genre))
                         movieGenres) genreFilter
  end.

Definition filterByGenre (movies : list Movie) (genreFilter : list string) : list Movie :=
  if bool_decide (length genreFilter = 0%nat) then movies
  else filter (fun movie => genreMatches genreFilter movie) movies.

(** The filter callback of [filterByEra]. *)
Definition eraMatches (eraFilter : string) (movie : Movie) : bool :=
  if (year movie =? 0)%Z then false
  else if bool_decide (eraFilter = "classic") then (year movie <? 2000)%Z
  else if bool_decide (eraFilter = "modern")
       then (2000 <=? year movie)%Z && (year movie <=? 2015)%Z
  else if bool_decide (eraFilter = "recent") then (2015 <? year movie)%Z
  else true.

Definition filterByEra (movies : list Movie) (eraFilter : string) : list Movie :=
  if bool_decide (eraFilter = "") then movies
  else filter (fun movie => eraMatches eraFilter movie) movies.

Definition orText (v : option string) (dflt : string) : string :=
  if Js.truthyS v then default dflt v else dflt.

(** [genre_filter.sort()]: the default sort, by code units. *)
Definition sortStrings (l : list string) : list string :=
  Js.sortBy (fun a b => String.ltb b a) l.

Definition buildCacheKey (options : Options) : string :=
  let mood := orText (mood options) "any" in
  let genres :=
    match genre_filter options with
    | Some gf => String.concat "," (sortStrings gf)
    | None => "any"
    end in
  let era := orText (era_filter options) "any" in
  mood +:+ "_" +:+ genres +:+ "_" +:+ era.

Record Recommendation := mkRecommendation {
  movie : Movie;
  match_score : Q;
  reasoning : string
}.

(** Rebuild recommendations with full movie data, as [checkCache] and
    [generateRecommendations] both do: select the rows whose id is listed,
    look each entry up, and drop the entries without a row. *)
Definition rebuild (db : DB) (entries : list Scored) : list Recommendation :=
  let movieIds := filter (fun i => i <> "") (map s_imdb_id entries) in
  let selected := filter (fun m : Movie => imdb_id m ∈ movieIds) (movies db) in
  omap (fun rec =>
          match find (fun m => bool_decide (imdb_id m = s_imdb_id rec)) selected with
          | Some m => Some (mkRecommendation m (s_match_score rec) (s_reasoning rec))
          | None => None
          end) entries.

Record Cached := mkCached {
  c_recommendations : list Recommendation;
  c_confidence_score : Q
}.

Definition checkCache (db : DB) (cacheKey : string) (now : Z) : option Cached :=
  let valid :=
    filter (fun row => context row = cacheKey /\ (now < expires_at row)%Z)
           (recommendations db) in
  let newest :=
    foldl (fun best row =>
             match best with
             | None => Some row
             | Some b => if (created_at b <? created_at row)%Z then Some row else Some b
             end) None valid in
  match newest with
  | None => None
  | Some result =>
      let recommendations := recommended_movie_ids result in
      let movieIds := filter (fun i => i <> "") (map s_imdb_id recommendations) in
      if bool_decide (length movieIds = 0%nat)
      then Some (mkCached [] (or0 (confidence_score result)))
      else Some (mkCached (rebuild db recommendations) (or0 (confidence_score result)))
  end.

(** [saveToCache]: the INSERT either throws or appends a row. *)
Definition saveToCache (db : DB) (env : Env) (cacheKey : string)
    (recommendations : list Scored) (confidenceScore : Q) : Js.Outcome DB :=
  if cacheWriteFails env then Js.Thrown "D1_ERROR"
  else Js.Returned
         (mkDB (movies db) (taste_profile db)
            (ApiRecommendations.recommendations db ++
               [mkCacheRow cacheKey recommendations (Some confidenceScore) (now env)
                  (now env + CACHE_DURATION_HOURS * 60 * 60 * 1000)%Z])).

Definition calculateFallbackScore (movie : Movie) (profile : TasteProfile) : Q :=
  let score := 0 in
  let factors := 0%nat in
  (* Genre matching *)
  let '(score, factors) :=
    match genres movie with
    | Some movieGenres =>
        if (0 <? size (p_genres profile))%nat then
          let genreScores :=
            List.filter (fun s => Js.Qltb 0 s)
              (map (fun g => or0 (p_genres profile !! g)) movieGenres) in
          if (0 <? length genreScores)%nat then
            (score + foldl (fun sum s => sum + s) 0 genreScores
                     / inject_Z (Z.of_nat (length genreScores)), S factors)
          else (score, factors)
        else (score, factors)
    | None => (score, factors)
    end in
  (* Use the rating as tiebreaker *)
  let '(score, factors) :=
    if Js.truthyQ (tmdb_rating movie)
    then (score + or0 (tmdb_rating movie) / 10, S factors)
    else (score, factors) in
  if (0 <? factors)%nat then score / inject_Z (Z.of_nat factors) else 1 # 2.

(** The validation filter of [generateWithAI]. *)
Definition validated (recommendations : list RecEntry) : list Scored :=
  omap (fun rec =>
          match rec with
          | RecObject (Some i) (Some s) (Some r) =>
              if bool_decide (i = "") || bool_decide (r = "") then None
              else Some (mkScored i s r)
          | _ => None
          end) recommendations.

(** [generateWithAI]: its result, and the [candidates] array, which it sorts
    in place by rating before it calls the oracle. *)
Definition generateWithAI (candidates : list Movie) (reply : AiReply)
    : Js.Outcome (list Scored) * list Movie :=
  let topCandidates :=
    Js.sortBy (fun a b => Js.Qltb (or0 (tmdb_rating a)) (or0 (tmdb_rating b))) candidates in
  (match reply with
   | AiThrows => Js.Thrown "AI request failed"
   | AiInvalid => Js.Thrown "Invalid AI response"
   | AiArray recommendations =>
       if bool_decide (length recommendations = 0%nat)
       then Js.Thrown "Invalid AI response structure"
       else if existsb isNull recommendations
       then Js.Thrown "TypeError: Cannot read properties of null (reading 'imdb_id')"
       else
         let validated := validated recommendations in
         if bool_decide (length validated = 0%nat)
         then Js.Thrown "No valid recommendations in AI response"
         else Js.Returned validated
   end, topCandidates).

Definition generateFallback (candidates : list Movie) (profile : TasteProfile)
    (count : Z) : list Scored :=
  let scored :=
    map (fun movie =>
           mkScored (imdb_id movie) (calculateFallbackScore movie profile)
             "Recommended based on genre preferences and ratings") candidates in
  Js.sliceTo count
    (Js.sortBy (fun a b => Js.Qltb (s_match_score a) (s_match_score b)) scored).

Record Result := mkResult {
  error : option string;
  res_recommendations : list Recommendation;
  profile_confidence : Q;
  cached : bool
}.

(** [Math.min(options.count || DEFAULT_COUNT, MAX_COUNT)] *)
Definition effectiveCount (options : Options) : Z :=
  Z.min (if Js.truthyZ (count options) then default DEFAULT_COUNT (count options)
         else DEFAULT_COUNT) MAX_COUNT.

Definition generateRecommendations (db : DB) (env : Env) (options : Options)
    : Js.Outcome Result * DB :=
  let count := effectiveCount options in
  (* Load taste profile *)
  match loadTasteProfile db with
  | None =>
      (Js.Returned (mkResult (Some "No taste profile found. Calculate one first.")
                      [] 0 false), db)
  | Some profile =>
      (* Check cache first *)
      let cacheKey := buildCacheKey options in
      match checkCache db cacheKey (now env) with
      | Some cached =>
          (Js.Returned (mkResult None (Js.sliceTo count (c_recommendations cached))
                          (p_confidence profile) true), db)
      | None =>
          let allMovies := movies db in
          (* Separate rated vs unrated *)
          let unratedMovies := filter (fun m : Movie => unrated m) allMovies in
          (* Apply filters *)
          let candidates := unratedMovies in
          let candidates :=
            match genre_filter options with
            | Some gf => filterByGenre candidates gf
            | None => candidates
            end in
          let candidates :=
            match era_filter options with
            | Some ef => filterByEra candidates ef
            | None => candidates
            end in
          if bool_decide (length candidates = 0%nat) then
            (Js.Returned (mkResult (Some "No movies match the specified filters")
                            [] (p_confidence profile) false), db)
          else
            (* Generate recommendations using AI (with fallback) *)
            let '(generated, candidates) := generateWithAI candidates (ai env) in
            let aiRecommendations :=
              match generated with
              | Js.Returned recs => recs
              | Js.Thrown _ => generateFallback candidates profile count
              end in
            (* Fetch full movie details for recommended IDs *)
            let movieIds := filter (fun i => i <> "") (map s_imdb_id aiRecommendations) in
            if bool_decide (length movieIds = 0%nat) then
              (Js.Returned (mkResult None [] (p_confidence profile) false), db)
            else
              (* Build final recommendations with full movie data *)
              let recommendations := rebuild db aiRecommendations in
              (* Cache the results *)
              match saveToCache db env cacheKey aiRecommendations (p_confidence profile) with
              | Js.Thrown e => (Js.Thrown e, db)   (* rethrown by the outer catch *)
              | Js.Returned db' =>
                  (Js.Returned (mkResult None recommendations (p_confidence profile) false),
                   db')
              end
      end
  end.

End ApiRecommendations.

(** ** worker/src/tasteProfile.js *)

Module WorkerTasteProfile.
Import WorkerRecommendations.
Local Open Scope Q_scope.

Definition MIN_SAMPLE_SIZE : Z := 20.

(** [m.user_rating], of a rated row. *)
Definition rating (m : Movie) : Z := default 0%Z (user_rating m).

Record Grouped := mkGrouped {
  loved : list Movie;
  liked : list Movie;
  neutral : list Movie;
  disliked : list Movie
}.

Definition groupMoviesByRating (movies : list Movie) : Grouped :=
  mkGrouped
    (filter (fun m => 9 <= rating m)%Z movies)
    (filter (fun m => 7 <= rating m /\ rating m <= 8)%Z movies)
    (filter (fun m => 5 <= rating m /\ rating m <= 6)%Z movies)
    (filter (fun m => 1 <= rating m /\ rating m <= 4)%Z movies).

Definition allTiers (grouped : Grouped) : list Movie :=
  loved grouped ++ liked grouped ++ neutral grouped ++ disliked grouped.

(** [Math.max(...Object.values(scores), 1)] *)
Definition maxScoreOf (scores : gmap string Q) : Q :=
  map_fold (fun _ v acc => Js.Qmax acc v) 1 scores.

Definition normalize (scores : gmap string Q) : gmap string Q :=
  let maxScore := maxScoreOf scores in
  (fun s => Js.toFixed2 (s / maxScore)) <$> scores.

Definition extractGenrePreferences (grouped : Grouped) : gmap string Q :=
  let genreScores :=
    foldl (fun scores movie =>
             match genres movie with
             | None => scores
             | Some gs =>
                 let weight := inject_Z (rating movie) / 10 in
                 foldl (fun scores genre => <[genre := or0 (scores !! genre) + weight]> scores)
                       scores gs
             end) ∅ (allTiers grouped) in
  normalize genreScores.

Definition extractEraPreferences (grouped : Grouped) : gmap string Q :=
  let eraScores :=
    foldl (fun scores movie =>
             if (year movie =? 0)%Z then scores
             else
               let decade := decadeOf (year movie) in
               let weight := inject_Z (rating movie) / 10 in
               <[decade := or0 (scores !! decade) + weight]> scores)
          ∅ (allTiers grouped) in
  normalize eraScores.

Definition runtimeCategory (runtime : Z) : string :=
  if (runtime <? 90)%Z then "short"
  else if (runtime <=? 150)%Z then "medium"
  else "long".

Definition extractRuntimePreference (grouped : Grouped) : string :=
  let zero : gmap string Q := <["short" := 0]> (<["medium" := 0]> (<["long" := 0]> ∅)) in
  (* Analyze high-rated movies only *)
  let '(runtimeScores, runtimeCounts) :=
    foldl (fun '(scores, counts) movie =>
             match runtime_minutes movie with
             | Some runtime =>
                 if (runtime =? 0)%Z then (scores, counts)
                 else
                   let category := runtimeCategory runtime in
                   (<[category := or0 (scores !! category) + inject_Z (rating movie)]> scores,
                    <[category := or0 (counts !! category) + 1]> counts)
             | None => (scores, counts)
             end)
          (zero, zero) (loved grouped ++ liked grouped) in
  (* Find category with highest average rating *)
  fst (foldl (fun '(bestCategory, bestAvg) category =>
                if Qeq_bool (or0 (runtimeCounts !! category)) 0 then (bestCategory, bestAvg)
                else
                  let avg := or0 (runtimeScores !! category) / or0 (runtimeCounts !! category) in
                  if Js.Qltb bestAvg avg then (category, avg) else (bestCategory, bestAvg))
             ("medium", 0) ["short"; "medium"; "long"]).

Definition extractDirectorAffinity (loved : list Movie) : list Director :=
  let '(directorScores, directorCounts) :=
    foldl (fun '(scores, counts) movie =>
             match director movie with
             | Some d =>
                 if bool_decide (d = "") then (scores, counts)
                 else (Js.bump Z.add d (rating movie) scores, Js.bump Z.add d 1%Z counts)
             | None => (scores, counts)
             end)
          ([], []) loved in
  (* Get top 5 directors by count (familiarity) *)
  map (fun '(d, n) =>
         let total := default 0%Z (snd <$> List.find (fun e => bool_decide (fst e = d))
                                                      directorScores) in
         mkDirector d n (Js.toFixed 1 (inject_Z total / inject_Z n)))
      (take 5 (Js.sortBy (fun a b => (snd a <? snd b)%Z) directorCounts)).

(** What the oracle does in the one call of [ai.run] made for the themes: it
    throws (or its array does not parse); its text holds no JSON array; or it
    holds an array of themes. *)
Inductive ThemeReply :=
  | ThemesThrow (message : string)
  | ThemesNoJson
  | ThemesArray (themes : list string).

Record Themes := mkThemes {
  themes : list string;
  t_ai_powered : bool;
  t_error : option string
}.

Definition keywordsOf (movies : list Movie) : list string :=
  flat_map (fun m => default [] (plot_keywords m)) movies.

Definition extractThemesWithAI (reply : ThemeReply) (loved disliked : list Movie) : Themes :=
  let lovedKeywords := take 50 (keywordsOf loved) in
  match reply with
  | ThemesArray ts => mkThemes (take 5 ts) true None
  | ThemesNoJson =>
      (* Fallback: extract most common keywords *)
      mkThemes (take 5 (Js.firstOccurrences lovedKeywords)) false None
  | ThemesThrow message =>
      (* Fallback to keyword frequency *)
      let keywordCounts :=
        foldl (fun counts keyword => Js.bump Z.add keyword 1%Z counts) [] (keywordsOf loved) in
      let topKeywords :=
        take 5 (map fst (Js.sortBy (fun a b => (snd a <? snd b)%Z) keywordCounts)) in
      mkThemes topKeywords false (Some message)
  end.

Definition calculateConfidence (sampleSize : Z) : Q :=
  if (sampleSize <? MIN_SAMPLE_SIZE)%Z then 0
  else if (100 <=? sampleSize)%Z then 1
  else Js.toFixed2 (inject_Z (sampleSize - MIN_SAMPLE_SIZE)
                    / inject_Z (100 - MIN_SAMPLE_SIZE)).

Record Profile := mkProfile {
  genres : gmap string Q;
  eras : gmap string Q;
  profile_themes : list string;
  runtime_preference : string;
  directors : list Director;
  profile_sample_size : Z;
  confidence : Q;
  ai_powered : bool;
  calculated_at : Z;
  ai_error : option string
}.

(** What [calculateTasteProfile] resolves to: the insufficient-data object
    [{ error, sample_size, required }] or the computed profile. *)
Inductive Result :=
  | InsufficientData (error : string) (sample_size : Z) (required : Z)
  | Computed (profile : Profile).

(** [SELECT * FROM movies WHERE user_rating IS NOT NULL ORDER BY user_rating DESC] *)
Definition ratedMoviesOf (db : DB) : list Movie :=
  Js.sortBy (fun a b => (rating a <? rating b)%Z)
    (filter (fun m => is_Some (user_rating m)) (movies db)).

Definition calculateTasteProfile (db : DB) (reply : ThemeReply) (now : Z) : Result * DB :=
  (* Query all rated movies *)
  let ratedMovies := ratedMoviesOf db in
  let n := Z.of_nat (length ratedMovies) in
  (* Check minimum sample size *)
  if (n <? MIN_SAMPLE_SIZE)%Z then
    (InsufficientData
       ("Insufficient data: need at least " +:+ pretty MIN_SAMPLE_SIZE
        +:+ " rated movies, found " +:+ pretty n)
       n MIN_SAMPLE_SIZE, db)
  else
    (* Group movies by rating tiers *)
    let grouped := groupMoviesByRating ratedMovies in
    (* Extract basic patterns *)
    let genres := extractGenrePreferences grouped in
    let eras := extractEraPreferences grouped in
    let runtimePreference := extractRuntimePreference grouped in
    let directors := extractDirectorAffinity (loved grouped) in
    (* Use AI to extract themes *)
    let extracted := extractThemesWithAI reply (loved grouped) (disliked grouped) in
    (* Calculate confidence *)
    let confidence := calculateConfidence n in
    let profile :=
      mkProfile genres eras (themes extracted) runtimePreference directors n confidence
        (t_ai_powered extracted) now (t_error extracted) in
    (* Store in database (clear old entries first) *)
    let rows :=
      [ mkProfileRow "genres" 0 n (Some (MetaScores genres));
        mkProfileRow "eras" 0 n (Some (MetaScores eras));
        mkProfileRow "themes" 0 n (Some (MetaThemes (themes extracted)));
        mkProfileRow "runtime_preference" confidence n
          (Some (MetaRuntime (Some runtimePreference)));
        mkProfileRow "directors" confidence n (Some (MetaDirectors directors)) ] in
    (Computed profile, mkDB (movies db) rows (recommendations db)).

End WorkerTasteProfile.

(** ** api/src/tasteProfile.js *)

Module ApiTasteProfile.
Import ApiRecommendations.
Local Open Scope Q_scope.

Definition MIN_SAMPLE_SIZE : Z := 20.

Definition rating (m : Movie) : Z := default 0%Z (user_rating m).

Record Grouped := mkGrouped {
  loved : list Movie;
  liked : list Movie;
  neutral : list Movie;
  disliked : list Movie
}.

Definition groupByRating (movies : list Movie) : Grouped :=
  mkGrouped
    (filter (fun m => 9 <= rating m)%Z movies)
    (filter (fun m => 7 <= rating m /\ rating m < 9)%Z movies)
    (filter (fun m => 5 <= rating m /\ rating m < 7)%Z movies)
    (filter (fun m => rating m < 5)%Z movies).

(** [Math.max(...values)] and [Math.min(...values)] of a non-empty object. *)
Definition maxOf (values : list Q) : Q :=
  match values with
  | [] => 0
  | v :: vs => foldl Js.Qmax v vs
  end.

Definition minOf (values : list Q) : Q :=
  match values with
  | [] => 0
  | v :: vs => foldl Js.Qmin v vs
  end.

Definition calculateGenrePreferences (ratingGroups : Grouped) : gmap string Q :=
  (* Count genre occurrences weighted by rating *)
  let processMovies (genreWeights : gmap string Q) (movies : list Movie) (weight : Q) :=
    foldl (fun weights movie =>
             match genres movie with
             | None => weights
             | Some gs =>
                 foldl (fun weights genre =>
                          if bool_decide (genre = "") then weights
                          else <[genre := or0 (weights !! genre) + weight]> weights)
                       weights gs
             end) genreWeights movies in
  let genreWeights := processMovies ∅ (loved ratingGroups) 1 in
  let genreWeights := processMovies genreWeights (liked ratingGroups) (6 # 10) in
  let genreWeights := processMovies genreWeights (neutral ratingGroups) (3 # 10) in
  let genreWeights := processMovies genreWeights (disliked ratingGroups) (- (1 # 2)) in
  (* Normalize to 0-1 scale *)
  let values := snd <$> map_to_list genreWeights in
  let maxWeight := maxOf values in
  let minWeight := minOf values in
  let range := maxWeight - minWeight in
  (fun w => if Js.Qltb 0 range then (w - minWeight) / range else 1 # 2) <$> genreWeights.

Definition calculateEraPreferences (movies : list Movie) : gmap string Q :=
  let '(eraCounts, eraWeights) :=
    foldl (fun '(counts, weights) movie =>
             if (year movie =? 0)%Z then (counts, weights)
             else
               let eraLabel := pretty (year movie / 10 * 10)%Z +:+ "s" in
               (<[eraLabel := or0 (counts !! eraLabel) + 1]> counts,
                <[eraLabel := or0 (weights !! eraLabel) + inject_Z (rating movie) / 10]> weights))
          (∅ : gmap string Q, ∅ : gmap string Q) movies in
  (* Normalize by average rating per era *)
  map_imap (fun era w => Some (w / or0 (eraCounts !! era))) eraWeights.

Definition calculateRuntimePreference (ratingGroups : Grouped) : string :=
  let highRated := loved ratingGroups ++ liked ratingGroups in
  let '(short, medium, long) :=
    foldl (fun '(short, medium, long) movie =>
             match runtime_minutes movie with
             | Some runtime =>
                 if (runtime =? 0)%Z then (short, medium, long)
                 else if (runtime <? 90)%Z then (short + 1, medium, long)%Z
                 else if (runtime <=? 150)%Z then (short, medium + 1, long)%Z
                 else (short, medium, long + 1)%Z
             | None => (short, medium, long)
             end) (0, 0, 0)%Z highRated in
  let max := Z.max short (Z.max medium long) in
  if (medium =? max)%Z then "medium"
  else if (long =? max)%Z then "long"
  else "short".

Definition extractTopDirectors (lovedMovies : list Movie) : list string :=
  let directorCounts :=
    foldl (fun counts movie =>
             match director movie with
             | Some d =>
                 if bool_decide (d = "") || bool_decide (d = "Unknown") then counts
                 else
                   (* Handle multiple directors separated by comma *)
                   foldl (fun counts director => Js.bump Z.add director 1%Z counts)
                         counts (map Js.trim (Js.splitComma d))
             | None => counts
             end) [] lovedMovies in
  (* Sort by count and take top 5 *)
  map fst (take 5 (Js.sortBy (fun a b => (snd a <? snd b)%Z) directorCounts)).

(** What the oracle does in the one call of [ai.run] made for the themes: it
    throws, or it answers with a text ([response.response || '']). *)
Inductive ThemeReply :=
  | ThemesThrow
  | ThemesText (text : string).

Definition topKeywordsOf (keywords : list string) (n : nat) : list string :=
  let keywordCounts :=
    foldl (fun counts kw => Js.bump Z.add kw 1%Z counts) [] keywords in
  map fst (take n (Js.sortBy (fun a b => (snd a <? snd b)%Z) keywordCounts)).

Definition analyzeThemes (lovedMovies : list Movie) (reply : ThemeReply) : list string :=
  (* Collect all plot keywords from loved movies *)
  let allKeywords := flat_map (fun m => default [] (plot_keywords m)) lovedMovies in
  if bool_decide (length allKeywords = 0%nat) then []
  else
    (* Get most common keywords (top 30) *)
    let topKeywords := topKeywordsOf allKeywords 30 in
    match reply with
    | ThemesText themesText =>
        (* Parse comma-separated themes *)
        let themes :=
          take 5 (filter (fun t => t <> "")
                    (map (fun t => Js.toLowerCase (Js.trim t)) (Js.splitComma themesText))) in
        if (0 <? length themes)%nat then themes else take 5 topKeywords
    | ThemesThrow =>
        (* Fallback: return top keywords *)
        topKeywordsOf allKeywords 5
    end.

Definition calculateConfidence (sampleSize : Z) (genrePreferences : gmap string Q) : Q :=
  (* Base confidence from sample size *)
  let confidence := Js.Qmin (inject_Z sampleSize / 100) 1 in
  (* Reduce confidence if genre distribution is very uniform (low variance) *)
  let values := snd <$> map_to_list genrePreferences in
  let confidence :=
    if (0 <? length values)%nat then
      let count := inject_Z (Z.of_nat (length values)) in
      let mean := foldl (fun sum v => sum + v) 0 values / count in
      let variance := foldl (fun sum v => sum + (v - mean) * (v - mean)) 0 values / count in
      if Js.Qltb variance (5 # 100) then confidence * (7 # 10) else confidence
    else confidence in
  inject_Z (Qfloor (confidence * 100 + (1 # 2))) / 100.

Record Profile := mkProfile {
  genres : gmap string Q;
  eras : gmap string Q;
  themes : list string;
  runtime_preference : string;
  directors : list string;
  profile_sample_size : Z;
  confidence : Q
}.

Definition storeTasteProfile (db : DB) (profile : Profile) : DB :=
  let n := profile_sample_size profile in
  let rows :=
    map (fun '(genre, score) => mkProfileRow "genre" genre n (Some (mkMetadata (Some score) None)))
        (map_to_list (genres profile))
    ++ map (fun '(era, score) => mkProfileRow "era" era n (Some (mkMetadata (Some score) None)))
           (map_to_list (eras profile))
    ++ map (fun theme => mkProfileRow "theme" theme n (Some (mkMetadata None None)))
           (themes profile)
    ++ [mkProfileRow "runtime_preference" (runtime_preference profile) n
          (Some (mkMetadata None (Some (confidence profile))))]
    ++ map (fun d => mkProfileRow "director" d n (Some (mkMetadata None None)))
           (directors profile) in
  mkDB (movies db) rows (recommendations db).

Inductive Result :=
  | InsufficientData (error : string) (sample_size : Z) (required : Z)
  | Computed (profile : Profile).

(** [SELECT ... FROM movies WHERE user_rating IS NOT NULL ORDER BY user_rating DESC] *)
Definition ratedMoviesOf (db : DB) : list Movie :=
  Js.sortBy (fun a b => (rating a <? rating b)%Z)
    (filter (fun m => is_Some (user_rating m)) (movies db)).

Definition calculateTasteProfile (db : DB) (reply : ThemeReply) : Result * DB :=
  (* Query all rated movies *)
  let movies := ratedMoviesOf db in
  let n := Z.of_nat (length movies) in
  (* Check minimum sample size *)
  if (n <? MIN_SAMPLE_SIZE)%Z then
    (InsufficientData "Insufficient data for taste profile calculation" n MIN_SAMPLE_SIZE, db)
  else
    (* Group movies by rating tier *)
    let ratingGroups := groupByRating movies in
    (* Calculate all profile dimensions *)
    let genres := calculateGenrePreferences ratingGroups in
    let eras := calculateEraPreferences movies in
    let runtime_preference := calculateRuntimePreference ratingGroups in
    let directors := extractTopDirectors (loved ratingGroups) in
    let themes := analyzeThemes (loved ratingGroups) reply in
    (* Calculate confidence score *)
    let confidence := calculateConfidence n genres in
    let profile := mkProfile genres eras themes runtime_preference directors n confidence in
    (* Store profile in database *)
    (Computed profile, storeTasteProfile db profile).

End ApiTasteProfile.

(* ===================================================================== *)
(** * Vocabulary of the properties, and the scenarios they are tried on *)
(* ===================================================================== *)

(** ** Weighted averages *)

Section ProfileBuilderTerms.
Import FilmAttributes TasteProfileEngine.
Local Open Scope R_scope.

(** The ids of the fixed registry. *)
Definition attributeIds : list string := attr_id <$> FILM_ATTRIBUTES.

(** Sum of [f] over a rating history. *)
Definition sumOver (f : Rating -> R) (ratings : list Rating) : R :=
  foldr (fun r acc => f r + acc) 0 ratings.

(** [itemScore(i, d)]: the score of the rated item on dimension [d]. *)
Definition itemScore (movieMap : gmap string Movie) (d : string) (r : Rating) : R :=
  match movieMap !! movieId r with
  | Some m => getAttributeScore m d
  | None => 0
  end.

(** [weight(i)]: the rating's raw score. *)
Definition weight (r : Rating) : R := IZR (score r).

(** Sums gathered from the contributing ratings only. *)
Definition gatheredSum (movieMap : gmap string Movie) (d : string) (ratings : list Rating) : R :=
  sumOver (fun r => match movieMap !! movieId r with
                    | Some m => getAttributeScore m d * weight r | None => 0 end) ratings.

Definition gatheredWeight (movieMap : gmap string Movie) (ratings : list Rating) : R :=
  sumOver (fun r => match movieMap !! movieId r with
                    | Some _ => weight r | None => 0 end) ratings.

(** The value the final loop stores for dimension [i]. *)
Definition averageOr (dflt : R) (acc : Accumulators) (i : string) : R :=
  match attributeWeights acc !! i, attributeSums acc !! i with
  | Some w, Some s => if bool_decide (0 < w) then s / w else dflt
  | _, _ => dflt
  end.

(** The scenario of the engine's unit test. *)
Definition scenarioRatings : list Rating :=
  [ mkRating "movie-1" "test-user" 5 0; mkRating "movie-3" "test-user" 1 0 ].

(** [a ≈ b] to three decimals, as [toBeCloseTo(b, 3)] checks it. *)
Definition closeTo3 (a b : R) : Prop := Rabs (a - b) < 0.0005.

End ProfileBuilderTerms.

(** ** Cosine similarity *)

Section CosineTerms.
Import FilmAttributes TasteProfileEngine.
Local Open Scope R_scope.

(** [A · B] over the fixed dimensions. *)
Definition dot (a b : gmap string R) : R :=
  foldr (fun d acc => or0 (a !! d) * or0 (b !! d) + acc) 0 attributeIds.

(** [‖A‖] over the fixed dimensions. *)
Definition magnitude (a : gmap string R) : R := sqrt (dot a a).

End CosineTerms.

(** ** Ranking by similarity *)

Section RankingTerms.
Import FilmAttributes TasteProfileEngine.
Local Open Scope R_scope.


(** [strength(item) = mean(|itemScore(d) − 0.5|) / 0.5] over the fixed
    dimensions. *)
Definition strength (item : Movie) : R :=
  (foldr (fun d acc => Rabs (getAttributeScore item d - 0.5) + acc) 0 attributeIds
   / INR (length attributeIds)) / 0.5.

(** The candidates of a ranking call: the movies whose id is not excluded. *)
Definition candidatesOf (allMovies : list Movie) (excludeMovieIds : list string) : list Movie :=
  filter (fun m => movie_id m ∉ excludeMovieIds) allMovies.

End RankingTerms.

(** ** The diversity pass *)

Section DiversityTerms.
Import WorkerRecommendations.
Local Open Scope Z_scope.

(** How many items of a list have [g] as their primary category. *)
Definition hasPrimary (g : string) (rec : Recommendation) : bool :=
  match genres (movie rec) with
  | Some gs => bool_decide (primaryGenre gs = g)
  | None => false
  end.

Definition genreCount (g : string) (l : list Recommendation) : Z :=
  Z.of_nat (length (List.filter (hasPrimary g) l)).

(** The rule of the primary pass, read on the ranked list itself: an item
    that comes after the items [before] is admitted when it has no genres, or
    when fewer than ⌈count/3⌉ of the items before it share its primary
    category. *)
Definition admits (count : Z) (before : list Recommendation) (rec : Recommendation) : bool :=
  match genres (movie rec) with
  | None => true
  | Some gs => genreCount (primaryGenre gs) before <? cap count
  end.

(** The items of [l] that the rule admits, and those it defers, in the order
    of [l], when [l] comes after the items [before]. *)
Fixpoint admittedAfter (count : Z) (before l : list Recommendation) : list Recommendation :=
  match l with
  | [] => []
  | rec :: l' =>
      (if admits count before rec then [rec] else [])
      ++ admittedAfter count (before ++ [rec]) l'
  end.

Fixpoint deferredAfter (count : Z) (before l : list Recommendation) : list Recommendation :=
  match l with
  | [] => []
  | rec :: l' =>
      (if admits count before rec then [] else [rec])
      ++ deferredAfter count (before ++ [rec]) l'
  end.

Definition admitted (count : Z) (ranked : list Recommendation) : list Recommendation :=
  admittedAfter count [] ranked.

Definition deferred (count : Z) (ranked : list Recommendation) : list Recommendation :=
  deferredAfter count [] ranked.

(** No primary category of the list is named like a property that the
    counter object inherits ([constructor], [toString], ...). *)
Definition plainGenres (l : list Recommendation) : Prop :=
  Forall (fun rec => forall gs, genres (movie rec) = Some gs ->
                                primaryGenre gs ∉ Js.OBJECT_PROTOTYPE) l.

(** The counters of the pass after the items [before]: the number of items
    of each category seen so far, up to the cap. *)
Definition countersAfter (count : Z) (before : list Recommendation) (st : Diversity) : Prop :=
  forall g, g ∉ Js.OBJECT_PROTOTYPE ->
            Js.get (genreCounts st) g <> Js.Inherited
            /\ Js.orZero (Js.get (genreCounts st) g) = Z.min (cap count) (genreCount g before).

End DiversityTerms.

(** ** The worker's engine *)

Section WorkerTerms.
Import WorkerRecommendations.
Local Open Scope Z_scope.

(** [options.count], when given, is not negative. *)
Definition countWellFormed (options : Options) : Prop :=
  forall c, count options = Some c -> 0 <= c.

(** The candidates of a call: the unrated rows that pass the filters. *)
Definition qualifying (db : DB) (options : Options) : list Movie :=
  applyFilters (filter (fun m : Movie => unrated m) (movies db)) options.

(** The genre array of the row, if it has one, is not empty and names no
    property that the profile's genre object inherits: the local match score
    of the row is a number (for the array [[]] the genre score is 0/0). *)
Definition scorable (m : Movie) : Prop :=
  forall gs, genres m = Some gs -> gs <> [] /\ Forall (fun g => g ∉ Js.OBJECT_PROTOTYPE) gs.

(** The candidates with their local match scores, as the engine sorts them. *)
Definition localRanking (db : DB) (options : Options) (profile : TasteProfile)
    : list (Movie * Q) :=
  Js.sortBy (fun a b => Js.Qltb (snd a) (snd b))
    (map (fun movie => (movie, calculateBasicMatchScore movie profile))
         (qualifying db options)).

(** The order of a ranking by local match score: the better first. *)
Definition betterFirst (profile : TasteProfile) : relation Movie :=
  fun a b => (calculateBasicMatchScore b profile <= calculateBasicMatchScore a profile)%Q.

(** A row of the worker's [movies] table: a two-hour film of the year 2000. *)
Definition film (i : Z) (t : string) (gs : list string) (rating : option Z) : Movie :=
  mkMovie i ("tt" +:+ pretty i) t 2000 (Some 120) (Some gs) None rating None None.

(** The stored profile of a user who likes action. *)
Definition actionLover : list ProfileRow :=
  [ mkProfileRow "genres" 0 25
      (Some (MetaScores (<["Action" := 9 # 10]> (<["Drama" := 1 # 2]>
                         (<["Comedy" := 1 # 5]> ∅)))));
    mkProfileRow "runtime_preference" (85 # 100) 25 (Some (MetaRuntime (Some "medium"))) ].

(** A catalogue of three action films, one drama and one comedy, none of them
    rated, and no cached list. *)
Definition smallCatalogue : DB :=
  mkDB [ film 1 "A1" ["Action"] None; film 2 "A2" ["Action"] None;
         film 3 "A3" ["Action"] None; film 4 "B1" ["Drama"] None;
         film 5 "C1" ["Comedy"] None ]
       actionLover [].

(** A catalogue of six action films, two dramas and two comedies, none of
    them rated, and no cached list. *)
Definition actionHeavy : DB :=
  mkDB [ film 1 "A1" ["Action"] None; film 2 "A2" ["Action"] None;
         film 3 "A3" ["Action"] None; film 4 "A4" ["Action"] None;
         film 5 "A5" ["Action"] None; film 6 "A6" ["Action"] None;
         film 7 "B1" ["Drama"] None; film 8 "B2" ["Drama"] None;
         film 9 "C1" ["Comedy"] None; film 10 "C2" ["Comedy"] None ]
       actionLover [].

(** A call at time 1000 with the oracle down and a working cache table. *)
Definition oracleDown : Env := mkEnv 1000 AiThrows false.

(** No filters, six recommendations. *)
Definition six : Options := mkOptions None None None (Some 6).

(** The oracle replies from which [rankWithAI] gives the fallback signal or an
    empty ranking: it throws, its text holds no JSON array, the array is empty,
    or the array holds a null. *)
Definition oracleUnusable (reply : AiReply) : bool :=
  match reply with
  | AiThrows | AiNoJson => true
  | AiRankings rankings => existsb isNull rankings || bool_decide (length rankings = 0%nat)
  end.

End WorkerTerms.

(** ** The api's engine *)

Section ApiTerms.
Import ApiRecommendations.
Local Open Scope Z_scope.

(** [options.count], when given, is not negative. *)
Definition apiCountWellFormed (options : Options) : Prop :=
  forall c, count options = Some c -> 0 <= c.

(** The candidates of a call: the unrated rows that pass the filters. *)
Definition apiQualifying (db : DB) (options : Options) : list Movie :=
  let candidates := filter (fun m : Movie => unrated m) (movies db) in
  let candidates :=
    match genre_filter options with
    | Some gf => filterByGenre candidates gf
    | None => candidates
    end in
  match era_filter options with
  | Some ef => filterByEra candidates ef
  | None => candidates
  end.

(** The oracle replies on which [generateWithAI] throws. *)
Definition oracleFails (reply : AiReply) : bool :=
  match fst (generateWithAI [] reply) with
  | Js.Thrown _ => true
  | Js.Returned _ => false
  end.

Definition feature (i : Z) (imdb t : string) (gs : list string) (rating : option Z)
    (tmdb : Q) : Movie :=
  mkMovie i imdb t 2024 None (Some gs) None rating (Some tmdb) None.

Definition sciFiFan : list ProfileRow :=
  [ mkProfileRow "genre" "Sci-Fi" 25 (Some (mkMetadata (Some (9 # 10)) None));
    mkProfileRow "genre" "Action" 25 (Some (mkMetadata (Some (8 # 10)) None));
    mkProfileRow "runtime_preference" "medium" 25
      (Some (mkMetadata None (Some (85 # 100)))) ].

(** The catalogue of the api's own test, with one rated film added. *)
Definition testCatalogue : DB :=
  mkDB [ feature 1 "tt0000001" "Future War" ["Sci-Fi"; "Action"] None (75 # 10);
         feature 2 "tt0000002" "Blast Off" ["Action"] None (68 # 10);
         feature 3 "tt0000003" "Slow Drama" ["Drama"] None (82 # 10);
         feature 4 "tt0000004" "Old Favourite" ["Action"] (Some 9) (90 # 10) ]
       sciFiFan [].

(** The oracle of the api's own test: it recommends the first two films. *)
Definition twoPicks : AiReply :=
  AiArray [ RecObject (Some "tt0000001") (Some (95 # 100)) (Some "Matches your love for Sci-Fi");
            RecObject (Some "tt0000002") (Some (90 # 100))
              (Some "Action-packed like your favorites") ].

Definition one : Options := mkOptions None None None (Some 1).

End ApiTerms.

(** ** Already-rated items *)

Section AlreadyRatedTerms.
Local Open Scope Z_scope.

(** The ids of the rated rows, by the worker's key and by the api's. *)
Definition alreadyRated (movies : list Database.Movie) : list Z :=
  Database.id <$> filter (fun m : Database.Movie => negb (Database.unrated m)) movies.

Definition alreadyRatedImdb (movies : list Database.Movie) : list string :=
  Database.imdb_id <$> filter (fun m : Database.Movie => negb (Database.unrated m)) movies.

(** The user rates the film with row id [i]. *)
Definition rate (i score : Z) (db : WorkerRecommendations.DB) : WorkerRecommendations.DB :=
  WorkerRecommendations.mkDB
    ((fun m => if (Database.id m =? i)
               then Database.mkMovie (Database.id m) (Database.imdb_id m) (Database.title m)
                      (Database.year m) (Database.runtime_minutes m) (Database.genres m)
                      (Database.director m) (Some score) (Database.tmdb_rating m)
                      (Database.plot_keywords m)
               else m) <$> WorkerRecommendations.movies db)
    (WorkerRecommendations.taste_profile db)
    (WorkerRecommendations.recommendations db).

(** The catalogue of the api's test after the first film has been rated too. *)
Definition ratedCatalogue : ApiRecommendations.DB :=
  ApiRecommendations.mkDB
    [ feature 1 "tt0000001" "Future War" ["Sci-Fi"; "Action"] (Some 8) (75 # 10);
      feature 2 "tt0000002" "Blast Off" ["Action"] None (68 # 10);
      feature 3 "tt0000003" "Slow Drama" ["Drama"] None (82 # 10) ]
    sciFiFan [].

End AlreadyRatedTerms.

(** ** The minimum sample size *)

Section MinimumSampleTerms.
Local Open Scope Z_scope.

(** The number of rated rows of the [movies] table. *)
Definition ratedCount (movies : list Database.Movie) : Z :=
  Z.of_nat (length (filter (fun m : Database.Movie => is_Some (Database.user_rating m)) movies)).

(** Ten rated films, as the api's test seeds them. *)
Definition seeded (i : nat) : Database.Movie :=
  Database.mkMovie (Z.of_nat i) ("tt" +:+ pretty i) ("Movie " +:+ pretty i)
    (1990 + Z.of_nat i mod 30) (Some 120)
    (Some (if (Z.of_nat i mod 2 =? 0) then ["Action"; "Sci-Fi"] else ["Drama"]))
    (Some "Director X") (Some (8 + Z.of_nat i mod 3)) None
    (Some ["keyword1"; "keyword2"]).

Definition tenRated : list Database.Movie := seeded <$> seq 0 10.

End MinimumSampleTerms.

(** ** The browser-side engine on valid data *)

Section EngineTerms.
Import FilmAttributes TasteProfileEngine.
Local Open Scope R_scope.

(** The movie passes the checks of the [Movie] constructor: every score it
    carries is in the range 0..1 and belongs to a registered attribute. *)
Definition constructible (m : Movie) : Prop :=
  forall a v, attributes m !! a = Some v -> 0 <= v <= 1 /\ a ∈ attributeIds.

(** The rating refers to a movie of the lookup table. *)
Definition known (movieMap : gmap string Movie) (r : Rating) : bool :=
  bool_decide (is_Some (movieMap !! movieId r)).

(** No rating of the history names a property that a plain lookup object
    inherits, such as [toString]: for such a rating [movieMap[rating.movieId]]
    is a function, [if (!movie)] lets it pass, and the engine throws a
    TypeError at [movie.getAttributeScore] where it skips a missing movie. *)
Definition plainIds (ratings : list Rating) : Prop :=
  Forall (fun r => movieId r ∉ Js.OBJECT_PROTOTYPE) ratings.

(** A candidate with the similarity [findSimilarMovies] gives it. *)
Definition scoreFor (userProfile : Profile) (m : Movie) : Scored :=
  mkScored m (if isProfileNeutral userProfile
              then calculateAttributeStrength (attributes m)
              else calculateCosineSimilarity userProfile (attributes m)).

End EngineTerms.

(** ** The browser's data store *)

Section DataStoreTerms.
Import FilmAttributes DataStore.

(** The store is well formed: one rating per movie at most, each of them of
    the store's own user and with a score from 1 to 5. *)
Definition storeInv (this : UserDataStore) : Prop :=
  NoDup (movieId <$> ratings this)
  /\ Forall (fun r => userId r = store_userId this /\ (1 <= score r <= 5)%Z) (ratings this).

(** The stored item can be read and written. *)
Definition healthy (storage : LocalStorage) : Prop :=
  (forall message, item storage <> Some (Unparsable message))
  /\ quotaExceeded storage = None.

(** The stored ratings of the other users. *)
Definition othersOf (uid : string) (storage : LocalStorage) : list Rating :=
  match item storage with
  | Some (Saved _ rs _) => filter (fun r => userId r <> uid) rs
  | _ => []
  end.

(** The three operations that change the ratings. *)
Inductive Operation :=
  | AddRating (movieId : string) (score : Z)
  | DeleteRating (movieId : string)
  | ClearAllRatings.

Definition perform (op : Operation) (this : UserDataStore) (storage : LocalStorage) (now : Z)
    : Result Rating * UserDataStore * LocalStorage :=
  match op with
  | AddRating movieId score => addRating this storage now movieId score
  | DeleteRating movieId => deleteRating this storage now movieId
  | ClearAllRatings => clearAllRatings this storage now
  end.

(** The common end of the three operations: save, and report the failure of
    the save or the operation's own result. *)
Definition persist (this : UserDataStore) (storage : LocalStorage) (now : Z)
    (ok : Result Rating) : Result Rating * UserDataStore * LocalStorage :=
  let '(saveResult, storage) := save this storage now in
  if negb (success saveResult) then (saveResult, this, storage) else (ok, this, storage).

(** The effect of an operation on the map, and the result it gives when the
    save succeeds; [None] when the operation is refused. *)
Definition effect (op : Operation) (this : UserDataStore) (now : Z)
    : option (list Rating * Result Rating) :=
  match op with
  | AddRating mid s =>
      if bool_decide (s < 1 \/ s > 5)%Z then None
      else if negb (Js.truthy (Js.get MOVIE_MAP mid)) then None
      else let rating := mkRating mid (store_userId this) s now in
           Some (mapSet rating (ratings this), mkResult true (Some rating) None)
  | DeleteRating mid =>
      match mapGet mid (ratings this) with
      | None => None
      | Some _ => Some (mapDelete mid (ratings this), mkResult true None None)
      end
  | ClearAllRatings => Some ([], mkResult true None None)
  end.

(** How many ratings carry the score [k]. *)
Definition countOf (k : Z) (ratingsArray : list Rating) : Z :=
  Z.of_nat (length (filter (fun r => score r = k) ratingsArray)).

(** A store with one rating, a stored item shared with a second user, and a
    stored item that does not parse. *)
Definition alice : UserDataStore := mkStore "alice" [mkRating "movie-3" "alice" 2 100].

Definition sharedStorage : LocalStorage :=
  mkStorage (Some (Saved 1 [mkRating "movie-2" "bob" 4 50; mkRating "movie-3" "alice" 2 100] 100))
            None.

Definition corruptStorage : LocalStorage := mkStorage (Some (Unparsable "Unexpected token")) None.

End DataStoreTerms.

(** ** The trend analysis and the cache *)

Section ExplorationTerms.
Import FilmAttributes.
Local Open Scope R_scope.

(** The weighted average of dimension [d] over the ratings of known movies,
    0 when they carry no weight. *)
Definition periodValue (ratings : list Rating) (d : string) : R :=
  if bool_decide (0 < gatheredWeight MOVIE_MAP ratings)
  then gatheredSum MOVIE_MAP d ratings / gatheredWeight MOVIE_MAP ratings
  else 0.

End ExplorationTerms.

Section CacheTerms.
Import WorkerRecommendations.
Local Open Scope Z_scope.

(** The row that a computed list leaves in the cache table. *)
Definition cacheRowOf (profile : TasteProfile) (env : Env) (options : Options)
    (recs : list Recommendation) (reasoning : string) : CacheRow :=
  mkCacheRow (map (fun r => id (movie r)) recs) reasoning
    (contextOf options (effectiveCount options)) (p_confidence profile)
    (now env) (now env + CACHE_EXPIRY_HOURS * 60 * 60 * 1000).


End CacheTerms.

(** ** The server engines: orders and ranges *)

Section ServerTerms.
Local Open Scope Q_scope.

(** Rounding to hundredths, of a number that is not negative. *)
Definition hundredths (x : Q) : Q := inject_Z (Qfloor (x * 100 + (1 # 2))) / 100.

(** Every score of the map lies in the range 0..1. *)
Definition unitScores (scores : gmap string Q) : Prop :=
  forall k v, scores !! k = Some v -> 0 <= v <= 1.


(** The order of [genre_filter.sort()]: by code units. *)
Definition stringLe (a b : string) : Prop := String.ltb b a = false.

(** Higher scores first: the entries of the api's fallback, and its
    recommendations. *)
Definition rankedEntries : relation ApiRecommendations.Scored :=
  fun a b => ApiRecommendations.s_match_score b <= ApiRecommendations.s_match_score a.

Definition ranked : relation ApiRecommendations.Recommendation :=
  fun a b => ApiRecommendations.match_score b <= ApiRecommendations.match_score a.

(** A stored profile with one genre and one era. *)
Definition likesAction : WorkerRecommendations.TasteProfile :=
  WorkerRecommendations.mkTasteProfile (<["Action" := 9 # 10]> ∅) (<["2000s" := 1 # 2]> ∅)
    [] (Some "medium") [] 25 (85 # 100).

End ServerTerms.

(** ** Binary64 numbers: their order, and the engine's terms *)

Section OrderTerms.
Local Open Scope Z_scope.

(** A key in the lexicographic order of triples of integers. *)
Definition orderKey (x : spec_float) : Z * Z * Z :=
  match x with
  | S754_zero _ => (0, 0, 0)
  | S754_infinity true => (-2, 0, 0)
  | S754_infinity false => (2, 0, 0)
  | S754_nan => (3, 0, 0)
  | S754_finite true m e => (-1, - e, Z.neg m)
  | S754_finite false m e => (1, e, Z.pos m)
  end.

Definition keyLt (a b : Z * Z * Z) : Prop :=
  let '(a1, a2, a3) := a in
  let '(b1, b2, b3) := b in
  a1 < b1 \/ (a1 = b1 /\ (a2 < b2 \/ (a2 = b2 /\ a3 < b3))).

Definition keyLe (a b : Z * Z * Z) : Prop :=
  let '(a1, a2, a3) := a in
  let '(b1, b2, b3) := b in
  a1 < b1 \/ (a1 = b1 /\ (a2 < b2 \/ (a2 = b2 /\ a3 <= b3))).

End OrderTerms.

Section Binary64Terms.
Import FilmAttributes Binary64.
Local Open Scope float_scope.

(** [Σ a(d)·b(d)] and [‖a‖] over the fixed dimensions, added from left to
    right in binary64. *)
Definition dot64 (a b : Profile) : float :=
  foldl (fun sum d => sum + or0 (a !! d) * or0 (b !! d)) 0 attributeIds.

Definition magnitude64 (a : Profile) : float := PrimFloat.sqrt (dot64 a a).

(** The vector with 1 on dimension [d] and 0 elsewhere. *)
Definition unit64 (d : string) : Profile :=
  foldl (fun v a => <[attr_id a := if bool_decide (attr_id a = d) then 1 else 0]> v)
        ∅ FILM_ATTRIBUTES.

(** A vector whose only score is 1e-200, and one whose only score is 1e200. *)
Definition tiny : Profile := {[ "action" := 1e-200 ]}.
Definition huge : Profile := {[ "action" := 1e200 ]}.

(** [|x - y| <= eps] *)
Definition within (eps x y : float) : bool := PrimFloat.abs (x - y) <=? eps.

(** [strength(item) = mean(|itemScore(d) − 0.5|) / 0.5] over the fixed
    dimensions, added from left to right in binary64. *)
Definition strength64 (item : Movie) : float :=
  foldl (fun sum d => sum + PrimFloat.abs (getAttributeScore item d - 0.5)) 0 attributeIds
  / length64 attributeIds / 0.5.

(** The candidates of a ranking call: the movies whose id is not excluded. *)
Definition candidates64 (allMovies : list Movie) (excludeMovieIds : list string) : list Movie :=
  filter (fun m => movie_id m ∉ excludeMovieIds) allMovies.

(** The more similar entry comes first. *)
Definition moreSimilarFirst : relation Scored :=
  fun a b => (similarity b <=? similarity a) = true.

End Binary64Terms.

(* ===================================================================== *)
(** * Properties *)
(* ===================================================================== *)

(** ** Weighted averages (profile builder) *)

Section ProfileBuilder.
Import FilmAttributes TasteProfileEngine.
Local Open Scope R_scope.

Lemma attributeIds_NoDup : NoDup attributeIds.
Proof. compute_done. Qed.

Lemma foldl_add_at_lookup (g : string -> R) (attrs : list FilmAttribute)
    (sums : gmap string R) (d : string) :
  NoDup (attr_id <$> attrs) ->
  d ∈ attr_id <$> attrs ->
  foldl (fun s a => add_at (attr_id a) (g (attr_id a)) s) sums attrs !! d
  = (fun v => v + g d) <$> sums !! d.
Proof.
  revert sums. induction attrs as [|a attrs IH]; intros sums Hnd Hin; simpl in *.
  - by apply elem_of_nil in Hin.
  - apply NoDup_cons in Hnd as [Hna Hnd].
    destruct (decide (d = attr_id a)) as [->|Hne].
    + clear IH Hin.
      assert (Hstay : forall s : gmap string R,
                 foldl (fun s a0 => add_at (attr_id a0) (g (attr_id a0)) s) s attrs !! attr_id a
                 = s !! attr_id a).
      { clear Hnd. induction attrs as [|b attrs IH]; intros s; simpl; [done|].
        rewrite IH by set_solver. unfold add_at. apply lookup_alter_ne. set_solver. }
      rewrite Hstay. unfold add_at. by rewrite lookup_alter_eq.
    + rewrite IH; [|done|set_solver].
      unfold add_at. by rewrite lookup_alter_ne.
Qed.

Lemma foldl_acc_sums (movie : Movie) (w : R) attrs acc :
  attributeSums
    (foldl (fun acc attr =>
              mkAcc (add_at (attr_id attr) (getAttributeScore movie (attr_id attr) * w)
                       (attributeSums acc))
                    (add_at (attr_id attr) w (attributeWeights acc))) acc attrs)
  = foldl (fun s a => add_at (attr_id a) (getAttributeScore movie (attr_id a) * w) s)
      (attributeSums acc) attrs.
Proof. revert acc. induction attrs; intros acc; simpl; [done|]. by rewrite IHattrs. Qed.

Lemma foldl_acc_weights (movie : Movie) (w : R) attrs acc :
  attributeWeights
    (foldl (fun acc attr =>
              mkAcc (add_at (attr_id attr) (getAttributeScore movie (attr_id attr) * w)
                       (attributeSums acc))
                    (add_at (attr_id attr) w (attributeWeights acc))) acc attrs)
  = foldl (fun s a => add_at (attr_id a) w s) (attributeWeights acc) attrs.
Proof. revert acc. induction attrs; intros acc; simpl; [done|]. by rewrite IHattrs. Qed.

(** One rating adds its contribution to both accumulators of dimension [d]. *)
Lemma accumulateRating_lookup movieMap acc r d s0 w0 :
  d ∈ attributeIds ->
  attributeSums acc !! d = Some s0 ->
  attributeWeights acc !! d = Some w0 ->
  let acc' := accumulateRating movieMap acc r in
  attributeSums acc' !! d
    = Some (s0 + match movieMap !! movieId r with
                 | Some m => getAttributeScore m d * weight r | None => 0 end)
  /\ attributeWeights acc' !! d
    = Some (w0 + match movieMap !! movieId r with
                 | Some _ => weight r | None => 0 end).
Proof.
  intros Hd Hs Hw. unfold accumulateRating, weight.
  destruct (movieMap !! movieId r) as [m|]; cbv zeta.
  - rewrite foldl_acc_sums, foldl_acc_weights.
    rewrite (foldl_add_at_lookup (fun i => getAttributeScore m i * IZR (score r)))
      by (exact attributeIds_NoDup || exact Hd).
    rewrite (foldl_add_at_lookup (fun _ => IZR (score r)))
      by (exact attributeIds_NoDup || exact Hd).
    rewrite Hs, Hw. done.
  - rewrite Hs, Hw. split; f_equal; lra.
Qed.

Lemma accumulate_all_lookup movieMap ratings : forall acc d s0 w0,
  d ∈ attributeIds ->
  attributeSums acc !! d = Some s0 ->
  attributeWeights acc !! d = Some w0 ->
  let acc' := foldl (accumulateRating movieMap) acc ratings in
  attributeSums acc' !! d = Some (s0 + gatheredSum movieMap d ratings)
  /\ attributeWeights acc' !! d = Some (w0 + gatheredWeight movieMap ratings).
Proof.
  induction ratings as [|r ratings IH]; intros acc d s0 w0 Hd Hs Hw; simpl.
  - unfold gatheredSum, gatheredWeight; simpl. rewrite Hs, Hw. split; f_equal; lra.
  - destruct (accumulateRating_lookup movieMap acc r d s0 w0 Hd Hs Hw) as [Hs' Hw'].
    destruct (IH _ d _ _ Hd Hs' Hw') as [-> ->].
    unfold gatheredSum, gatheredWeight; simpl. split; f_equal; lra.
Qed.

Lemma foldl_insert_lookup (h : string -> R) attrs (p : gmap string R) (d : string) :
  d ∈ attr_id <$> attrs ->
  foldl (fun p a => <[attr_id a := h (attr_id a)]> p) p attrs !! d = Some (h d).
Proof.
  revert p. induction attrs as [|a attrs IH]; intros p Hin; simpl in *.
  - by apply elem_of_nil in Hin.
  - destruct (decide (d ∈ attr_id <$> attrs)) as [Hd|Hd]; [by apply IH|].
    assert (d = attr_id a) as -> by set_solver.
    assert (Hstay : forall q : gmap string R, q !! attr_id a = Some (h (attr_id a)) ->
              foldl (fun p a0 => <[attr_id a0 := h (attr_id a0)]> p) q attrs !! attr_id a
              = Some (h (attr_id a))).
    { clear. induction attrs as [|b attrs IH]; intros q Hq; simpl; [done|].
      apply IH. destruct (decide (attr_id b = attr_id a)) as [->|Hne].
      - by rewrite lookup_insert_eq.
      - by rewrite lookup_insert_ne. }
    apply Hstay. by rewrite lookup_insert_eq.
Qed.

Lemma foldl_insert_lookup_notin (h : string -> R) attrs (p : gmap string R) (d : string) :
  d ∉ attr_id <$> attrs ->
  foldl (fun p a => <[attr_id a := h (attr_id a)]> p) p attrs !! d = p !! d.
Proof.
  revert p. induction attrs as [|a attrs IH]; intros p Hin; simpl in *; [done|].
  rewrite IH by set_solver. apply lookup_insert_ne. set_solver.
Qed.

Lemma final_loop_eq (dflt : R) acc attrs (p : gmap string R) :
  foldl (fun profile attr =>
           match attributeWeights acc !! attr_id attr, attributeSums acc !! attr_id attr with
           | Some w, Some s =>
               if bool_decide (0 < w) then <[attr_id attr := s / w]> profile
               else <[attr_id attr := dflt]> profile
           | _, _ => <[attr_id attr := dflt]> profile
           end) p attrs
  = foldl (fun p a => <[attr_id a := averageOr dflt acc (attr_id a)]> p) p attrs.
Proof.
  revert p. induction attrs as [|a attrs IH]; intros p; simpl; [done|].
  rewrite <- IH. f_equal. unfold averageOr.
  destruct (attributeWeights acc !! attr_id a), (attributeSums acc !! attr_id a);
    try done. by case_bool_decide.
Qed.

Lemma initAccumulators_lookup d :
  d ∈ attributeIds ->
  attributeSums initAccumulators !! d = Some 0
  /\ attributeWeights initAccumulators !! d = Some 0.
Proof.
  intros Hd. unfold initAccumulators.
  assert (H : forall attrs acc,
    attributeSums (foldl (fun acc attr =>
           mkAcc (<[attr_id attr := 0]> (attributeSums acc))
                 (<[attr_id attr := 0]> (attributeWeights acc))) acc attrs)
      = foldl (fun p a => <[attr_id a := (fun _ => 0) (attr_id a)]> p) (attributeSums acc) attrs
    /\ attributeWeights (foldl (fun acc attr =>
           mkAcc (<[attr_id attr := 0]> (attributeSums acc))
                 (<[attr_id attr := 0]> (attributeWeights acc))) acc attrs)
      = foldl (fun p a => <[attr_id a := (fun _ => 0) (attr_id a)]> p) (attributeWeights acc) attrs).
  { induction attrs as [|a attrs IH]; intros acc; simpl; [done|]. apply IH. }
  destruct (H FILM_ATTRIBUTES (mkAcc ∅ ∅)) as [-> ->].
  split; by apply (foldl_insert_lookup (fun _ => 0)).
Qed.

(** What the engine stores for a registered dimension, in every case. *)
Lemma calculateTasteProfile_lookup ratings movieMap d :
  ratings <> [] ->
  d ∈ attributeIds ->
  calculateTasteProfile ratings movieMap !! d
  = Some (if bool_decide (0 < gatheredWeight movieMap ratings)
          then gatheredSum movieMap d ratings / gatheredWeight movieMap ratings
          else 0.5).
Proof.
  intros Hne Hd. unfold calculateTasteProfile.
  rewrite bool_decide_eq_false_2 by (by destruct ratings).
  rewrite final_loop_eq, (foldl_insert_lookup _ _ _ _ Hd).
  destruct (initAccumulators_lookup d Hd) as [Hs Hw].
  destruct (accumulate_all_lookup movieMap ratings _ d _ _ Hd Hs Hw) as [Hs' Hw'].
  unfold averageOr. rewrite Hs', Hw'. rewrite !Rplus_0_l. done.
Qed.

(** Reading the lookup table: its own keys are no inherited names. *)
Lemma get_Own {A} (obj : gmap string A) key a : obj !! key = Some a -> Js.get obj key = Js.Own a.
Proof. unfold Js.get. by intros ->. Qed.

Lemma get_insert_eq {A} (obj : gmap string A) key a : Js.get (<[key := a]> obj) key = Js.Own a.
Proof. unfold Js.get. by rewrite lookup_insert_eq. Qed.

Lemma get_insert_ne {A} (obj : gmap string A) key key' a :
  key <> key' -> Js.get (<[key := a]> obj) key' = Js.get obj key'.
Proof. intros H. unfold Js.get. by rewrite lookup_insert_ne. Qed.

Lemma get_not_Inherited {A} (obj : gmap string A) key :
  Js.get obj key <> Js.Inherited ->
  Js.get obj key = match obj !! key with Some a => Js.Own a | None => Js.Undefined end.
Proof. unfold Js.get. destruct (obj !! key); [done|]. by case_bool_decide. Qed.

Lemma get_plain {A} (obj : gmap string A) key :
  key ∉ Js.OBJECT_PROTOTYPE -> Js.get obj key <> Js.Inherited.
Proof.
  intros H. unfold Js.get. destruct (obj !! key); [done|]. by rewrite bool_decide_eq_false_2.
Qed.

Lemma get_MOVIE_MAP_Inherited key :
  key ∈ Js.OBJECT_PROTOTYPE -> Js.get MOVIE_MAP key = Js.Inherited.
Proof.
  intros H. unfold Js.OBJECT_PROTOTYPE in H.
  repeat (apply elem_of_cons in H as [->|H]; [reflexivity|]). by apply elem_of_nil in H.
Qed.

(** A loop whose callback does not throw is a fold; a loop stops at the
    first throw. *)
Lemma forEach_Returned {S A} (f : S -> A -> Js.Outcome S) (g : S -> A -> S) (l : list A) :
  forall s, (forall s x, x ∈ l -> f s x = Js.Returned (g s x)) ->
  Js.forEach f l s = Js.Returned (foldl g s l).
Proof.
  unfold Js.forEach. induction l as [|x l IH]; intros s H; [done|].
  cbn [foldl]. rewrite (H s x) by left. apply IH. intros s' y Hy. apply H. by right.
Qed.

Lemma forEach_Thrown {S A} (f : S -> A -> Js.Outcome S) (l : list A) (message : string) :
  forall s,
  (forall s x, f s x = Js.Thrown message \/ exists s', f s x = Js.Returned s') ->
  Exists (fun x => forall s, f s x = Js.Thrown message) l ->
  Js.forEach f l s = Js.Thrown message.
Proof.
  intros s Hf Hex. revert s. unfold Js.forEach.
  assert (Hstay : forall l',
             foldl (fun acc x => match acc with
                                 | Js.Thrown message => Js.Thrown message
                                 | Js.Returned s => f s x
                                 end) (Js.Thrown message) l' = Js.Thrown message).
  { induction l' as [|y l' IH]; [done|]. apply IH. }
  induction Hex as [x l Hx|x l Hex IH]; intros s; cbn [foldl].
  - rewrite Hx. apply Hstay.
  - destruct (Hf s x) as [->|[s' ->]]; [apply Hstay|apply IH].
Qed.

(** The loop of the data store over its ratings: it ends normally, with the
    sums of the engine's loop, unless a rating names an inherited property. *)
Lemma storeSums_Returned ratings acc :
  Forall (fun r => Js.get MOVIE_MAP (movieId r) <> Js.Inherited) ratings ->
  Js.forEach
    (fun acc rating =>
       match Js.get MOVIE_MAP (movieId rating) with
       | Js.Undefined => Js.Returned acc
       | Js.Inherited => Js.Thrown Js.NOT_A_FUNCTION
       | Js.Own movie =>
           let weight := IZR (score rating) in
           Js.Returned
             (foldl (fun acc attr =>
                       let attributeScore := getAttributeScore movie (attr_id attr) in
                       mkAcc (add_at (attr_id attr) (attributeScore * weight)
                                (attributeSums acc))
                             (add_at (attr_id attr) weight (attributeWeights acc)))
                    acc FILM_ATTRIBUTES)
       end)
    ratings acc
  = Js.Returned (foldl (accumulateRating MOVIE_MAP) acc ratings).
Proof.
  intros Hall. apply forEach_Returned. intros s r Hr.
  rewrite (get_not_Inherited _ _ (proj1 (Forall_forall _ _) Hall r Hr)).
  unfold accumulateRating. by destruct (MOVIE_MAP !! movieId r).
Qed.

Lemma storeSums_Thrown ratings acc :
  Exists (fun r => movieId r ∈ Js.OBJECT_PROTOTYPE) ratings ->
  Js.forEach
    (fun acc rating =>
       match Js.get MOVIE_MAP (movieId rating) with
       | Js.Undefined => Js.Returned acc
       | Js.Inherited => Js.Thrown Js.NOT_A_FUNCTION
       | Js.Own movie =>
           let weight := IZR (score rating) in
           Js.Returned
             (foldl (fun acc attr =>
                       let attributeScore := getAttributeScore movie (attr_id attr) in
                       mkAcc (add_at (attr_id attr) (attributeScore * weight)
                                (attributeSums acc))
                             (add_at (attr_id attr) weight (attributeWeights acc)))
                    acc FILM_ATTRIBUTES)
       end)
    ratings acc
  = Js.Thrown Js.NOT_A_FUNCTION.
Proof.
  intros Hex. apply forEach_Thrown.
  - intros s r. destruct (Js.get MOVIE_MAP (movieId r)); [right|left|right]; by eexists.
  - eapply Exists_impl; [exact Hex|]. intros r Hr s. simpl in Hr.
    by rewrite (get_MOVIE_MAP_Inherited _ Hr).
Qed.

Lemma known_not_Inherited (ratings : list Rating) :
  (forall r, r ∈ ratings -> is_Some (MOVIE_MAP !! movieId r)) ->
  Forall (fun r => Js.get MOVIE_MAP (movieId r) <> Js.Inherited) ratings.
Proof.
  intros H. apply Forall_forall. intros r Hr. destruct (H r Hr) as [m Hm].
  by rewrite (get_Own _ _ _ Hm).
Qed.

(** The data store runs the same two loops over its own ratings and the
    global lookup table; only the fallback value differs. *)
Lemma getTasteProfile_lookup (this : DataStore.UserDataStore) d :
  DataStore.ratings this <> [] ->
  Forall (fun r => Js.get MOVIE_MAP (movieId r) <> Js.Inherited) (DataStore.ratings this) ->
  d ∈ attributeIds ->
  exists profile,
    DataStore.getTasteProfile this = DataStore.mkResult true (Some profile) None
    /\ profile !! d
       = Some (if bool_decide (0 < gatheredWeight MOVIE_MAP (DataStore.ratings this))
               then gatheredSum MOVIE_MAP d (DataStore.ratings this)
                    / gatheredWeight MOVIE_MAP (DataStore.ratings this)
               else 0).
Proof.
  intros Hne Hplain Hd. unfold DataStore.getTasteProfile.
  rewrite bool_decide_eq_false_2 by (by destruct (DataStore.ratings this)).
  cbv zeta. rewrite (storeSums_Returned _ _ Hplain).
  eexists; split; [reflexivity|].
  rewrite final_loop_eq, (foldl_insert_lookup _ _ _ _ Hd).
  destruct (initAccumulators_lookup d Hd) as [Hs Hw].
  destruct (accumulate_all_lookup MOVIE_MAP (DataStore.ratings this) _ d _ _ Hd Hs Hw)
    as [Hs' Hw'].
  unfold averageOr. rewrite Hs', Hw'.
  rewrite !Rplus_0_l. done.
Qed.

(** For a history of valid ratings of known items, the gathered sums are the
    sums over the whole history, and the total weight is positive. *)
Lemma gathered_all movieMap d ratings :
  (forall r, r ∈ ratings -> is_Some (movieMap !! movieId r)) ->
  gatheredSum movieMap d ratings = sumOver (fun r => itemScore movieMap d r * weight r) ratings
  /\ gatheredWeight movieMap ratings = sumOver weight ratings.
Proof.
  unfold gatheredSum, gatheredWeight, itemScore.
  induction ratings as [|r ratings IH]; intros Hall; simpl; [done|].
  destruct IH as [-> ->]; [intros; apply Hall; set_solver|].
  destruct (Hall r) as [m ->]; [set_solver|]. done.
Qed.

Lemma sumOver_weight_pos ratings :
  ratings <> [] ->
  (forall r, r ∈ ratings -> (1 <= score r)%Z) ->
  0 < sumOver weight ratings.
Proof.
  intros Hne Hall.
  assert (H : forall l, (forall r, r ∈ l -> (1 <= score r)%Z) -> 0 <= sumOver weight l).
  { induction l as [|r l IH]; intros Hl; simpl; [lra|].
    assert (1 <= weight r) by (apply IZR_le, Hl; set_solver).
    assert (0 <= sumOver weight l) by (apply IH; intros; apply Hl; set_solver). lra. }
  destruct ratings as [|r ratings]; [done|]. simpl.
  assert (1 <= weight r) by (apply IZR_le, Hall; set_solver).
  assert (0 <= sumOver weight ratings) by (apply H; intros; apply Hall; set_solver). lra.
Qed.

(** C1.  For a non-empty history of valid ratings (every rated item is in the
    lookup table, every score is at least 1) each fixed dimension of the
    profile is the rating-weighted average
    [Σ itemScore(i,d)·weight(i) / Σ weight(i)] with [weight(i)] the raw score,
    both in the engine and in the data store; and the history
    [Mad Max 5, Superbad 1] gives action ≈ 0.842 and drama ≈ 0.4. *)
Theorem C1_rating_weighted_average :
  (forall (ratings : list Rating) (movieMap : gmap string Movie) (d : string),
      ratings <> [] ->
      d ∈ attributeIds ->
      (forall r, r ∈ ratings -> is_Some (movieMap !! movieId r)) ->
      (forall r, r ∈ ratings -> (1 <= score r)%Z) ->
      calculateTasteProfile ratings movieMap !! d
      = Some (sumOver (fun r => itemScore movieMap d r * weight r) ratings
              / sumOver weight ratings))
  /\ (forall (this : DataStore.UserDataStore) (d : string),
      DataStore.ratings this <> [] ->
      d ∈ attributeIds ->
      (forall r, r ∈ DataStore.ratings this -> is_Some (MOVIE_MAP !! movieId r)) ->
      (forall r, r ∈ DataStore.ratings this -> (1 <= score r)%Z) ->
      exists profile,
        DataStore.getTasteProfile this = DataStore.mkResult true (Some profile) None
        /\ profile !! d
           = Some (sumOver (fun r => itemScore MOVIE_MAP d r * weight r) (DataStore.ratings this)
                   / sumOver weight (DataStore.ratings this)))
  /\ (exists action drama,
      calculateTasteProfile scenarioRatings MOVIE_MAP !! "action" = Some action
      /\ calculateTasteProfile scenarioRatings MOVIE_MAP !! "drama" = Some drama
      /\ closeTo3 action 0.842 /\ closeTo3 drama 0.4).
Proof.
  split; [|split].
  - intros ratings movieMap d Hne Hd Hfound Hscore.
    rewrite calculateTasteProfile_lookup by done.
    destruct (gathered_all movieMap d ratings Hfound) as [-> ->].
    rewrite bool_decide_eq_true_2 by (by apply sumOver_weight_pos). done.
  - intros this d Hne Hd Hfound Hscore.
    destruct (getTasteProfile_lookup this d Hne (known_not_Inherited _ Hfound) Hd)
      as (profile & Hres & Hp).
    exists profile. split; [done|]. rewrite Hp.
    destruct (gathered_all MOVIE_MAP d _ Hfound) as [-> ->].
    rewrite bool_decide_eq_true_2 by (by apply sumOver_weight_pos). done.
  - eexists _, _. split; [|split].
    + apply calculateTasteProfile_lookup; [done|compute_done].
    + apply calculateTasteProfile_lookup; [done|compute_done].
    + assert (Hw : gatheredWeight MOVIE_MAP scenarioRatings = 6).
      { unfold gatheredWeight, scenarioRatings, weight; simpl.
        replace (MOVIE_MAP !! "movie-1") with (Some (mkMovie "movie-1" "Mad Max: Fury Road" 2015
          (attrs6 0.95 0.4 0.1 0.7 0.5 0.85))) by reflexivity.
        replace (MOVIE_MAP !! "movie-3") with (Some (mkMovie "movie-3" "Superbad" 2007
          (attrs6 0.3 0.4 0.95 0.2 0.7 0.3))) by reflexivity.
        lra. }
      assert (Ha : gatheredSum MOVIE_MAP "action" scenarioRatings = 5.05).
      { unfold gatheredSum, scenarioRatings, weight; simpl.
        replace (MOVIE_MAP !! "movie-1") with (Some (mkMovie "movie-1" "Mad Max: Fury Road" 2015
          (attrs6 0.95 0.4 0.1 0.7 0.5 0.85))) by reflexivity.
        replace (MOVIE_MAP !! "movie-3") with (Some (mkMovie "movie-3" "Superbad" 2007
          (attrs6 0.3 0.4 0.95 0.2 0.7 0.3))) by reflexivity.
        unfold getAttributeScore; simpl.
        replace (attrs6 0.95 0.4 0.1 0.7 0.5 0.85 !! "action") with (Some 0.95) by reflexivity.
        replace (attrs6 0.3 0.4 0.95 0.2 0.7 0.3 !! "action") with (Some 0.3) by reflexivity.
        lra. }
      assert (Hd : gatheredSum MOVIE_MAP "drama" scenarioRatings = 2.4).
      { unfold gatheredSum, scenarioRatings, weight; simpl.
        replace (MOVIE_MAP !! "movie-1") with (Some (mkMovie "movie-1" "Mad Max: Fury Road" 2015
          (attrs6 0.95 0.4 0.1 0.7 0.5 0.85))) by reflexivity.
        replace (MOVIE_MAP !! "movie-3") with (Some (mkMovie "movie-3" "Superbad" 2007
          (attrs6 0.3 0.4 0.95 0.2 0.7 0.3))) by reflexivity.
        unfold getAttributeScore; simpl.
        replace (attrs6 0.95 0.4 0.1 0.7 0.5 0.85 !! "drama") with (Some 0.4) by reflexivity.
        replace (attrs6 0.3 0.4 0.95 0.2 0.7 0.3 !! "drama") with (Some 0.4) by reflexivity.
        lra. }
      rewrite Hw, Ha, Hd.
      rewrite bool_decide_eq_true_2 by lra.
      unfold closeTo3. split; apply Rabs_def1; lra.
Qed.

Lemma C1_witness :
  calculateTasteProfile scenarioRatings MOVIE_MAP !! "action"
  = Some (sumOver (fun r => itemScore MOVIE_MAP "action" r * weight r) scenarioRatings
          / sumOver weight scenarioRatings).
Proof.
  apply (proj1 C1_rating_weighted_average).
  - done.
  - compute_done.
  - intros r Hr. unfold scenarioRatings in Hr.
    repeat (apply elem_of_cons in Hr as [->|Hr]); try (by apply elem_of_nil in Hr);
      eexists; reflexivity.
  - intros r Hr. unfold scenarioRatings in Hr.
    repeat (apply elem_of_cons in Hr as [->|Hr]); try (by apply elem_of_nil in Hr);
      simpl; lia.
Defined.

End ProfileBuilder.

(** ** Empty histories *)

Section EmptyHistory.
Import FilmAttributes TasteProfileEngine.
Local Open Scope R_scope.

Lemma getNeutralProfile_lookup d :
  getNeutralProfile !! d = if bool_decide (d ∈ attributeIds) then Some 0.5 else None.
Proof.
  unfold getNeutralProfile. case_bool_decide as Hd.
  - by rewrite (foldl_insert_lookup (fun _ => 0.5)).
  - by rewrite (foldl_insert_lookup_notin (fun _ => 0.5)).
Qed.

Lemma _getEmptyProfile_lookup d :
  DataStore._getEmptyProfile !! d = if bool_decide (d ∈ attributeIds) then Some 0 else None.
Proof.
  unfold DataStore._getEmptyProfile. case_bool_decide as Hd.
  - by rewrite (foldl_insert_lookup (fun _ => 0)).
  - by rewrite (foldl_insert_lookup_notin (fun _ => 0)).
Qed.

(** C2, as stated, fails: the engine's neutral profile has no [confidence]
    entry at all, and the data store answers an empty history with zeros. *)
Lemma C2_counterexample :
  calculateTasteProfile [] MOVIE_MAP !! "confidence" <> Some 0
  /\ (DataStore.data (DataStore.getTasteProfile (DataStore.mkStore "test-user" []))
        ≫= fun profile => profile !! "action") <> Some 0.5.
Proof.
  split.
  - unfold calculateTasteProfile; simpl. rewrite getNeutralProfile_lookup.
    rewrite bool_decide_eq_false_2 by compute_done. done.
  - unfold DataStore.getTasteProfile; simpl. rewrite _getEmptyProfile_lookup.
    rewrite bool_decide_eq_true_2 by compute_done. intros [=]. lra.
Qed.

(** C2, amended.  For an empty history the engine returns the neutral
    profile, whose entries are exactly the fixed dimensions, each 0.5; the data
    store returns a successful result whose profile has exactly the fixed
    dimensions, each 0.  Neither result carries a confidence entry and neither
    is an error. *)
Theorem C2_empty_history :
  (forall movieMap : gmap string Movie,
      calculateTasteProfile [] movieMap = getNeutralProfile)
  /\ (forall d, getNeutralProfile !! d
                = if bool_decide (d ∈ attributeIds) then Some 0.5 else None)
  /\ (forall uid : string,
      DataStore.getTasteProfile (DataStore.mkStore uid [])
      = DataStore.mkResult true (Some DataStore._getEmptyProfile) None)
  /\ (forall d, DataStore._getEmptyProfile !! d
                = if bool_decide (d ∈ attributeIds) then Some 0 else None).
Proof.
  split; [done|]. split; [apply getNeutralProfile_lookup|].
  split; [done|]. apply _getEmptyProfile_lookup.
Qed.

End EmptyHistory.

(** ** Cosine similarity *)

Section Cosine.
Import FilmAttributes TasteProfileEngine.
Local Open Scope R_scope.

Lemma cosineSums_foldl (a b : gmap string R) attrs : forall x y z,
  foldl (fun '(dotProduct, magnitudeA, magnitudeB) attr =>
           let u := or0 (a !! attr_id attr) in
           let v := or0 (b !! attr_id attr) in
           (dotProduct + u * v, magnitudeA + u * u, magnitudeB + v * v))
        (x, y, z) attrs
  = (x + foldr (fun d acc => or0 (a !! d) * or0 (b !! d) + acc) 0 (attr_id <$> attrs),
     y + foldr (fun d acc => or0 (a !! d) * or0 (a !! d) + acc) 0 (attr_id <$> attrs),
     z + foldr (fun d acc => or0 (b !! d) * or0 (b !! d) + acc) 0 (attr_id <$> attrs)).
Proof.
  induction attrs as [|t attrs IH]; intros x y z; simpl.
  - by rewrite !Rplus_0_r.
  - rewrite IH. by rewrite !Rplus_assoc.
Qed.

Lemma cosineSums_spec a b : cosineSums a b = (dot a b, dot a a, dot b b).
Proof.
  unfold cosineSums. rewrite cosineSums_foldl. unfold dot, attributeIds.
  by rewrite !Rplus_0_l.
Qed.

Lemma calculateCosineSimilarity_spec a b :
  calculateCosineSimilarity a b
  = if bool_decide (magnitude a = 0) || bool_decide (magnitude b = 0) then 0
    else dot a b / (magnitude a * magnitude b).
Proof. unfold calculateCosineSimilarity. by rewrite cosineSums_spec. Qed.

End Cosine.

(** ** Ranking by similarity *)

Section Ranking.
Import FilmAttributes TasteProfileEngine.
Local Open Scope R_scope.

Lemma insertBy_Permutation {A} (after : A -> A -> bool) x l :
  Js.insertBy after x l ≡ₚ x :: l.
Proof.
  induction l as [|y l IH]; simpl; [done|].
  destruct (after x y); [|done]. rewrite IH. apply Permutation_swap.
Qed.

Lemma sortBy_Permutation {A} (after : A -> A -> bool) l : Js.sortBy after l ≡ₚ l.
Proof.
  induction l as [|x l IH]; simpl; [done|].
  by rewrite insertBy_Permutation, IH.
Qed.




Lemma or0_getAttributeScore (m : Movie) d :
  or0 (attributes m !! d) = getAttributeScore m d.
Proof. unfold or0, getAttributeScore. by destruct (attributes m !! d). Qed.

Lemma calculateAttributeStrength_spec (m : Movie) :
  calculateAttributeStrength (attributes m) = strength m.
Proof.
  unfold calculateAttributeStrength, strength, attributeIds.
  cbn [FILM_ATTRIBUTES map fmap list_fmap foldl foldr length attr_id].
  rewrite !or0_getAttributeScore. f_equal. f_equal. lra.
Qed.

Lemma isProfileNeutral_getNeutralProfile : isProfileNeutral getNeutralProfile = true.
Proof.
  unfold isProfileNeutral. cbn [FILM_ATTRIBUTES map attr_id].
  rewrite !getNeutralProfile_lookup.
  rewrite !(bool_decide_eq_true_2 (_ ∈ attributeIds)) by compute_done.
  assert (Hh : orHalf (Some 0.5) = 0.5).
  { unfold orHalf. rewrite bool_decide_eq_false_2 by lra. done. }
  rewrite Hh. cbn [foldl length INR].
  apply andb_true_iff; split; apply bool_decide_eq_true_2.
  - apply Rabs_def1; lra.
  - lra.
Qed.

(** Whatever the profile, a ranking call returns only non-excluded movies of
    the catalogue, at most [topN] of them. *)
Lemma findSimilarMovies_excludes userProfile allMovies topN excludeMovieIds e :
  e ∈ findSimilarMovies userProfile allMovies topN excludeMovieIds ->
  movie e ∈ allMovies /\ movie_id (movie e) ∉ excludeMovieIds.
Proof.
  unfold findSimilarMovies. case_bool_decide; [by intros ?%elem_of_nil|].
  intros He%(subseteq_take topN). rewrite sortBy_Permutation in He.
  apply list_elem_of_fmap in He as (m & -> & Hm). simpl.
  by apply list_elem_of_filter in Hm as [? ?].
Qed.

End Ranking.

(** ** Sorted lists *)

Section SortedBy.
Context {T : Type} (after : T -> T -> bool) (before : relation T).
Context (Hafter : forall x y, after x y = true -> before y x).
Context (Hbefore : forall x y, after x y = false -> before x y).
Context (Htrans : Transitive before).


Lemma insertBy_StronglySorted x l :
  StronglySorted before l -> StronglySorted before (Js.insertBy after x l).
Proof.
  induction 1 as [|y l Hl IH Hy]; simpl; [by repeat constructor|].
  destruct (after x y) eqn:E.
  - constructor; [done|]. apply Forall_forall. intros z Hz.
    rewrite insertBy_Permutation in Hz. apply elem_of_cons in Hz as [->|Hz].
    + by apply Hafter.
    + by apply (proj1 (Forall_forall _ _) Hy).
  - constructor; [by constructor|]. constructor; [by apply Hbefore|].
    eapply Forall_impl; [exact Hy|]. intros z Hz. by trans y; [apply Hbefore|].
Qed.

Lemma sortBy_StronglySorted l : StronglySorted before (Js.sortBy after l).
Proof.
  unfold Js.sortBy. induction l as [|x l IH]; simpl; [constructor|].
  by apply insertBy_StronglySorted.
Qed.

End SortedBy.

Section SortedLists.
Local Open Scope Q_scope.

Lemma StronglySorted_take {T} (before : relation T) n (l : list T) :
  StronglySorted before l -> StronglySorted before (take n l).
Proof.
  intros H. rewrite <- (take_drop n l) in H. by apply StronglySorted_app_1_l in H.
Qed.

Lemma StronglySorted_sliceTo {T} (before : relation T) n (l : list T) :
  StronglySorted before l -> StronglySorted before (Js.sliceTo n l).
Proof. intros H. unfold Js.sliceTo. case_bool_decide; by apply StronglySorted_take. Qed.

Lemma StronglySorted_omap {T U} (before : relation T) (before' : relation U)
    (f : T -> option U) (l : list T) :
  (forall x y x' y', f x = Some x' -> f y = Some y' -> before x y -> before' x' y') ->
  StronglySorted before l -> StronglySorted before' (omap f l).
Proof.
  intros Hf. induction 1 as [|x l Hl IH Hx]; [constructor|].
  cbn [omap list_omap]. destruct (f x) as [x'|] eqn:Ex; [|done].
  constructor; [done|]. apply Forall_forall. intros y' Hy'.
  apply list_elem_of_omap in Hy' as (y & Hy & Ey).
  apply (Hf x y x' y' Ex Ey). by apply (proj1 (Forall_forall _ _) Hx).
Qed.

Lemma Qltb_true a b : Js.Qltb a b = true -> a <= b.
Proof.
  unfold Js.Qltb. intros H. apply negb_true_iff in H.
  apply Qlt_le_weak, Qnot_le_lt. intros Hle. apply Qle_bool_iff in Hle. congruence.
Qed.

Lemma Qltb_false a b : Js.Qltb a b = false -> b <= a.
Proof.
  unfold Js.Qltb. intros H. apply negb_false_iff in H. by apply Qle_bool_iff.
Qed.

End SortedLists.

(** ** The diversity pass (worker) *)

Section Diversity.
Import WorkerRecommendations.
Local Open Scope Z_scope.

Lemma genreCount_app g l1 l2 : genreCount g (l1 ++ l2) = genreCount g l1 + genreCount g l2.
Proof. unfold genreCount. rewrite List.filter_app, length_app. lia. Qed.

Lemma genreCount_snoc g l rec :
  genreCount g (l ++ [rec]) = genreCount g l + (if hasPrimary g rec then 1 else 0).
Proof.
  rewrite genreCount_app. f_equal. unfold genreCount. simpl.
  by destruct (hasPrimary g rec).
Qed.

Lemma fillFromBackup_spec count backup : forall diversified,
  fillFromBackup count diversified backup
  = diversified ++ take (Z.to_nat (count - Z.of_nat (length diversified))) backup.
Proof.
  induction backup as [|b backup IH]; intros diversified; simpl.
  - by rewrite take_nil, app_nil_r.
  - destruct (Z.ltb_spec (Z.of_nat (length diversified)) count) as [Hlt|Hge].
    + rewrite IH, length_app. simpl. rewrite <- app_assoc. f_equal. simpl.
      replace (Z.to_nat (count - Z.of_nat (length diversified)))
        with (S (Z.to_nat (count - Z.of_nat (length diversified + 1)%nat))) by lia.
      done.
    + replace (Z.to_nat (count - Z.of_nat (length diversified))) with 0%nat by lia.
      by rewrite app_nil_r.
Qed.

(** The two lists of the pass together hold the ranked items, each once. *)
Lemma diversity_foldl_Permutation count recs : forall st,
  let st' := foldl (diversityStep count) st recs in
  diversified st' ++ backup st' ≡ₚ (diversified st ++ backup st) ++ recs.
Proof.
  induction recs as [|rec recs IH]; intros st; simpl.
  - by rewrite app_nil_r.
  - rewrite IH. unfold diversityStep.
    destruct (genres (movie rec)); [destruct (Js.get _ _); try destruct (_ || _)|]; simpl;
      rewrite <- !app_assoc; simpl; by rewrite <- !Permutation_middle.
Qed.

Lemma diversify_submseteq count recs : diversify count recs ⊆+ recs.
Proof.
  unfold diversify. rewrite fillFromBackup_spec.
  pose proof (diversity_foldl_Permutation count recs (mkDiversity ∅ [] [])) as H.
  simpl in H. etrans; [|apply Permutation_submseteq, H].
  apply submseteq_app; [done|]. apply sublist_submseteq, sublist_take.
Qed.

Lemma diversify_length count recs : (length (diversify count recs) <= length recs)%nat.
Proof. apply submseteq_length, diversify_submseteq. Qed.

Lemma countersAfter_init count : 0 <= cap count -> countersAfter count [] (mkDiversity ∅ [] []).
Proof.
  intros Hcap g Hg. simpl. unfold Js.get. rewrite lookup_empty, bool_decide_eq_false_2 by done.
  split; [done|]. unfold genreCount. simpl. lia.
Qed.

(** One step of the pass follows the rule, and keeps the counters. *)
Lemma diversityStep_admits count before st rec :
  1 <= cap count ->
  countersAfter count before st ->
  (forall gs, genres (movie rec) = Some gs -> primaryGenre gs ∉ Js.OBJECT_PROTOTYPE) ->
  diversified (diversityStep count st rec)
  = diversified st ++ (if admits count before rec then [rec] else [])
  /\ backup (diversityStep count st rec)
     = backup st ++ (if admits count before rec then [] else [rec])
  /\ countersAfter count (before ++ [rec]) (diversityStep count st rec).
Proof.
  intros Hcap Hinv Hplain. unfold diversityStep, admits.
  destruct (genres (movie rec)) as [gs|] eqn:Hgs.
  - destruct (Hinv (primaryGenre gs) (Hplain gs eq_refl)) as [Hget Hseen]. cbv zeta.
    assert (Hadm : forall seen,
               seen = Z.min (cap count) (genreCount (primaryGenre gs) before) ->
               (seen =? 0) || (seen <? cap count)
               = (genreCount (primaryGenre gs) before <? cap count)).
    { intros seen ->.
      assert (0 <= genreCount (primaryGenre gs) before) by (unfold genreCount; lia).
      destruct (Z.ltb_spec (genreCount (primaryGenre gs) before) (cap count)) as [Hlt|Hge].
      - apply orb_true_iff. right. apply Z.ltb_lt. lia.
      - apply orb_false_iff. split; [apply Z.eqb_neq|apply Z.ltb_ge]; lia. }
    destruct (Js.get (genreCounts st) (primaryGenre gs)) as [n| |] eqn:Eg;
      rewrite ?Eg in Hget, Hseen; [|done|];
      rewrite (Hadm _ Hseen);
      (destruct (Z.ltb_spec (genreCount (primaryGenre gs) before) (cap count)) as [Hlt|Hge];
       simpl; (split; [by rewrite ?app_nil_r|]); (split; [by rewrite ?app_nil_r|]);
       intros g Hg; destruct (Hinv g Hg) as [Hget' Hseen']; cbn [genreCounts];
       rewrite genreCount_snoc; unfold hasPrimary; rewrite Hgs;
       [ destruct (decide (primaryGenre gs = g)) as [<-|Hne];
         [ rewrite get_insert_eq, bool_decide_eq_true_2 by done;
           simpl in *; split; [done|lia]
         | rewrite get_insert_ne, bool_decide_eq_false_2 by done;
           split; [done|]; rewrite Hseen'; lia ]
       | split; [done|]; rewrite Hseen'; case_bool_decide as Heq; [|lia]; subst g;
         simpl in *; lia ]).
  - simpl. split; [done|]. split; [by rewrite app_nil_r|].
    intros g Hg. destruct (Hinv g Hg) as [Hget Hseen]. split; [done|].
    rewrite genreCount_snoc. unfold hasPrimary. rewrite Hgs. simpl in *. rewrite Hseen. lia.
Qed.

Lemma diversity_foldl_admits count l : forall before st,
  1 <= cap count ->
  countersAfter count before st ->
  plainGenres l ->
  diversified (foldl (diversityStep count) st l)
  = diversified st ++ admittedAfter count before l
  /\ backup (foldl (diversityStep count) st l)
     = backup st ++ deferredAfter count before l.
Proof.
  induction l as [|rec l IH]; intros before st Hcap Hinv Hplain; simpl.
  - by rewrite !app_nil_r.
  - apply Forall_cons in Hplain as [Hrec Hl].
    destruct (diversityStep_admits count before st rec Hcap Hinv Hrec) as (Hd & Hb & Hinv').
    destruct (IH (before ++ [rec]) (diversityStep count st rec) Hcap Hinv' Hl) as [-> ->].
    rewrite Hd, Hb, <- !app_assoc. done.
Qed.

(** Each category has, among the admitted items, as many items as the list
    holds of it, up to the cap. *)
Lemma genreCount_admittedAfter count g l : forall before,
  0 <= cap count ->
  genreCount g (admittedAfter count before l)
  = Z.min (cap count) (genreCount g before + genreCount g l)
    - Z.min (cap count) (genreCount g before).
Proof.
  induction l as [|rec l IH]; intros before Hcap; simpl.
  - unfold genreCount at 1 3. simpl. replace (genreCount g before + 0) with (genreCount g before); lia.
  - rewrite genreCount_app, (IH _ Hcap), genreCount_snoc.
    change (rec :: l) with ([rec] ++ l). rewrite (genreCount_app g [rec] l).
    assert (H0 : 0 <= genreCount g before) by (unfold genreCount; lia).
    assert (Hl : 0 <= genreCount g l) by (unfold genreCount; lia).
    assert (Hone : genreCount g [rec] = if hasPrimary g rec then 1 else 0).
    { unfold genreCount. simpl. by destruct (hasPrimary g rec). }
    rewrite Hone. unfold admits, hasPrimary.
    destruct (genres (movie rec)) as [gs|] eqn:Hgs.
    + case_bool_decide as Heq.
      * subst g. destruct (Z.ltb_spec (genreCount (primaryGenre gs) before) (cap count)).
        -- rewrite Hone. unfold hasPrimary. rewrite Hgs, bool_decide_eq_true_2 by done. lia.
        -- unfold genreCount at 1. simpl. lia.
      * destruct (_ <? _).
        -- rewrite Hone. unfold hasPrimary. rewrite Hgs, bool_decide_eq_false_2 by done. lia.
        -- unfold genreCount at 1. simpl. lia.
    + rewrite Hone. unfold hasPrimary. rewrite Hgs. lia.
Qed.

Lemma admittedAfter_sublist count l : forall before,
  admittedAfter count before l `sublist_of` l
  /\ deferredAfter count before l `sublist_of` l
  /\ admittedAfter count before l ++ deferredAfter count before l ≡ₚ l.
Proof.
  induction l as [|rec l IH]; intros before; simpl; [done|].
  destruct (IH (before ++ [rec])) as (Ha & Hd & Hp).
  destruct (admits count before rec); simpl.
  - split; [by apply sublist_skip|]. split; [by apply sublist_cons|]. by rewrite Hp.
  - split; [by apply sublist_cons|]. split; [by apply sublist_skip|].
    by rewrite <- Permutation_middle, Hp.
Qed.

End Diversity.

(** ** The worker's recommendation engine *)

(** Read a result off an equation [(outcome, db) = (Returned r, db')]. *)
Ltac result_of H := injection H as <- <-; simpl.

Section Worker.
Import WorkerRecommendations.
Local Open Scope Z_scope.

Lemma sliceTo_subseteq {A} (n : Z) (l : list A) : Js.sliceTo n l ⊆ l.
Proof. unfold Js.sliceTo. case_bool_decide; apply subseteq_take. Qed.

Lemma sliceTo_length {A} (n : Z) (l : list A) :
  0 <= n -> Z.of_nat (length (Js.sliceTo n l)) <= n.
Proof.
  intros Hn. unfold Js.sliceTo. rewrite bool_decide_eq_false_2 by lia.
  rewrite length_take. lia.
Qed.

Lemma sliceTo_nonempty {A} (n : Z) (l : list A) :
  1 <= n -> l <> [] -> Js.sliceTo n l <> [].
Proof.
  intros Hn Hl. unfold Js.sliceTo. rewrite bool_decide_eq_false_2 by lia.
  destruct l as [|x l]; [done|]. destruct (Z.to_nat n) eqn:E; [lia|done].
Qed.

Lemma length_omap_le {A B} (f : A -> option B) (l : list A) :
  (length (omap f l) <= length l)%nat.
Proof.
  induction l as [|x l IH]; [done|]. cbn [omap list_omap].
  destruct (f x); cbn [length]; lia.
Qed.

Lemma applyFilters_subseteq movies options : applyFilters movies options ⊆ movies.
Proof.
  unfold applyFilters. intros m Hm.
  destruct (Js.truthyS (era_filter options));
    [apply list_elem_of_filter in Hm as [_ Hm]|];
    (destruct (genre_filter options) as [gf|]; [case_bool_decide|]);
    try done; by apply list_elem_of_filter in Hm as [_ Hm].
Qed.

Lemma effectiveCount_bounds options :
  countWellFormed options -> 1 <= effectiveCount options <= MAX_COUNT.
Proof.
  intros Hwf. unfold effectiveCount, MAX_COUNT, DEFAULT_COUNT.
  destruct (count options) as [c|] eqn:Hc; simpl; [|lia].
  specialize (Hwf c Hc). destruct (Z.eqb_spec c 0); simpl; lia.
Qed.

Lemma effectiveCount_le_requested options c :
  count options = Some c -> 1 <= c -> effectiveCount options <= c.
Proof.
  intros Hc Hpos. unfold effectiveCount. rewrite Hc. simpl.
  destruct (Z.eqb_spec c 0); simpl; lia.
Qed.

Lemma qualifying_unrated db options m :
  m ∈ qualifying db options -> m ∈ movies db /\ unrated m = true.
Proof.
  intros Hm%applyFilters_subseteq. apply list_elem_of_filter in Hm as [Hu Hm].
  split; [done|]. by apply Is_true_true.
Qed.

Lemma rankWithAI_candidates reply candidates ranked entry :
  rankWithAI reply candidates = Some ranked ->
  Some entry ∈ ranked -> ar_movie entry ∈ candidates.
Proof.
  unfold rankWithAI. destruct reply as [| |rankings]; try done.
  destruct (existsb isNull rankings && _); [done|]. intros [= <-] Hin.
  apply list_elem_of_fmap in Hin as (r & Hr & _).
  destruct r as [|[t|] reason]; try done.
  destruct (find _ candidates) as [m|] eqn:Hfind; [|done].
  injection Hr as ->. simpl. apply find_some in Hfind as [Hin _].
  by apply list_elem_of_In.
Qed.

(** The shape of a freshly computed result: the diversity pass applied to at
    most [count] ranked items, each an unrated row that passes the filters. *)
Lemma fresh_result_shape db env options r db' :
  generateRecommendations db env options = (Js.Returned r, db') ->
  cached r = Some false ->
  exists recs,
    res_recommendations r = diversify (effectiveCount options) recs
    /\ (0 <= effectiveCount options ->
        Z.of_nat (length recs) <= effectiveCount options)
    /\ Forall (fun rec => movie rec ∈ qualifying db options) recs.
Proof.
  intros Hgen Hc. unfold generateRecommendations in Hgen.
  destruct (loadTasteProfile db) as [profile|]; [|by result_of Hgen].
  destruct (getCachedRecommendations _ _ _); [by result_of Hgen|].
  fold (qualifying db options) in Hgen.
  case_bool_decide as Hempty; [by result_of Hgen|].
  cbv zeta in Hgen.
  set (scored := Js.sortBy _ _) in Hgen.
  assert (Hscored : forall s, s ∈ scored -> fst s ∈ qualifying db options).
  { intros s Hs. unfold scored in Hs. rewrite sortBy_Permutation in Hs.
    apply list_elem_of_fmap in Hs as (m & -> & Hm). done. }
  destruct (rankWithAI _ _) as [[|r0 rs]|] eqn:Hai.
  - injection Hgen as <- <-. eexists; split; [reflexivity|]. split.
    + intros Hn. rewrite length_map. by apply sliceTo_length.
    + apply Forall_forall. intros rec Hrec.
      apply list_elem_of_fmap in Hrec as (s & -> & Hs). simpl.
      apply Hscored. by apply sliceTo_subseteq in Hs.
  - destruct (negb _); [done|]. injection Hgen as <- <-.
    eexists; split; [reflexivity|]. split.
    + intros Hn. rewrite length_imap.
      pose proof (length_omap_le (fun r => r) (Js.sliceTo (effectiveCount options) (r0 :: rs))).
      pose proof (sliceTo_length (effectiveCount options) (r0 :: rs) Hn). lia.
    + apply Forall_forall. intros rec Hrec.
      apply elem_of_lookup_imap in Hrec as (i & e & -> & He). simpl.
      apply list_elem_of_lookup_2 in He.
      apply list_elem_of_omap in He as (oe & Hoe & ->).
      apply sliceTo_subseteq in Hoe.
      pose proof (rankWithAI_candidates _ _ _ _ Hai Hoe) as Hcand.
      apply list_elem_of_fmap in Hcand as (s & -> & Hs).
      apply Hscored. by apply sliceTo_subseteq in Hs.
  - injection Hgen as <- <-. eexists; split; [reflexivity|]. split.
    + intros Hn. rewrite length_map. by apply sliceTo_length.
    + apply Forall_forall. intros rec Hrec.
      apply list_elem_of_fmap in Hrec as (s & -> & Hs). simpl.
      apply Hscored. by apply sliceTo_subseteq in Hs.
Qed.

Lemma cap_pos count : 1 <= count -> 1 <= cap count.
Proof. intros H. unfold cap. apply Z.div_le_lower_bound; lia. Qed.

(** C7, as stated, fails.  Five candidates in three categories qualify and six
    items are requested, so the cap is 2; the pass admits two action films, the
    drama and the comedy, and then appends the deferred third action film
    because the list is still short of six. *)
Lemma C7_counterexample :
  exists r,
    fst (generateRecommendations smallCatalogue oracleDown six) = Js.Returned r
    /\ remove_dups (omap (fun m => primaryGenre <$> genres m) (qualifying smallCatalogue six))
       = ["Action"; "Drama"; "Comedy"]
    /\ cap (effectiveCount six) = 2
    /\ (title ∘ movie) <$> res_recommendations r = ["A1"; "A2"; "B1"; "C1"; "A3"]
    /\ genreCount "Action" (res_recommendations r) = 3.
Proof. eexists. split; [vm_compute; reflexivity|]. repeat split. Qed.

(** An unusable reply gives the fallback signal, or an empty ranking. *)
Lemma rankWithAI_unusable reply cands :
  oracleUnusable reply = true -> cands <> [] ->
  rankWithAI reply cands = None \/ rankWithAI reply cands = Some [].
Proof.
  intros Hai Hcands. unfold rankWithAI, oracleUnusable in *.
  destruct reply as [| |rankings]; auto.
  destruct cands as [|c cands]; [done|]. simpl.
  destruct (existsb isNull rankings); auto. simpl in Hai.
  apply bool_decide_eq_true_1 in Hai. destruct rankings; [auto|done].
Qed.

Lemma localRanking_Permutation db options profile :
  fst <$> localRanking db options profile ≡ₚ qualifying db options.
Proof.
  unfold localRanking. rewrite sortBy_Permutation.
  induction (qualifying db options) as [|m l IH]; [done|]. simpl. by f_equiv.
Qed.

Lemma localRanking_score db options profile s :
  s ∈ localRanking db options profile ->
  snd s = calculateBasicMatchScore (fst s) profile.
Proof.
  unfold localRanking. rewrite sortBy_Permutation.
  by intros (m & -> & _)%list_elem_of_fmap.
Qed.

Lemma localRanking_sorted db options profile :
  StronglySorted (fun a b => (snd b <= snd a)%Q) (localRanking db options profile).
Proof.
  apply sortBy_StronglySorted.
  - intros x y. apply Qltb_true.
  - intros x y. apply Qltb_false.
  - intros x y z Hxy Hyz. by apply (Qle_trans _ (snd y)).
Qed.

(** The head of the local ranking lists its movies the better first. *)
Lemma localRanking_betterFirst db options profile n :
  StronglySorted (betterFirst profile) (fst <$> take n (localRanking db options profile)).
Proof.
  assert (Hs : StronglySorted (fun a b => (snd b <= snd a)%Q)
                 (take n (localRanking db options profile))).
  { apply StronglySorted_take, localRanking_sorted. }
  assert (Hin : forall s, s ∈ take n (localRanking db options profile) ->
                          snd s = calculateBasicMatchScore (fst s) profile).
  { intros s Hs'. apply (localRanking_score db options). by apply subseteq_take in Hs'. }
  induction Hs as [|x l Hl IH Hx]; [constructor|].
  rewrite fmap_cons. constructor.
  - apply IH. intros s Hs'. apply Hin. by right.
  - apply Forall_fmap, Forall_forall. intros y Hy. simpl. unfold betterFirst.
    rewrite <- (Hin x), <- (Hin y) by (by constructor).
    by apply (proj1 (Forall_forall _ _) Hx).
Qed.

(** The list that the diversity pass receives, when the oracle is unusable:
    the best candidates by local score, in that order. *)
Lemma fresh_result_ranking db env options profile r db' :
  countWellFormed options ->
  loadTasteProfile db = Some profile ->
  oracleUnusable (ai env) = true ->
  generateRecommendations db env options = (Js.Returned r, db') ->
  cached r = Some false ->
  exists recs,
    res_recommendations r = diversify (effectiveCount options) recs
    /\ movie <$> recs
       = fst <$> take (Z.to_nat (effectiveCount options)) (localRanking db options profile).
Proof.
  intros Hwf Hprofile Hai Hgen Hc.
  pose proof (effectiveCount_bounds options Hwf) as [Hpos _].
  unfold generateRecommendations in Hgen. rewrite Hprofile in Hgen.
  destruct (getCachedRecommendations _ _ _); [by result_of Hgen|].
  fold (qualifying db options) in Hgen.
  case_bool_decide as Hempty; [by result_of Hgen|].
  cbv zeta in Hgen. unfold localRanking.
  set (scored := Js.sortBy _ _) in *.
  assert (Hscored : scored <> []).
  { intros Hs.
    pose proof (sortBy_Permutation (fun a b : Movie * Q => Js.Qltb (snd a) (snd b))
                  (map (fun movie => (movie, calculateBasicMatchScore movie profile))
                       (qualifying db options))) as Hp.
    fold scored in Hp. rewrite Hs in Hp. apply Permutation_nil_l in Hp.
    symmetry in Hp. apply fmap_nil_inv in Hp. by rewrite Hp in Hempty. }
  assert (Hslice : movie <$> map (fun s => mkRecommendation (fst s) (Js.toFixed2 (snd s))
                                    (Some (generateBasicReasoning (fst s) profile)))
                               (Js.sliceTo (effectiveCount options) scored)
                   = fst <$> take (Z.to_nat (effectiveCount options)) scored).
  { assert (Hmap : forall l : list (Movie * Q),
               movie <$> map (fun s => mkRecommendation (fst s) (Js.toFixed2 (snd s))
                                (Some (generateBasicReasoning (fst s) profile))) l
               = fst <$> l).
    { induction l as [|x l IH]; [done|]. simpl. by f_equal. }
    unfold Js.sliceTo. rewrite bool_decide_eq_false_2 by lia. by rewrite Hmap. }
  destruct (rankWithAI_unusable (ai env)
              (map fst (Js.sliceTo (Z.min 50 (Z.of_nat (length scored))) scored)) Hai)
    as [Hr|Hr].
  - intros Hnil%fmap_nil_inv. apply (sliceTo_nonempty _ scored) in Hnil; [done| |done].
    destruct scored; [done|simpl; lia].
  - rewrite Hr in Hgen. injection Hgen as <- <-. simpl. eexists. split; [reflexivity|].
    exact Hslice.
  - rewrite Hr in Hgen. injection Hgen as <- <-. simpl. eexists. split; [reflexivity|].
    exact Hslice.
Qed.

(** C7, amended.  The diversity pass walks the ranked list in order: an item
    is admitted when it has no genres or when fewer than ⌈count/3⌉ of the
    items ranked before it share its primary category, and is deferred
    otherwise.  The final list is the admitted items, in ranked order, followed
    by the deferred items, in ranked order, as long as the list is shorter
    than [count].  So every primary category contributes to the admitted part
    as many items as it has in the ranked list, up to ⌈count/3⌉, however many
    categories are available; the bound holds for the admitted part, and the
    appended part may exceed it.  On a computed (not cached) result the final
    list is this pass applied to a ranking of qualifying candidates, which
    lists them in descending order of local match score when the oracle is
    unusable and every candidate's score is a number.  (Categories named like
    a built-in property of objects, such as [constructor], are left out.) *)
Theorem C7_diversity_pass :
  (forall count ranked,
      1 <= count ->
      plainGenres ranked ->
      diversify count ranked
      = admitted count ranked
        ++ take (Z.to_nat (count - Z.of_nat (length (admitted count ranked))))
             (deferred count ranked))
  /\ (forall count ranked g,
        1 <= count ->
        genreCount g (admitted count ranked) = Z.min (cap count) (genreCount g ranked))
  /\ (forall count ranked,
        admitted count ranked `sublist_of` ranked
        /\ deferred count ranked `sublist_of` ranked
        /\ admitted count ranked ++ deferred count ranked ≡ₚ ranked)
  /\ (forall db env options r db',
        countWellFormed options ->
        generateRecommendations db env options = (Js.Returned r, db') ->
        cached r = Some false ->
        exists ranked,
          res_recommendations r = diversify (effectiveCount options) ranked
          /\ Forall (fun rec => movie rec ∈ qualifying db options) ranked
          /\ (forall profile,
                loadTasteProfile db = Some profile ->
                oracleUnusable (ai env) = true ->
                Forall scorable (qualifying db options) ->
                StronglySorted (betterFirst profile) (movie <$> ranked))).
Proof.
  split; [|split; [|split]].
  - intros count ranked Hpos Hplain. unfold diversify. rewrite fillFromBackup_spec.
    destruct (diversity_foldl_admits count ranked [] (mkDiversity ∅ [] [])) as [-> ->];
      [by apply cap_pos| |done|done].
    apply countersAfter_init. pose proof (cap_pos count Hpos). lia.
  - intros count ranked g Hpos. unfold admitted.
    rewrite genreCount_admittedAfter by (pose proof (cap_pos count Hpos); lia).
    assert (0 <= genreCount g ranked) by (unfold genreCount; lia).
    pose proof (cap_pos count Hpos).
    replace (genreCount g []) with 0 by done. lia.
  - intros count ranked. apply admittedAfter_sublist.
  - intros db env options r db' Hwf Hgen Hc.
    destruct (oracleUnusable (ai env)) eqn:Hai.
    + destruct (loadTasteProfile db) as [profile|] eqn:Hprofile.
      * destruct (fresh_result_ranking db env options profile r db' Hwf Hprofile Hai Hgen Hc)
          as (recs & Hres & Hrank).
        exists recs. split; [done|]. split.
        -- apply Forall_forall. intros rec Hrec.
           assert (Hin : movie rec ∈ movie <$> recs) by (apply list_elem_of_fmap; eauto).
           rewrite Hrank in Hin. apply list_elem_of_fmap in Hin as (sc & -> & Hsc).
           apply subseteq_take in Hsc. rewrite <- (localRanking_Permutation db options profile).
           apply list_elem_of_fmap. eauto.
        -- intros profile' [= <-] _ _. rewrite Hrank.
           apply localRanking_betterFirst.
      * unfold generateRecommendations in Hgen. rewrite Hprofile in Hgen.
        injection Hgen as <- <-. done.
    + destruct (fresh_result_shape _ _ _ _ _ Hgen Hc) as (recs & Hres & _ & Hall).
      exists recs. split; [done|]. split; [done|]. by intros.
Qed.

Lemma five_ranked_plain :
  plainGenres
    (map (fun m => mkRecommendation m 1 None) (movies smallCatalogue)).
Proof.
  repeat constructor; simpl; intros gs [= <-]; simpl; unfold Js.OBJECT_PROTOTYPE; set_solver.
Qed.

Lemma C7_witness :
  diversify 6 (map (fun m => mkRecommendation m 1 None) (movies smallCatalogue))
  = admitted 6 (map (fun m => mkRecommendation m 1 None) (movies smallCatalogue))
    ++ take (Z.to_nat
               (6 - Z.of_nat
                      (length (admitted 6 (map (fun m => mkRecommendation m 1 None)
                                              (movies smallCatalogue))))))
         (deferred 6 (map (fun m => mkRecommendation m 1 None) (movies smallCatalogue))).
Proof.
  apply (proj1 C7_diversity_pass); [lia|apply five_ranked_plain].
Defined.

(** *** Where the worker keeps its promises *)

(** A computed result lists only unrated rows that pass the filters. *)
Lemma worker_fresh_unrated db env options r db' rec :
  generateRecommendations db env options = (Js.Returned r, db') ->
  cached r = Some false ->
  rec ∈ res_recommendations r ->
  movie rec ∈ movies db /\ unrated (movie rec) = true.
Proof.
  intros Hgen Hc Hrec.
  destruct (fresh_result_shape _ _ _ _ _ Hgen Hc) as (recs & Hres & _ & Hall).
  rewrite Hres in Hrec.
  apply (fun H => elem_of_submseteq _ _ _ H (diversify_submseteq _ recs)) in Hrec.
  rewrite Forall_forall in Hall. by apply qualifying_unrated with options, Hall.
Qed.

(** Every returned list, cached or computed, has at most [count] items, and
    [count] is at most 50. *)
Lemma worker_length_le_count db env options r db' :
  countWellFormed options ->
  generateRecommendations db env options = (Js.Returned r, db') ->
  Z.of_nat (length (res_recommendations r)) <= effectiveCount options <= MAX_COUNT.
Proof.
  intros Hwf Hgen. pose proof (effectiveCount_bounds options Hwf) as [Hpos Hmax].
  split; [|done].
  destruct (cached r) as [[|]|] eqn:Hc.
  - unfold generateRecommendations in Hgen.
    destruct (loadTasteProfile db) as [profile|]; [|by result_of Hgen].
    destruct (getCachedRecommendations _ _ _) as [c|].
    + injection Hgen as <- <-. simpl. rewrite length_imap.
      etrans; [apply inj_le, length_omap_le|]. rewrite length_map.
      apply sliceTo_length. lia.
    + case_bool_decide; [by result_of Hgen|]. cbv zeta in Hgen.
      destruct (rankWithAI _ _) as [[|r0 rs]|]; try destruct (negb _); try done;
        by result_of Hgen.
  - destruct (fresh_result_shape _ _ _ _ _ Hgen Hc) as (recs & -> & Hlen & _).
    pose proof (diversify_length (effectiveCount options) recs). lia.
  - unfold generateRecommendations in Hgen.
    destruct (loadTasteProfile db) as [profile|]; [|result_of Hgen; lia].
    destruct (getCachedRecommendations _ _ _) as [c|]; [by result_of Hgen|].
    case_bool_decide; [result_of Hgen; lia|]. cbv zeta in Hgen.
    destruct (rankWithAI _ _) as [[|r0 rs]|]; try destruct (negb _); try done;
      by result_of Hgen.
Qed.

(** A failed INSERT into the cache table changes nothing in what is returned. *)
Lemma worker_cache_write_best_effort db t reply options :
  fst (generateRecommendations db (mkEnv t reply true) options)
  = fst (generateRecommendations db (mkEnv t reply false) options).
Proof.
  unfold generateRecommendations. simpl.
  destruct (loadTasteProfile db) as [profile|]; [|done].
  destruct (getCachedRecommendations _ _ _) as [c|]; [done|].
  case_bool_decide; [done|].
  destruct (rankWithAI _ _) as [[|r0 rs]|]; try destruct (negb _); done.
Qed.

Lemma diversify_nonempty count recs : 1 <= count -> recs <> [] -> diversify count recs <> [].
Proof.
  intros Hpos Hne. unfold diversify. rewrite fillFromBackup_spec.
  pose proof (diversity_foldl_Permutation count recs (mkDiversity ∅ [] [])) as Hp.
  simpl in Hp. destruct (diversified _) as [|d ds]; [|done]. simpl in *.
  destruct (backup _) as [|b bs].
  - symmetry in Hp. by apply Permutation_nil_r in Hp.
  - replace (Z.to_nat (count - Z.of_nat 0)) with (S (Z.to_nat (count - 1))) by lia. done.
Qed.

(** On such a reply the call still returns a non-empty list, ranked locally. *)
Lemma worker_fallback_on_unusable_oracle db env options profile :
  countWellFormed options ->
  loadTasteProfile db = Some profile ->
  getCachedRecommendations db (contextOf options (effectiveCount options)) (now env) = None ->
  qualifying db options <> [] ->
  oracleUnusable (ai env) = true ->
  exists r db',
    generateRecommendations db env options = (Js.Returned r, db')
    /\ error r = None /\ ai_powered r = Some false /\ res_recommendations r <> [].
Proof.
  intros Hwf Hprofile Hcache Hq Hai.
  pose proof (effectiveCount_bounds options Hwf) as [Hpos _].
  unfold generateRecommendations. rewrite Hprofile, Hcache.
  fold (qualifying db options).
  rewrite bool_decide_eq_false_2 by (by destruct (qualifying db options)).
  cbv zeta. set (scored := Js.sortBy _ _).
  assert (Hscored : scored <> []).
  { intros Hs.
    pose proof (sortBy_Permutation (fun a b : Movie * Q => Js.Qltb (snd a) (snd b))
                  (map (fun movie => (movie, calculateBasicMatchScore movie profile))
                       (qualifying db options))) as Hp.
    fold scored in Hp. rewrite Hs in Hp. apply Permutation_nil_l in Hp.
    symmetry in Hp. apply fmap_nil_inv in Hp. done. }
  assert (Hrank : forall cands, cands <> [] ->
                     rankWithAI (ai env) cands = None
                     \/ rankWithAI (ai env) cands = Some []).
  { intros cands Hcands. unfold rankWithAI, oracleUnusable in *.
    destruct (ai env) as [| |rankings]; auto.
    destruct cands as [|c cands]; [done|]. simpl.
    destruct (existsb isNull rankings); auto. simpl in Hai.
    apply bool_decide_eq_true_1 in Hai. destruct rankings; [auto|done]. }
  destruct (Hrank (map fst (Js.sliceTo (Z.min 50 (Z.of_nat (length scored))) scored)))
    as [-> | ->];
    [intros Hnil%fmap_nil_inv; apply (sliceTo_nonempty _ scored) in Hnil; [done| |done];
     destruct scored; [done|simpl; lia]|..];
    eexists _, _; (split; [reflexivity|]); simpl; repeat split;
    (apply diversify_nonempty; [done|]); intros Hnil%fmap_nil_inv;
    by apply (sliceTo_nonempty (effectiveCount options) scored).
Qed.

Lemma omap_map {A B} (f : A -> option B) (l : list A) :
  omap (fun x => x) (map f l) = omap f l.
Proof.
  induction l as [|x l IH]; [done|]. cbn [map omap list_omap].
  destruct (f x); by rewrite <- IH.
Qed.

Lemma fmap_imap_inverse {A B} (g : B -> A) (l : list A) : forall f : nat -> A -> B,
  (forall i x, g (f i x) = x) -> g <$> imap f l = l.
Proof.
  induction l as [|x l IH]; intros f Hf; [done|].
  rewrite imap_cons, fmap_cons, Hf. f_equal. apply IH. intros i y. apply Hf.
Qed.

(** A cache hit returns the rows of the cached ids, in the cached order, cut
    to [count]; no rating is looked at. *)
Lemma worker_cache_hit db env options profile entry :
  loadTasteProfile db = Some profile ->
  getCachedRecommendations db (contextOf options (effectiveCount options)) (now env)
  = Some entry ->
  exists r,
    generateRecommendations db env options = (Js.Returned r, db)
    /\ cached r = Some true
    /\ movie <$> res_recommendations r
       = omap (fun i => List.find (fun m => (id m =? i)%Z) (movies db))
              (Js.sliceTo (effectiveCount options) (movie_ids entry)).
Proof.
  intros Hprofile Hhit. unfold generateRecommendations. rewrite Hprofile, Hhit.
  eexists. split; [reflexivity|]. split; [reflexivity|]. simpl.
  rewrite omap_map. by apply fmap_imap_inverse.
Qed.

(** *** Where it does not *)

(** C6: the oracle names a film that is not among the candidates.
    [rankWithAI] answers with an array holding a null, the engine takes the
    oracle branch, and reading the null entry throws. *)
Theorem C6_unmatched_title_throws :
  oracleUnusable (AiRankings [RankObject (Some "Unknown Film") (Some "a fine film")]) = false
  /\ rankWithAI (AiRankings [RankObject (Some "Unknown Film") (Some "a fine film")])
       (movies smallCatalogue) = Some [None]
  /\ generateRecommendations smallCatalogue
       (mkEnv 1000 (AiRankings [RankObject (Some "Unknown Film") (Some "a fine film")]) false)
       six
     = (Js.Thrown "TypeError: Cannot read properties of null (reading 'movie')",
        smallCatalogue).
Proof. repeat split. Qed.

(** *** What the diversity pass is given *)

(** When it is given no more than [count] items, the pass returns them all. *)
Lemma diversify_Permutation count recs :
  Z.of_nat (length recs) <= count -> diversify count recs ≡ₚ recs.
Proof.
  intros Hlen. unfold diversify. rewrite fillFromBackup_spec.
  pose proof (diversity_foldl_Permutation count recs (mkDiversity ∅ [] [])) as Hp.
  simpl in Hp. pose proof (Permutation_length Hp) as Hl. rewrite length_app in Hl.
  rewrite take_ge by lia. exact Hp.
Qed.

(** X31.  The worker hands the diversity pass the ranked list already cut to
    [count], so the pass only rearranges it: the final list of a computed
    result holds the items of the ranked list, none dropped and none added.
    With an unusable oracle these are the [count] best candidates by local
    score, whatever their categories: as many as [count] and the number of
    candidates allow, and no candidate left out scores higher than a returned
    one (every candidate's score being a number).  For six recommendations
    from a catalogue of six action films, two dramas and two comedies, ranked
    for a user who likes action, the final list is the six action films,
    although the cap is 2 and two more categories qualify with two films
    each. *)
Theorem X31_diversity_pass_only_rearranges :
  (forall db env options r db',
      countWellFormed options ->
      generateRecommendations db env options = (Js.Returned r, db') ->
      cached r = Some false ->
      exists ranked,
        res_recommendations r = diversify (effectiveCount options) ranked
        /\ Z.of_nat (length ranked) <= effectiveCount options
        /\ res_recommendations r ≡ₚ ranked)
  /\ (forall db env options profile r db',
        countWellFormed options ->
        loadTasteProfile db = Some profile ->
        oracleUnusable (ai env) = true ->
        Forall scorable (qualifying db options) ->
        generateRecommendations db env options = (Js.Returned r, db') ->
        cached r = Some false ->
        length (res_recommendations r)
        = (Z.to_nat (effectiveCount options) `min` length (qualifying db options))%nat
        /\ exists rest,
             (movie <$> res_recommendations r) ++ rest ≡ₚ qualifying db options
             /\ Forall (fun m => Forall (betterFirst profile m) rest)
                  (movie <$> res_recommendations r))
  /\ (exists r,
        fst (generateRecommendations actionHeavy oracleDown six) = Js.Returned r
        /\ (title ∘ movie) <$> res_recommendations r = ["A1"; "A2"; "A3"; "A4"; "A5"; "A6"]
        /\ cap (effectiveCount six) = 2
        /\ genreCount "Action" (res_recommendations r) = 6
        /\ genreCount "Drama" ((fun m => mkRecommendation m 0 None)
                                 <$> qualifying actionHeavy six) = 2
        /\ genreCount "Comedy" ((fun m => mkRecommendation m 0 None)
                                  <$> qualifying actionHeavy six) = 2).
Proof.
  split; [|split].
  - intros db env options r db' Hwf Hgen Hc.
    pose proof (effectiveCount_bounds options Hwf) as [Hpos _].
    destruct (fresh_result_shape _ _ _ _ _ Hgen Hc) as (recs & Hres & Hlen & _).
    exists recs. split; [done|]. split; [lia|].
    rewrite Hres. apply diversify_Permutation. lia.
  - intros db env options profile r db' Hwf Hprofile Hai _ Hgen Hc.
    destruct (fresh_result_ranking db env options profile r db' Hwf Hprofile Hai Hgen Hc)
      as (recs & -> & Hrank).
    set (n := Z.to_nat (effectiveCount options)) in *.
    set (ranking := localRanking db options profile) in *.
    assert (Hperm : diversify (effectiveCount options) recs ≡ₚ recs).
    { apply diversify_Permutation.
      rewrite <- (length_fmap movie), Hrank, length_fmap, length_take.
      pose proof (effectiveCount_bounds options Hwf) as [Hpos _]. lia. }
    split.
    + rewrite (Permutation_length Hperm), <- (length_fmap movie), Hrank.
      rewrite length_fmap, length_take.
      by rewrite <- (Permutation_length (localRanking_Permutation db options profile)),
        length_fmap.
    + exists (fst <$> drop n ranking). rewrite Hperm, Hrank. split.
      * rewrite <- fmap_app, take_drop. apply localRanking_Permutation.
      * apply Forall_forall. intros m Hm. apply Forall_forall. intros m' Hm'.
        apply list_elem_of_fmap in Hm as (s & -> & Hs).
        apply list_elem_of_fmap in Hm' as (s' & -> & Hs').
        unfold betterFirst.
        rewrite <- (localRanking_score db options profile s)
          by (by apply subseteq_take in Hs).
        rewrite <- (localRanking_score db options profile s')
          by (by apply subseteq_drop in Hs').
        pose proof (localRanking_sorted db options profile) as Hsorted.
        fold ranking in Hsorted. rewrite <- (take_drop n ranking) in Hsorted.
        exact (StronglySorted_app_1_elem_of _ _ _ _ _ Hsorted Hs Hs').
  - eexists. split; [vm_compute; reflexivity|]. repeat split.
Qed.

Lemma X31_witness :
  exists r db',
    generateRecommendations smallCatalogue oracleDown six = (Js.Returned r, db')
    /\ exists ranked,
         res_recommendations r = diversify (effectiveCount six) ranked
         /\ Z.of_nat (length ranked) <= effectiveCount six
         /\ res_recommendations r ≡ₚ ranked.
Proof.
  destruct (generateRecommendations smallCatalogue oracleDown six) as [[r|msg] db'] eqn:E.
  - exists r, db'. split; [reflexivity|].
    apply (proj1 X31_diversity_pass_only_rearranges smallCatalogue oracleDown six r db').
    + intros c [= <-]. lia.
    + exact E.
    + vm_compute in E. by injection E as <- <-.
  - vm_compute in E. discriminate E.
Defined.

End Worker.

(** ** The api's recommendation engine *)

Section Api.
Import ApiRecommendations.
Local Open Scope Z_scope.

Lemma api_effectiveCount_bounds options :
  apiCountWellFormed options -> 1 <= effectiveCount options <= MAX_COUNT.
Proof.
  intros Hwf. unfold effectiveCount, MAX_COUNT, DEFAULT_COUNT.
  destruct (count options) as [c|] eqn:Hc; simpl; [|lia].
  specialize (Hwf c Hc). destruct (Z.eqb_spec c 0); simpl; lia.
Qed.

Lemma apiQualifying_unrated db options m :
  m ∈ apiQualifying db options -> m ∈ movies db /\ unrated m = true.
Proof.
  unfold apiQualifying, filterByEra, filterByGenre. intros Hm.
  assert (Hu : m ∈ filter (fun m : Movie => unrated m) (movies db)).
  { destruct (era_filter options) as [ef|];
      [case_bool_decide; [|apply list_elem_of_filter in Hm as [_ Hm]]|];
      (destruct (genre_filter options) as [gf|];
        [case_bool_decide; [|apply list_elem_of_filter in Hm as [_ Hm]]|]); done. }
  apply list_elem_of_filter in Hu as [Hu Hin]. split; [done|]. by apply Is_true_true.
Qed.

Lemma generateWithAI_outcome candidates reply :
  fst (generateWithAI candidates reply) = fst (generateWithAI [] reply).
Proof. done. Qed.

Lemma generateWithAI_candidates candidates reply :
  snd (generateWithAI candidates reply) ≡ₚ candidates.
Proof. apply sortBy_Permutation. Qed.

Lemma rebuild_length db entries : (length (rebuild db entries) <= length entries)%nat.
Proof. apply length_omap_le. Qed.

Lemma rebuild_movie db entries rec :
  rec ∈ rebuild db entries ->
  movie rec ∈ movies db /\ exists e, e ∈ entries /\ imdb_id (movie rec) = s_imdb_id e.
Proof.
  unfold rebuild. intros (e & He & Hrec)%list_elem_of_omap.
  destruct (find _ _) as [m|] eqn:Hfind; [|done]. injection Hrec as <-. simpl.
  apply find_some in Hfind as [Hin Heq]. apply list_elem_of_In in Hin.
  apply list_elem_of_filter in Hin as [_ Hin]. apply bool_decide_eq_true_1 in Heq.
  split; [done|]. by exists e.
Qed.

Lemma generateFallback_entry candidates profile count e :
  e ∈ generateFallback candidates profile count ->
  exists c, c ∈ candidates /\ s_imdb_id e = imdb_id c.
Proof.
  unfold generateFallback. intros He%sliceTo_subseteq.
  rewrite sortBy_Permutation in He.
  apply list_elem_of_fmap in He as (c & -> & Hc). by exists c.
Qed.

Lemma generateFallback_length candidates profile count :
  0 <= count -> Z.of_nat (length (generateFallback candidates profile count)) <= count.
Proof. intros H. by apply sliceTo_length. Qed.

Lemma NoDup_fmap_eq {A B} (f : A -> B) (l : list A) x y :
  NoDup (f <$> l) -> x ∈ l -> y ∈ l -> f x = f y -> x = y.
Proof.
  induction l as [|a l IH]; intros Hnd Hx Hy Hf; [by apply elem_of_nil in Hx|].
  rewrite fmap_cons in Hnd. apply NoDup_cons in Hnd as [Ha Hnd].
  apply elem_of_cons in Hx as [->|Hx]; apply elem_of_cons in Hy as [->|Hy]; try done.
  - exfalso. apply Ha. rewrite Hf. by apply list_elem_of_fmap_2.
  - exfalso. apply Ha. rewrite <- Hf. by apply list_elem_of_fmap_2.
  - by apply IH.
Qed.

(** The shape of a result computed without a usable oracle answer. *)
Lemma api_fallback_shape db env options r db' :
  generateRecommendations db env options = (Js.Returned r, db') ->
  cached r = false ->
  oracleFails (ai env) = true ->
  res_recommendations r = []
  \/ exists profile candidates,
       candidates ≡ₚ apiQualifying db options
       /\ res_recommendations r
          = rebuild db (generateFallback candidates profile (effectiveCount options)).
Proof.
  intros Hgen Hc Hai. unfold generateRecommendations in Hgen.
  destruct (loadTasteProfile db) as [profile|]; [|result_of Hgen; by left].
  destruct (checkCache _ _ _); [by result_of Hgen|].
  fold (apiQualifying db options) in Hgen.
  case_bool_decide; [result_of Hgen; by left|].
  unfold oracleFails in Hai.
  rewrite <- (generateWithAI_outcome (apiQualifying db options)) in Hai.
  pose proof (generateWithAI_candidates (apiQualifying db options) (ai env)) as Hperm.
  destruct (generateWithAI _ _) as [generated candidates]. simpl in Hai, Hperm.
  destruct generated as [recs|msg]; [done|].
  case_bool_decide; [result_of Hgen; by left|].
  destruct (saveToCache _ _ _ _ _); [|done]. injection Hgen as <- <-.
  right. by exists profile, candidates.
Qed.

(** *** Where the api keeps its promises *)

(** Without a usable oracle answer, a computed result lists only unrated
    rows, given that [imdb_id] is unique in the table as the schema says. *)
Lemma api_fallback_unrated db env options r db' rec :
  NoDup (imdb_id <$> movies db) ->
  generateRecommendations db env options = (Js.Returned r, db') ->
  cached r = false ->
  oracleFails (ai env) = true ->
  rec ∈ res_recommendations r ->
  movie rec ∈ movies db /\ unrated (movie rec) = true.
Proof.
  intros Hnd Hgen Hc Hai Hrec.
  destruct (api_fallback_shape _ _ _ _ _ Hgen Hc Hai)
    as [Hnil | (profile & candidates & Hperm & Hres)];
    [rewrite Hnil in Hrec; by apply elem_of_nil in Hrec|].
  rewrite Hres in Hrec. apply rebuild_movie in Hrec as (Hin & e & He & Hid).
  split; [done|]. apply generateFallback_entry in He as (c & Hcand & Hc').
  rewrite Hperm in Hcand. apply apiQualifying_unrated in Hcand as [Hcin Hcu].
  assert (movie rec = c) as ->; [|done].
  apply (NoDup_fmap_eq imdb_id (movies db)); [done..|congruence].
Qed.

(** A cached result, and a result computed without a usable oracle answer,
    have at most [count] items, and [count] is at most 50. *)
Lemma api_length_le_count db env options r db' :
  apiCountWellFormed options ->
  generateRecommendations db env options = (Js.Returned r, db') ->
  cached r = true \/ oracleFails (ai env) = true ->
  Z.of_nat (length (res_recommendations r)) <= effectiveCount options <= MAX_COUNT.
Proof.
  intros Hwf Hgen Hcase. pose proof (api_effectiveCount_bounds options Hwf) as [Hpos Hmax].
  split; [|done]. destruct (cached r) eqn:Hc.
  - unfold generateRecommendations in Hgen.
    destruct (loadTasteProfile db) as [profile|]; [|by result_of Hgen].
    destruct (checkCache _ _ _) as [c|].
    + injection Hgen as <- <-. simpl. apply sliceTo_length. lia.
    + case_bool_decide; [by result_of Hgen|].
      destruct (generateWithAI _ _) as [generated candidates].
      case_bool_decide; [by result_of Hgen|].
      destruct (saveToCache _ _ _ _ _); [|done]. by result_of Hgen.
  - destruct Hcase as [|Hai]; [done|].
    destruct (api_fallback_shape _ _ _ _ _ Hgen Hc Hai)
      as [-> | (profile & candidates & _ & ->)]; [simpl; lia|].
    pose proof (rebuild_length db (generateFallback candidates profile (effectiveCount options))).
    pose proof (generateFallback_length candidates profile (effectiveCount options)). lia.
Qed.

(** *** Where it does not *)

(** C8: one recommendation is requested and the oracle lists two; the api
    returns both, since the oracle's list is never cut to [count]. *)
Theorem C8_oracle_list_exceeds_count :
  exists r db',
    generateRecommendations testCatalogue (mkEnv 1000 twoPicks false) one
    = (Js.Returned r, db')
    /\ effectiveCount one = 1
    /\ cached r = false
    /\ (title ∘ movie) <$> res_recommendations r = ["Future War"; "Blast Off"]
    /\ length (res_recommendations r) = 2%nat.
Proof. eexists _, _. split; [vm_compute; reflexivity|]. repeat split. Qed.

(** C10: the INSERT into the cache table fails after the list has been
    computed; [saveToCache] is awaited unguarded, so the failure is rethrown
    and the computed list is lost. *)
Theorem C10_cache_write_failure_throws :
  (exists r db',
      generateRecommendations testCatalogue (mkEnv 1000 AiThrows false)
        (mkOptions None None None None) = (Js.Returned r, db')
      /\ (title ∘ movie) <$> res_recommendations r
         = ["Slow Drama"; "Future War"; "Blast Off"])
  /\ generateRecommendations testCatalogue (mkEnv 1000 AiThrows true)
       (mkOptions None None None None) = (Js.Thrown "D1_ERROR", testCatalogue).
Proof. split; [eexists _, _; split; [vm_compute; reflexivity|reflexivity]|reflexivity]. Qed.

End Api.

(** ** Already-rated items *)

Section AlreadyRated.
Local Open Scope Z_scope.

Lemma unrated_not_alreadyRated {K} (key : Database.Movie -> K) movies m :
  NoDup (key <$> movies) -> m ∈ movies -> Database.unrated m = true ->
  key m ∉ key <$> filter (fun m : Database.Movie => negb (Database.unrated m)) movies.
Proof.
  intros Hnd Hin Hu (m' & Hkey & Hm')%list_elem_of_fmap.
  apply list_elem_of_filter in Hm' as [Hr Hin'].
  assert (m = m') as <- by by apply (NoDup_fmap_eq key movies).
  rewrite Hu in Hr. done.
Qed.

(** C3, as stated, fails on a cache hit.  A first call computes and caches a
    list headed by film 1; the user then rates film 1; a second call with the
    same filters, inside the expiry window, returns the cached list, film 1
    included. *)
Lemma C3_counterexample :
  exists r1 db1 r2 db3,
    WorkerRecommendations.generateRecommendations smallCatalogue
      (WorkerRecommendations.mkEnv 1000 WorkerRecommendations.AiThrows false) six
    = (Js.Returned r1, db1)
    /\ WorkerRecommendations.generateRecommendations (rate 1 9 db1)
         (WorkerRecommendations.mkEnv 2000 WorkerRecommendations.AiThrows false) six
       = (Js.Returned r2, db3)
    /\ WorkerRecommendations.cached r2 = Some true
    /\ alreadyRated (WorkerRecommendations.movies (rate 1 9 db1)) = [1]
    /\ (Database.id ∘ WorkerRecommendations.movie)
         <$> WorkerRecommendations.res_recommendations r2 = [1; 2; 4; 5; 3].
Proof.
  eexists _, _, _, _. split; [vm_compute; reflexivity|].
  split; [vm_compute; reflexivity|]. repeat split.
Qed.

(** C3, amended.  A ranking call of the browser engine never returns an
    excluded id.  A server call that computes its list (no cache hit) returns no
    already-rated item when the list comes from the worker, or from the api
    without a usable oracle answer; row ids are unique, as the schema says.  A
    cache hit of the worker returns the rows of the cached ids, in the cached
    order and cut to [count], whatever their ratings. *)
Theorem C3_no_already_rated_item :
  (forall userProfile allMovies topN excludeMovieIds e,
      e ∈ TasteProfileEngine.findSimilarMovies userProfile allMovies topN excludeMovieIds ->
      FilmAttributes.movie_id (TasteProfileEngine.movie e) ∉ excludeMovieIds)
  /\ (forall db env options r db' rec,
      NoDup (Database.id <$> WorkerRecommendations.movies db) ->
      WorkerRecommendations.generateRecommendations db env options = (Js.Returned r, db') ->
      WorkerRecommendations.cached r = Some false ->
      rec ∈ WorkerRecommendations.res_recommendations r ->
      Database.id (WorkerRecommendations.movie rec)
        ∉ alreadyRated (WorkerRecommendations.movies db))
  /\ (forall db env options r db' rec,
      NoDup (Database.imdb_id <$> ApiRecommendations.movies db) ->
      ApiRecommendations.generateRecommendations db env options = (Js.Returned r, db') ->
      ApiRecommendations.cached r = false ->
      oracleFails (ApiRecommendations.ai env) = true ->
      rec ∈ ApiRecommendations.res_recommendations r ->
      Database.imdb_id (ApiRecommendations.movie rec)
        ∉ alreadyRatedImdb (ApiRecommendations.movies db))
  /\ (forall db env options profile entry,
      WorkerRecommendations.loadTasteProfile db = Some profile ->
      WorkerRecommendations.getCachedRecommendations db
        (WorkerRecommendations.contextOf options
           (WorkerRecommendations.effectiveCount options))
        (WorkerRecommendations.now env) = Some entry ->
      exists r,
        WorkerRecommendations.generateRecommendations db env options = (Js.Returned r, db)
        /\ WorkerRecommendations.cached r = Some true
        /\ WorkerRecommendations.movie <$> WorkerRecommendations.res_recommendations r
           = omap (fun i => List.find (fun m => (Database.id m =? i)%Z)
                                      (WorkerRecommendations.movies db))
                  (Js.sliceTo (WorkerRecommendations.effectiveCount options)
                     (WorkerRecommendations.movie_ids entry))).
Proof.
  split; [|split; [|split]]; [| | |exact worker_cache_hit].
  - intros userProfile allMovies topN excludeMovieIds e He.
    by apply findSimilarMovies_excludes in He as [_ ?].
  - intros db env options r db' rec Hnd Hgen Hc Hrec.
    destruct (worker_fresh_unrated _ _ _ _ _ _ Hgen Hc Hrec) as [Hin Hu].
    by apply unrated_not_alreadyRated.
  - intros db env options r db' rec Hnd Hgen Hc Hai Hrec.
    destruct (api_fallback_unrated _ _ _ _ _ _ Hnd Hgen Hc Hai Hrec) as [Hin Hu].
    by apply unrated_not_alreadyRated.
Qed.

Lemma C3_witness :
  (exists e,
      e ∈ TasteProfileEngine.findSimilarMovies TasteProfileEngine.getNeutralProfile
            (take 1 FilmAttributes.SAMPLE_MOVIES) 5 ["movie-9"]
      /\ FilmAttributes.movie_id (TasteProfileEngine.movie e) ∉ ["movie-9"])
  /\ (exists r db' rec,
      WorkerRecommendations.generateRecommendations
        (rate 1 9 smallCatalogue) oracleDown six = (Js.Returned r, db')
      /\ rec ∈ WorkerRecommendations.res_recommendations r
      /\ Database.id (WorkerRecommendations.movie rec)
           ∉ alreadyRated (WorkerRecommendations.movies (rate 1 9 smallCatalogue)))
  /\ (exists r db' rec,
      ApiRecommendations.generateRecommendations ratedCatalogue
        (ApiRecommendations.mkEnv 1000 ApiRecommendations.AiThrows false)
        (ApiRecommendations.mkOptions None None None None) = (Js.Returned r, db')
      /\ rec ∈ ApiRecommendations.res_recommendations r
      /\ Database.imdb_id (ApiRecommendations.movie rec)
           ∉ alreadyRatedImdb (ApiRecommendations.movies ratedCatalogue)).
Proof.
  split; [|split].
  - assert (Hin : exists e,
               e ∈ TasteProfileEngine.findSimilarMovies TasteProfileEngine.getNeutralProfile
                     (take 1 FilmAttributes.SAMPLE_MOVIES) 5 ["movie-9"]).
    { unfold TasteProfileEngine.findSimilarMovies.
      rewrite isProfileNeutral_getNeutralProfile. simpl.
      eexists. apply list_elem_of_here. }
    destruct Hin as [e He]. exists e. split; [exact He|].
    exact (proj1 C3_no_already_rated_item _ _ _ _ e He).
  - destruct (WorkerRecommendations.generateRecommendations
                (rate 1 9 smallCatalogue) oracleDown six) as [[r|msg] db'] eqn:E;
      [|vm_compute in E; discriminate E].
    pose proof E as E'. vm_compute in E'. injection E' as Hr Hdb.
    destruct (WorkerRecommendations.res_recommendations r) as [|rec recs] eqn:Hrecs;
      [by rewrite <- Hr in Hrecs|].
    exists r, db', rec. split; [reflexivity|]. split; [rewrite Hrecs; apply list_elem_of_here|].
    refine (proj1 (proj2 C3_no_already_rated_item) _ _ _ r db' rec _ E _ _).
    + compute_done.
    + by rewrite <- Hr.
    + rewrite Hrecs. apply list_elem_of_here.
  - destruct (ApiRecommendations.generateRecommendations ratedCatalogue
                (ApiRecommendations.mkEnv 1000 ApiRecommendations.AiThrows false)
                (ApiRecommendations.mkOptions None None None None)) as [[r|msg] db'] eqn:E;
      [|vm_compute in E; discriminate E].
    pose proof E as E'. vm_compute in E'. injection E' as Hr Hdb.
    destruct (ApiRecommendations.res_recommendations r) as [|rec recs] eqn:Hrecs;
      [by rewrite <- Hr in Hrecs|].
    exists r, db', rec. split; [reflexivity|]. split; [rewrite Hrecs; apply list_elem_of_here|].
    refine (proj1 (proj2 (proj2 C3_no_already_rated_item)) _ _ _ r db' rec _ E _ _ _).
    + compute_done.
    + by rewrite <- Hr.
    + reflexivity.
    + rewrite Hrecs. apply list_elem_of_here.
Defined.

End AlreadyRated.

(** ** The minimum sample size *)

Section MinimumSample.
Local Open Scope Z_scope.

Lemma sortBy_length {A} (after : A -> A -> bool) (l : list A) :
  length (Js.sortBy after l) = length l.
Proof. apply Permutation_length, sortBy_Permutation. Qed.

(** C9.  With fewer than 20 rated rows, both profile calculators return the
    insufficient-data result, carrying the number of rated rows and the
    required minimum 20; they compute no profile, throw nothing and leave the
    stored profile untouched. *)
Theorem C9_insufficient_data :
  (forall db reply now,
      ratedCount (WorkerRecommendations.movies db) < 20 ->
      exists error,
        WorkerTasteProfile.calculateTasteProfile db reply now
        = (WorkerTasteProfile.InsufficientData error
             (ratedCount (WorkerRecommendations.movies db)) 20, db))
  /\ (forall db reply,
      ratedCount (ApiRecommendations.movies db) < 20 ->
      exists error,
        ApiTasteProfile.calculateTasteProfile db reply
        = (ApiTasteProfile.InsufficientData error
             (ratedCount (ApiRecommendations.movies db)) 20, db)).
Proof.
  split.
  - intros db reply now Hlt. unfold WorkerTasteProfile.calculateTasteProfile.
    unfold WorkerTasteProfile.ratedMoviesOf. rewrite sortBy_length.
    fold (ratedCount (WorkerRecommendations.movies db)).
    unfold WorkerTasteProfile.MIN_SAMPLE_SIZE.
    destruct (Z.ltb_spec (ratedCount (WorkerRecommendations.movies db)) 20); [|lia].
    eexists. reflexivity.
  - intros db reply Hlt. unfold ApiTasteProfile.calculateTasteProfile.
    unfold ApiTasteProfile.ratedMoviesOf. rewrite sortBy_length.
    fold (ratedCount (ApiRecommendations.movies db)).
    unfold ApiTasteProfile.MIN_SAMPLE_SIZE.
    destruct (Z.ltb_spec (ratedCount (ApiRecommendations.movies db)) 20); [|lia].
    eexists. reflexivity.
Qed.

Lemma C9_witness :
  (exists error,
      WorkerTasteProfile.calculateTasteProfile
        (WorkerRecommendations.mkDB tenRated [] []) WorkerTasteProfile.ThemesNoJson 1000
      = (WorkerTasteProfile.InsufficientData error 10 20,
         WorkerRecommendations.mkDB tenRated [] []))
  /\ (exists error,
      ApiTasteProfile.calculateTasteProfile
        (ApiRecommendations.mkDB tenRated [] []) ApiTasteProfile.ThemesThrow
      = (ApiTasteProfile.InsufficientData error 10 20,
         ApiRecommendations.mkDB tenRated [] [])).
Proof.
  split.
  - apply (proj1 C9_insufficient_data (WorkerRecommendations.mkDB tenRated [] [])).
    vm_compute. reflexivity.
  - apply (proj2 C9_insufficient_data (ApiRecommendations.mkDB tenRated [] [])).
    vm_compute. reflexivity.
Defined.

End MinimumSample.

(** ** The similarity scorer and the ranking call in binary64 *)

Section FloatOrder.
Local Open Scope Z_scope.

Lemma SFcompare_key x y :
  x <> S754_nan -> y <> S754_nan ->
  match SFcompare x y with
  | Some Lt => keyLt (orderKey x) (orderKey y)
  | Some Eq => orderKey x = orderKey y
  | Some Gt => keyLt (orderKey y) (orderKey x)
  | None => False
  end.
Proof.
  intros Hx Hy.
  destruct x as [sx|[]| |[] mx ex], y as [sy|[]| |[] my ey]; try done; simpl; try lia.
  - destruct (Z.compare_spec ex ey) as [->|Hlt|Hgt]; simpl; try lia.
    rewrite Pos.compare_cont_spec. simpl.
    destruct (Pos.compare_spec mx my) as [->|Hm|Hm]; simpl; [done|lia|lia].
  - destruct (Z.compare_spec ex ey) as [->|Hlt|Hgt]; simpl; try lia.
    rewrite Pos.compare_cont_spec. simpl.
    destruct (Pos.compare_spec mx my) as [->|Hm|Hm]; simpl; [done|lia|lia].
Qed.

Lemma keyLe_cases a b : keyLe a b <-> keyLt a b \/ a = b.
Proof.
  destruct a as [[a1 a2] a3], b as [[b1 b2] b3]. unfold keyLe, keyLt. split.
  - intros H. destruct (decide ((a1, a2, a3) = (b1, b2, b3))) as [E|E]; [by right|left].
    assert (a1 <> b1 \/ a2 <> b2 \/ a3 <> b3).
    { destruct (decide (a1 = b1)); [|tauto]. destruct (decide (a2 = b2)); [|tauto].
      destruct (decide (a3 = b3)); [|tauto]. subst. done. }
    lia.
  - intros [H|[= -> -> ->]]; lia.
Qed.

End FloatOrder.

Section PrimOrder.
Local Open Scope float_scope.

Lemma is_nan_false x : is_nan x = false -> Prim2SF x <> S754_nan.
Proof.
  unfold is_nan. rewrite FloatAxioms.eqb_spec. intros H E. rewrite E in H. done.
Qed.

Lemma leb_key x y :
  is_nan x = false -> is_nan y = false ->
  (x <=? y) = true <-> keyLe (orderKey (Prim2SF x)) (orderKey (Prim2SF y)).
Proof.
  intros Hx%is_nan_false Hy%is_nan_false. rewrite FloatAxioms.leb_spec, keyLe_cases. unfold SFleb.
  pose proof (SFcompare_key _ _ Hx Hy) as H.
  destruct (SFcompare (Prim2SF x) (Prim2SF y)) as [[]|]; [| |split; [done|]|done].
  - split; [by right|done].
  - split; [by left|done].
  - intros [H'|H']; [|rewrite H' in H];
      destruct (orderKey (Prim2SF x)) as [[a1 a2] a3], (orderKey (Prim2SF y)) as [[b1 b2] b3];
      unfold keyLt in *; lia.
Qed.

Lemma ltb_key x y :
  is_nan x = false -> is_nan y = false ->
  (x <? y) = true <-> keyLt (orderKey (Prim2SF x)) (orderKey (Prim2SF y)).
Proof.
  intros Hx%is_nan_false Hy%is_nan_false. rewrite FloatAxioms.ltb_spec. unfold SFltb.
  pose proof (SFcompare_key _ _ Hx Hy) as H.
  destruct (SFcompare (Prim2SF x) (Prim2SF y)) as [[]|]; [split; [done|]|done|split; [done|]|done].
  - intros H'. rewrite H in H'.
    destruct (orderKey (Prim2SF y)) as [[b1 b2] b3]. unfold keyLt in *; lia.
  - intros H'.
    destruct (orderKey (Prim2SF x)) as [[a1 a2] a3], (orderKey (Prim2SF y)) as [[b1 b2] b3];
      unfold keyLt in *; lia.
Qed.

Lemma ltb_leb x y : (x <? y) = true -> (x <=? y) = true.
Proof.
  rewrite FloatAxioms.ltb_spec, FloatAxioms.leb_spec. unfold SFltb, SFleb.
  by destruct (SFcompare _ _) as [[]|].
Qed.

Lemma not_ltb_leb x y :
  is_nan x = false -> is_nan y = false -> (x <? y) = false -> (y <=? x) = true.
Proof.
  intros Hx Hy H. apply leb_key; [done..|].
  assert (Hn : ~ keyLt (orderKey (Prim2SF x)) (orderKey (Prim2SF y))).
  { intros Hlt. apply (ltb_key x y Hx Hy) in Hlt. congruence. }
  destruct (orderKey (Prim2SF x)) as [[a1 a2] a3], (orderKey (Prim2SF y)) as [[b1 b2] b3].
  unfold keyLt, keyLe in *. lia.
Qed.

Lemma leb_trans x y z :
  is_nan x = false -> is_nan y = false -> is_nan z = false ->
  (x <=? y) = true -> (y <=? z) = true -> (x <=? z) = true.
Proof.
  intros Hx Hy Hz. rewrite !leb_key by done.
  destruct (orderKey (Prim2SF x)) as [[a1 a2] a3], (orderKey (Prim2SF y)) as [[b1 b2] b3],
    (orderKey (Prim2SF z)) as [[c1 c2] c3].
  unfold keyLe. lia.
Qed.

End PrimOrder.

Section SortedByOn.
Context {T : Type} (after : T -> T -> bool) (before : relation T) (P : T -> Prop).
Context (Hafter : forall x y, P x -> P y -> after x y = true -> before y x).
Context (Hbefore : forall x y, P x -> P y -> after x y = false -> before x y).
Context (Htrans : forall x y z, P x -> P y -> P z -> before x y -> before y z -> before x z).

Lemma insertBy_StronglySorted_on x l :
  P x -> Forall P l ->
  StronglySorted before l -> StronglySorted before (Js.insertBy after x l).
Proof.
  intros Hx Hl Hs. induction Hs as [|y l Hs IH Hy]; simpl; [by repeat constructor|].
  apply Forall_cons in Hl as [Py Pl].
  destruct (after x y) eqn:E.
  - constructor; [by apply IH|]. apply Forall_forall. intros z Hz.
    rewrite insertBy_Permutation in Hz. apply elem_of_cons in Hz as [->|Hz].
    + by apply Hafter.
    + by apply (proj1 (Forall_forall _ _) Hy).
  - constructor; [by constructor|]. constructor; [by apply Hbefore|].
    apply Forall_forall. intros z Hz.
    apply (Htrans x y z); [done|done| |by apply Hbefore|].
    + by apply (proj1 (Forall_forall _ _) Pl).
    + by apply (proj1 (Forall_forall _ _) Hy).
Qed.

Lemma sortBy_StronglySorted_on l : Forall P l -> StronglySorted before (Js.sortBy after l).
Proof.
  unfold Js.sortBy. induction l as [|x l IH]; simpl; [constructor|].
  intros [Hx Hl]%Forall_cons. apply insertBy_StronglySorted_on; [done| |by apply IH].
  apply Forall_forall. intros z Hz. fold (Js.sortBy after l) in Hz.
  rewrite sortBy_Permutation in Hz. by apply (proj1 (Forall_forall _ _) Hl).
Qed.

End SortedByOn.

Section Cosine64.
Import FilmAttributes Binary64.
Local Open Scope float_scope.

Lemma cosineSums64_foldl (a b : Profile) attrs : forall x y z,
  foldl (fun '(dotProduct, magnitudeA, magnitudeB) attr =>
           let a' := or0 (a !! attr_id attr) in
           let b' := or0 (b !! attr_id attr) in
           (dotProduct + a' * b', magnitudeA + a' * a', magnitudeB + b' * b'))
        (x, y, z) attrs
  = (foldl (fun sum d => sum + or0 (a !! d) * or0 (b !! d)) x (attr_id <$> attrs),
     foldl (fun sum d => sum + or0 (a !! d) * or0 (a !! d)) y (attr_id <$> attrs),
     foldl (fun sum d => sum + or0 (b !! d) * or0 (b !! d)) z (attr_id <$> attrs)).
Proof. induction attrs as [|attr attrs IH]; intros x y z; simpl; [done|]. apply IH. Qed.

Lemma calculateCosineSimilarity64_spec a b :
  calculateCosineSimilarity a b
  = if (magnitude64 a =? 0) || (magnitude64 b =? 0) then 0
    else dot64 a b / (magnitude64 a * magnitude64 b).
Proof.
  unfold calculateCosineSimilarity, cosineSums. by rewrite cosineSums64_foldl.
Qed.

Lemma zero_vector_magnitude a :
  (forall d, d ∈ attributeIds -> or0 (a !! d) = 0) -> magnitude64 a = 0.
Proof.
  intros H. unfold magnitude64, dot64, attributeIds. simpl.
  rewrite !H by (unfold attributeIds; simpl; set_solver). reflexivity.
Qed.

(** C4, where the code fails it.  The vector [{action: 1e-200}] is not the
    zero vector, and the [Movie] constructor accepts its score; its
    similarity with itself is exactly 0, not 1: the square of 1e-200
    underflows to 0, so the computed magnitude is 0 and the guard against a
    division by zero returns 0.  (For [{action: 1e200}] the squares overflow
    and the result is NaN.) *)
Theorem C4_self_similarity_underflow :
  tiny !! "action" = Some 1e-200
  /\ (0 <? 1e-200) && (1e-200 <=? 1) = true
  /\ calculateCosineSimilarity tiny tiny = 0
  /\ is_nan (calculateCosineSimilarity huge huge) = true.
Proof. repeat split; vm_compute; reflexivity. Qed.

(** X32.  Cosine similarity in binary64: it is exactly 0 whenever the
    computed magnitude of either vector is zero, as for the zero vector; the
    similarity of each unit vector with itself is exactly 1 and that of two
    different unit vectors exactly 0; and the similarity of every vector of
    the catalogue with itself is 1 up to one unit in the last place (above 1
    for movie-8). *)
Theorem X32_cosine_similarity_binary64 :
  (forall a b,
      (magnitude64 a =? 0) = true \/ (magnitude64 b =? 0) = true ->
      calculateCosineSimilarity a b = 0)
  /\ (forall a b,
        (forall d, d ∈ attributeIds -> or0 (a !! d) = 0) ->
        calculateCosineSimilarity a b = 0 /\ calculateCosineSimilarity b a = 0)
  /\ (forall d e,
        d ∈ attributeIds -> e ∈ attributeIds ->
        calculateCosineSimilarity (unit64 d) (unit64 e) = if bool_decide (d = e) then 1 else 0)
  /\ (forall m,
        m ∈ SAMPLE_MOVIES ->
        within 0x1p-52 (calculateCosineSimilarity (attributes m) (attributes m)) 1 = true)
  /\ (exists m,
        m ∈ SAMPLE_MOVIES
        /\ (1 <? calculateCosineSimilarity (attributes m) (attributes m)) = true).
Proof.
  split; [|split; [|split; [|split]]].
  - intros a b H. rewrite calculateCosineSimilarity64_spec.
    destruct H as [-> | ->]; [done|]. by rewrite orb_true_r.
  - intros a b H. rewrite !calculateCosineSimilarity64_spec, (zero_vector_magnitude a H).
    split; [done|]. by rewrite orb_true_r.
  - intros d e Hd He. unfold attributeIds in Hd, He. simpl in Hd, He.
    repeat (apply elem_of_cons in Hd as [->|Hd]);
      try (by apply elem_of_nil in Hd);
      repeat (apply elem_of_cons in He as [->|He]);
      try (by apply elem_of_nil in He);
      vm_compute; reflexivity.
  - intros m Hm. unfold SAMPLE_MOVIES in Hm.
    repeat (apply elem_of_cons in Hm as [->|Hm]; [vm_compute; reflexivity|]).
    by apply elem_of_nil in Hm.
  - exists (mkMovie "movie-8" "Moonrise Kingdom" 2012 (attrs6 0.2 0.7 0.6 0.2 0.8 0.85)).
    split; [unfold SAMPLE_MOVIES; set_solver|vm_compute; reflexivity].
Qed.

Lemma X32_witness : calculateCosineSimilarity ∅ getNeutralProfile = 0.
Proof.
  destruct (proj1 (proj2 X32_cosine_similarity_binary64) ∅ getNeutralProfile) as [H _].
  - intros d _. by rewrite lookup_empty.
  - exact H.
Defined.

End Cosine64.

Section Ranking64.
Import FilmAttributes Binary64.
Local Open Scope float_scope.

Lemma findSimilarMovies64_spec userProfile allMovies topN excludeMovieIds :
  findSimilarMovies userProfile allMovies topN excludeMovieIds
  = take topN
      (Js.sortBy bySimilarity
         ((fun m => mkScored m (if isProfileNeutral userProfile
                                then calculateAttributeStrength (attributes m)
                                else calculateCosineSimilarity userProfile (attributes m)))
          <$> candidates64 allMovies excludeMovieIds)).
Proof.
  unfold findSimilarMovies. case_bool_decide as He; [|done].
  destruct allMovies; [|done]. by destruct topN.
Qed.

Lemma calculateAttributeStrength64_spec (m : Movie) :
  calculateAttributeStrength (attributes m) = strength64 m.
Proof.
  unfold calculateAttributeStrength, strength64, attributeIds, getAttributeScore.
  generalize (attributes m). intros a.
  assert (Hsum : forall (l : list FilmAttribute) x,
             foldl (fun sum dev => sum + dev) x
               (map (fun val => PrimFloat.abs (val - 0.5))
                    (map (fun attr => or0 (a !! attr_id attr)) l))
             = foldl (fun sum d => sum + PrimFloat.abs (or0 (a !! d) - 0.5)) x
                 (attr_id <$> l)).
  { induction l as [|attr l IH]; intros x; [done|]. apply IH. }
  rewrite Hsum. unfold length64. by rewrite ?length_map, ?length_fmap.
Qed.

Lemma sortBy_moreSimilarFirst (l : list Scored) :
  Forall (fun e => is_nan (similarity e) = false) l ->
  StronglySorted moreSimilarFirst (Js.sortBy bySimilarity l).
Proof.
  apply (sortBy_StronglySorted_on bySimilarity moreSimilarFirst
           (fun e => is_nan (similarity e) = false)).
  - intros x y _ _. apply ltb_leb.
  - intros x y Hx Hy. by apply not_ltb_leb.
  - intros x y z Hx Hy Hz Hxy Hyz. by apply (leb_trans _ (similarity y)).
Qed.

(** C5.  The neutral profile passes the engine's test [isProfileNeutral];
    and for every profile that passes it, [findSimilarMovies] itself ranks
    the candidates by attribute strength
    [strength(item) = mean(|itemScore(d) − 0.5|) / 0.5] in place of cosine
    similarity: it returns as many items as [topN] and the number of
    candidates allow, each with its strength as its similarity, the stronger
    first, and no candidate left out is stronger than a returned one.  For a
    profile that does not pass the test the same call scores the candidates
    by cosine similarity. *)
Theorem C5_neutral_profile_strength_ranking :
  isProfileNeutral getNeutralProfile = true
  /\ (forall userProfile allMovies topN excludeMovieIds,
        isProfileNeutral userProfile = true ->
        let candidates := candidates64 allMovies excludeMovieIds in
        let result := findSimilarMovies userProfile allMovies topN excludeMovieIds in
        length result = (topN `min` length candidates)%nat
        /\ exists rest,
             result ++ rest ≡ₚ (fun m => mkScored m (strength64 m)) <$> candidates
             /\ (Forall (fun m => is_nan (strength64 m) = false) candidates ->
                 StronglySorted moreSimilarFirst (result ++ rest)))
  /\ (forall userProfile allMovies topN excludeMovieIds,
        isProfileNeutral userProfile = false ->
        exists rest,
          findSimilarMovies userProfile allMovies topN excludeMovieIds ++ rest
          ≡ₚ (fun m => mkScored m (calculateCosineSimilarity userProfile (attributes m)))
             <$> candidates64 allMovies excludeMovieIds).
Proof.
  split; [by vm_compute|]. split.
  - intros userProfile allMovies topN excludeMovieIds Hneutral candidates result.
    subst result. rewrite findSimilarMovies64_spec, Hneutral. fold candidates.
    assert (Hmap : (fun m => mkScored m (calculateAttributeStrength (attributes m)))
                   <$> candidates
                   = (fun m => mkScored m (strength64 m)) <$> candidates).
    { apply list_fmap_ext. intros _ m _. by rewrite calculateAttributeStrength64_spec. }
    rewrite Hmap. split.
    + by rewrite length_take, sortBy_length, length_fmap.
    + eexists (drop topN _). rewrite take_drop. split; [apply sortBy_Permutation|].
      intros Hnan. apply sortBy_moreSimilarFirst.
      apply Forall_fmap. eapply Forall_impl; [exact Hnan|]. done.
  - intros userProfile allMovies topN excludeMovieIds Hneutral.
    rewrite findSimilarMovies64_spec, Hneutral.
    eexists (drop topN _). rewrite take_drop. apply sortBy_Permutation.
Qed.

Lemma C5_witness :
  let result := findSimilarMovies getNeutralProfile SAMPLE_MOVIES 3 [] in
  movie_id ∘ movie <$> result = ["movie-7"; "movie-4"; "movie-10"]
  /\ length result = (3 `min` length (candidates64 SAMPLE_MOVIES []))%nat
  /\ exists rest,
       result ++ rest ≡ₚ (fun m => mkScored m (strength64 m)) <$> candidates64 SAMPLE_MOVIES []
       /\ StronglySorted moreSimilarFirst (result ++ rest).
Proof.
  intros result. split; [by vm_compute|].
  destruct (proj1 (proj2 C5_neutral_profile_strength_ranking)
              getNeutralProfile SAMPLE_MOVIES 3%nat [])
    as (Hlen & rest & Hperm & Hsorted); [by vm_compute|].
  split; [exact Hlen|]. exists rest. split; [exact Hperm|]. apply Hsorted.
  repeat constructor.
Defined.

End Ranking64.

(** ** The browser-side engine: ranges, order and unknown movies *)

Section Engine.
Import FilmAttributes TasteProfileEngine.
Local Open Scope R_scope.

Lemma getAttributeScore_range m d : constructible m -> 0 <= getAttributeScore m d <= 1.
Proof.
  intros Hm. unfold getAttributeScore.
  destruct (attributes m !! d) as [v|] eqn:E; [apply (Hm _ _ E)|lra].
Qed.

Lemma sumOver_nonneg f ratings :
  (forall r, r ∈ ratings -> 0 <= f r) -> 0 <= sumOver f ratings.
Proof.
  induction ratings as [|r l IH]; simpl; intros H; [lra|].
  assert (0 <= f r) by (apply H; left).
  assert (0 <= sumOver f l) by (apply IH; intros; apply H; by right).
  unfold sumOver in *. lra.
Qed.

Lemma sumOver_le f g ratings :
  (forall r, r ∈ ratings -> f r <= g r) -> sumOver f ratings <= sumOver g ratings.
Proof.
  induction ratings as [|r l IH]; simpl; intros H; [lra|].
  assert (f r <= g r) by (apply H; left).
  assert (sumOver f l <= sumOver g l) by (apply IH; intros; apply H; by right).
  unfold sumOver in *. lra.
Qed.

Lemma sumOver_filter (f : Rating -> R) (P : Rating -> bool) ratings :
  (forall r, P r = false -> f r = 0) ->
  sumOver f (List.filter P ratings) = sumOver f ratings.
Proof.
  intros H. induction ratings as [|r l IH]; simpl; [done|].
  destruct (P r) eqn:E; simpl; unfold sumOver in *; [lra|]. rewrite (H r E). lra.
Qed.

Lemma calculateTasteProfile_notin ratings movieMap d :
  d ∉ attributeIds -> calculateTasteProfile ratings movieMap !! d = None.
Proof.
  intros Hd. unfold calculateTasteProfile. case_bool_decide.
  - rewrite getNeutralProfile_lookup. by rewrite bool_decide_eq_false_2.
  - cbv zeta. rewrite (final_loop_eq 0.5).
    by rewrite (foldl_insert_lookup_notin (averageOr 0.5 _)).
Qed.

(** The empty history included: its total weight is 0. *)
Lemma calculateTasteProfile_lookup_all ratings movieMap d :
  d ∈ attributeIds ->
  calculateTasteProfile ratings movieMap !! d
  = Some (if bool_decide (0 < gatheredWeight movieMap ratings)
          then gatheredSum movieMap d ratings / gatheredWeight movieMap ratings
          else 0.5).
Proof.
  intros Hd. destruct ratings as [|r l].
  - unfold calculateTasteProfile. rewrite bool_decide_eq_true_2 by done.
    rewrite getNeutralProfile_lookup, bool_decide_eq_true_2 by done.
    rewrite bool_decide_eq_false_2; [done|]. unfold gatheredWeight, sumOver. simpl. lra.
  - by apply calculateTasteProfile_lookup.
Qed.

Lemma gatheredSum_bounds movieMap d ratings :
  (forall i m, movieMap !! i = Some m -> constructible m) ->
  (forall r, r ∈ ratings -> (0 <= score r)%Z) ->
  0 <= gatheredSum movieMap d ratings <= gatheredWeight movieMap ratings.
Proof.
  intros Hm Hs. unfold gatheredSum, gatheredWeight. split.
  - apply sumOver_nonneg. intros r Hr.
    destruct (movieMap !! movieId r) as [m|] eqn:E; [|lra].
    pose proof (getAttributeScore_range m d (Hm _ _ E)).
    assert (0 <= weight r) by (apply IZR_le, Hs, Hr). nra.
  - apply sumOver_le. intros r Hr.
    destruct (movieMap !! movieId r) as [m|] eqn:E; [|lra].
    pose proof (getAttributeScore_range m d (Hm _ _ E)).
    assert (0 <= weight r) by (apply IZR_le, Hs, Hr). nra.
Qed.

Lemma foldl_insert_elem {V} (key : V -> string) (l : list V) : forall (m : gmap string V) i v,
  foldl (fun map x => <[key x := x]> map) m l !! i = Some v -> v ∈ l \/ m !! i = Some v.
Proof.
  induction l as [|x l IH]; simpl; intros m i v H; [by right|].
  apply IH in H as [H|H]; [left; by right|].
  apply lookup_insert_Some in H as [[_ <-]|[_ H]]; [left; left|by right].
Qed.

Lemma attrs6_constructible a b c d e f :
  0 <= a <= 1 -> 0 <= b <= 1 -> 0 <= c <= 1 -> 0 <= d <= 1 -> 0 <= e <= 1 -> 0 <= f <= 1 ->
  forall t y n, constructible (mkMovie t y n (attrs6 a b c d e f)).
Proof.
  intros ?????? t y n k v. unfold attrs6, attributeIds. simpl.
  rewrite !lookup_insert_Some, lookup_empty.
  intros Hk. repeat (destruct Hk as [[<- <-]|[_ Hk]]; [split; [done|set_solver]|]). done.
Qed.

(** Every movie of the sample catalogue passes the constructor's checks. *)
Lemma MOVIE_MAP_constructible i m : MOVIE_MAP !! i = Some m -> constructible m.
Proof.
  intros H. apply foldl_insert_elem in H as [H|H]; [|by rewrite lookup_empty in H].
  unfold SAMPLE_MOVIES in H.
  repeat (apply elem_of_cons in H as [->|H]; [apply attrs6_constructible; lra|]).
  by apply elem_of_nil in H.
Qed.

Lemma scenarioRatings_plain : plainIds scenarioRatings.
Proof. repeat constructor; simpl; unfold Js.OBJECT_PROTOTYPE; set_solver. Qed.

(** X1.  A profile computed by [calculateTasteProfile] has exactly the six
    registered dimensions, and each of its scores lies in the range 0..1,
    whenever the movies of the lookup table carry scores in 0..1, no rating is
    negative, and no rating names a property that the lookup object inherits
    (for such a rating, of [toString] say, the call throws a TypeError and
    returns no profile). *)
Theorem X1_calculateTasteProfile_range ratings movieMap :
  (forall i m, movieMap !! i = Some m -> constructible m) ->
  (forall r, r ∈ ratings -> (0 <= score r)%Z) ->
  plainIds ratings ->
  (forall d, d ∈ attributeIds ->
     exists v, calculateTasteProfile ratings movieMap !! d = Some v /\ 0 <= v <= 1)
  /\ (forall d, d ∉ attributeIds -> calculateTasteProfile ratings movieMap !! d = None).
Proof.
  intros Hm Hs _. split; intros d Hd.
  - rewrite calculateTasteProfile_lookup_all by done.
    eexists; split; [done|]. case_bool_decide as Hw; [|lra].
    pose proof (gatheredSum_bounds movieMap d ratings Hm Hs) as [H0 H1].
    split.
    + apply Rmult_le_pos; [done|]. left. by apply Rinv_0_lt_compat.
    + apply (Rmult_le_reg_r (gatheredWeight movieMap ratings)); [done|].
      unfold Rdiv. rewrite Rmult_assoc, Rinv_l by lra. lra.
  - by apply calculateTasteProfile_notin.
Qed.

Lemma X1_witness :
  (exists v, calculateTasteProfile scenarioRatings MOVIE_MAP !! "action" = Some v
             /\ 0 <= v <= 1)
  /\ calculateTasteProfile scenarioRatings MOVIE_MAP !! "confidence" = None.
Proof.
  assert (Hs : forall r, r ∈ scenarioRatings -> (0 <= score r)%Z).
  { intros r Hr.
    repeat (apply elem_of_cons in Hr as [->|Hr]; [simpl; lia|]).
    by apply elem_of_nil in Hr. }
  destruct (X1_calculateTasteProfile_range scenarioRatings MOVIE_MAP
              MOVIE_MAP_constructible Hs scenarioRatings_plain) as [Hin Hout].
  split; [apply Hin|apply Hout]; compute_done.
Defined.

Lemma calculateTasteProfile_ext ratings ratings' movieMap :
  gatheredWeight movieMap ratings = gatheredWeight movieMap ratings' ->
  (forall d, gatheredSum movieMap d ratings = gatheredSum movieMap d ratings') ->
  calculateTasteProfile ratings movieMap = calculateTasteProfile ratings' movieMap.
Proof.
  intros Hw Hs. apply map_eq. intros d.
  destruct (decide (d ∈ attributeIds)) as [Hd|Hd].
  - rewrite !calculateTasteProfile_lookup_all by done. by rewrite Hw, Hs.
  - by rewrite !calculateTasteProfile_notin.
Qed.

(** X3.  Ratings of movies that the lookup table does not hold are skipped,
    as long as none of them names a property that the lookup object inherits
    (there the call throws): the profile is the one of the history without
    them (the neutral profile when none is left). *)
Theorem X3_calculateTasteProfile_skips_unknown_movies ratings movieMap :
  plainIds ratings ->
  calculateTasteProfile ratings movieMap
  = calculateTasteProfile (List.filter (known movieMap) ratings) movieMap.
Proof.
  intros _. apply calculateTasteProfile_ext.
  - unfold gatheredWeight. rewrite sumOver_filter; [done|].
    intros r Hr. unfold known in Hr. apply bool_decide_eq_false in Hr.
    destruct (movieMap !! movieId r); [|done]. by destruct Hr.
  - intros d. unfold gatheredSum. rewrite sumOver_filter; [done|].
    intros r Hr. unfold known in Hr. apply bool_decide_eq_false in Hr.
    destruct (movieMap !! movieId r); [|done]. by destruct Hr.
Qed.

Lemma X3_witness :
  calculateTasteProfile (mkRating "movie-99" "test-user" 5 0 :: scenarioRatings) MOVIE_MAP
  = calculateTasteProfile
      (List.filter (known MOVIE_MAP) (mkRating "movie-99" "test-user" 5 0 :: scenarioRatings))
      MOVIE_MAP.
Proof.
  apply X3_calculateTasteProfile_skips_unknown_movies.
  apply Forall_cons. split; [|apply scenarioRatings_plain].
  simpl. unfold Js.OBJECT_PROTOTYPE. set_solver.
Defined.

Lemma dot_comm a b : dot a b = dot b a.
Proof.
  unfold dot. induction attributeIds as [|d l IH]; simpl; [done|]. rewrite IH. lra.
Qed.

(** X5.  Cosine similarity is symmetric in its two profiles. *)
Theorem X5_calculateCosineSimilarity_symmetric (a b : gmap string R) :
  calculateCosineSimilarity a b = calculateCosineSimilarity b a.
Proof.
  rewrite !calculateCosineSimilarity_spec, (dot_comm a b), orb_comm.
  by rewrite (Rmult_comm (magnitude a)).
Qed.

Lemma dot_nonneg a b :
  (forall d, d ∈ attributeIds -> 0 <= or0 (a !! d)) ->
  (forall d, d ∈ attributeIds -> 0 <= or0 (b !! d)) ->
  0 <= dot a b.
Proof.
  unfold dot. induction attributeIds as [|d l IH]; simpl; intros Ha Hb; [lra|].
  assert (0 <= or0 (a !! d)) by (apply Ha; left).
  assert (0 <= or0 (b !! d)) by (apply Hb; left).
  assert (0 <= foldr (fun d acc => or0 (a !! d) * or0 (b !! d) + acc) 0 l).
  { apply IH; intros; [apply Ha|apply Hb]; by right. }
  nra.
Qed.

Lemma findSimilarMovies_spec userProfile allMovies topN excludeMovieIds :
  findSimilarMovies userProfile allMovies topN excludeMovieIds
  = take topN (Js.sortBy bySimilarity
                 (scoreFor userProfile <$> candidatesOf allMovies excludeMovieIds)).
Proof.
  unfold findSimilarMovies. case_bool_decide as He; [|done].
  destruct allMovies; [|done]. by destruct topN.
Qed.


Lemma strength_range (m : Movie) : constructible m -> 0 <= strength m <= 1.
Proof.
  intros Hm. unfold strength, attributeIds. simpl.
  assert (Hd : forall d, 0 <= Rabs (getAttributeScore m d - 0.5) <= 0.5).
  { intros d. pose proof (getAttributeScore_range m d Hm). split; [apply Rabs_pos|].
    apply Rabs_le. lra. }
  pose proof (Hd "action"). pose proof (Hd "drama"). pose proof (Hd "comedy").
  pose proof (Hd "dark"). pose proof (Hd "uplifting"). pose proof (Hd "artistic").
  lra.
Qed.

(** X8.  No similarity that [findSimilarMovies] reports is negative (a match
    is never below 0%), by either of its two measures, when the movies carry
    scores in 0..1 and the profile's scores are in 0..1 too. *)
Theorem X8_findSimilarMovies_similarity_nonneg userProfile allMovies topN excludeMovieIds e :
  (forall m, m ∈ allMovies -> constructible m) ->
  (forall d, d ∈ attributeIds -> 0 <= or0 (userProfile !! d) <= 1) ->
  e ∈ findSimilarMovies userProfile allMovies topN excludeMovieIds ->
  0 <= similarity e.
Proof.
  intros Hm Hp He. rewrite findSimilarMovies_spec in He.
  apply subseteq_take in He. rewrite sortBy_Permutation in He.
  apply list_elem_of_fmap in He as (m & -> & Hin).
  apply list_elem_of_filter in Hin as [_ Hin]. specialize (Hm m Hin).
  unfold scoreFor. simpl. destruct (isProfileNeutral userProfile).
  - rewrite calculateAttributeStrength_spec. by apply strength_range.
  - rewrite calculateCosineSimilarity_spec.
    destruct (bool_decide (magnitude userProfile = 0)
              || bool_decide (magnitude (attributes m) = 0)) eqn:E; [lra|].
    apply orb_false_elim in E as [Ea Eb]. apply bool_decide_eq_false in Ea, Eb.
    assert (0 <= magnitude userProfile) by apply sqrt_pos.
    assert (0 <= magnitude (attributes m)) by apply sqrt_pos.
    assert (0 < magnitude userProfile * magnitude (attributes m))
      by (apply Rmult_lt_0_compat; lra).
    apply Rmult_le_pos; [|left; by apply Rinv_0_lt_compat].
    apply dot_nonneg; [intros d Hd; by apply Hp|].
    intros d _. rewrite or0_getAttributeScore. by apply getAttributeScore_range.
Qed.

Lemma X8_witness :
  exists e,
    e ∈ findSimilarMovies getNeutralProfile (take 1 SAMPLE_MOVIES) 5 []
    /\ 0 <= similarity e.
Proof.
  assert (Hin : exists e, e ∈ findSimilarMovies getNeutralProfile (take 1 SAMPLE_MOVIES) 5 []).
  { unfold findSimilarMovies. rewrite isProfileNeutral_getNeutralProfile. simpl.
    eexists. apply list_elem_of_here. }
  destruct Hin as [e He]. exists e. split; [exact He|].
  refine (X8_findSimilarMovies_similarity_nonneg _ _ _ _ e _ _ He).
  - intros m Hm. simpl in Hm. apply list_elem_of_singleton in Hm as ->.
    apply attrs6_constructible; lra.
  - intros d Hd. rewrite getNeutralProfile_lookup, bool_decide_eq_true_2 by done.
    simpl. lra.
Defined.

End Engine.

(** ** The browser's data store: ratings in memory and in localStorage *)

Section Store.
Import FilmAttributes DataStore.

Lemma mapSet_ids x l :
  movieId <$> mapSet x l
  = if bool_decide (movieId x ∈ movieId <$> l) then movieId <$> l
    else (movieId <$> l) ++ [movieId x].
Proof.
  induction l as [|r l IH]; cbn [mapSet fmap list_fmap].
  - case_bool_decide as E; [by apply elem_of_nil in E|done].
  - destruct (decide (movieId r = movieId x)) as [E|E].
    + rewrite (bool_decide_eq_true_2 _ E). cbn [fmap list_fmap].
      rewrite bool_decide_eq_true_2 by (rewrite E; left). by rewrite E.
    + rewrite (bool_decide_eq_false_2 _ E). cbn [fmap list_fmap]. rewrite IH.
      destruct (decide (movieId x ∈ movieId <$> l)) as [E2|E2].
      * rewrite (bool_decide_eq_true_2 _ E2). by rewrite bool_decide_eq_true_2 by (by right).
      * rewrite (bool_decide_eq_false_2 _ E2). rewrite bool_decide_eq_false_2; [done|].
        intros [?|?]%elem_of_cons; congruence.
Qed.

Lemma mapSet_NoDup x l : NoDup (movieId <$> l) -> NoDup (movieId <$> mapSet x l).
Proof.
  intros H. rewrite mapSet_ids. case_bool_decide as E; [done|].
  apply NoDup_app. split; [done|]. split; [|apply NoDup_singleton].
  intros k Hk ->%list_elem_of_singleton. done.
Qed.

Lemma mapSet_elem x l r : r ∈ mapSet x l -> r = x \/ r ∈ l.
Proof.
  induction l as [|y l IH]; simpl.
  - intros ->%list_elem_of_singleton. by left.
  - case_bool_decide.
    + intros [->|?]%elem_of_cons; [by left|right; by right].
    + intros [->|?]%elem_of_cons; [right; left|]. destruct IH as [?|?]; auto. right; by right.
Qed.

Lemma mapSet_get x l : mapGet (movieId x) (mapSet x l) = Some x.
Proof.
  unfold mapGet. induction l as [|y l IH]; simpl.
  - by rewrite bool_decide_eq_true_2.
  - case_bool_decide as E; simpl.
    + by rewrite bool_decide_eq_true_2.
    + by rewrite bool_decide_eq_false_2.
Qed.

Lemma mapSet_get_ne x l k : k <> movieId x -> mapGet k (mapSet x l) = mapGet k l.
Proof.
  intros Hk. unfold mapGet. induction l as [|y l IH]; simpl.
  - by rewrite bool_decide_eq_false_2.
  - case_bool_decide as E; simpl.
    + rewrite !bool_decide_eq_false_2 by congruence. done.
    + case_bool_decide; [done|apply IH].
Qed.

Lemma mapSet_length x l :
  length (mapSet x l)
  = if bool_decide (movieId x ∈ movieId <$> l) then length l else S (length l).
Proof.
  rewrite <- (length_fmap movieId (mapSet x l)), mapSet_ids.
  case_bool_decide; [by rewrite length_fmap|]. rewrite length_app, length_fmap. simpl. lia.
Qed.

Lemma mapSet_fresh x l : movieId x ∉ movieId <$> l -> mapSet x l = l ++ [x].
Proof.
  induction l as [|y l IH]; simpl; [done|]. intros Hn.
  rewrite bool_decide_eq_false_2 by set_solver. f_equal. apply IH. set_solver.
Qed.

Lemma mapGet_delete k l : mapGet k (mapDelete k l) = None.
Proof.
  unfold mapGet, mapDelete. induction l as [|y l IH]; [done|].
  rewrite filter_cons. case_decide as E; simpl; [|done].
  by rewrite bool_decide_eq_false_2.
Qed.

Lemma mapGet_delete_ne k k' l : k' <> k -> mapGet k' (mapDelete k l) = mapGet k' l.
Proof.
  intros Hk. unfold mapGet, mapDelete. induction l as [|y l IH]; [done|].
  rewrite filter_cons. case_decide as E; simpl.
  - case_bool_decide; [done|apply IH].
  - rewrite bool_decide_eq_false_2 by congruence. apply IH.
Qed.

Lemma newRating_valid r :
  (1 <= score r <= 5)%Z ->
  newRating (movieId r) (userId r) (score r) (timestamp r) = Some r.
Proof.
  intros H. unfold newRating. rewrite bool_decide_eq_false_2 by lia. by destruct r.
Qed.

Lemma newRating_Some m u s t r :
  newRating m u s t = Some r -> r = mkRating m u s t /\ (1 <= s <= 5)%Z.
Proof.
  unfold newRating. case_bool_decide; [done|]. intros [= <-]. split; [done|lia].
Qed.

Lemma save_cases {A} this storage now :
  (exists message,
      (item storage = Some (Unparsable message) \/
       ((forall m, item storage <> Some (Unparsable m)) /\ quotaExceeded storage = Some message))
      /\ save (A:=A) this storage now
         = (mkResult false None (Some ("Failed to save to localStorage: " +:+ message)),
            storage))
  \/ (healthy storage
      /\ save (A:=A) this storage now
         = (mkResult true None None,
            mkStorage (Some (Saved 1 (othersOf (store_userId this) storage ++ ratings this) now))
              None)).
Proof.
  unfold save, healthy, othersOf.
  destruct (item storage) as [[message| |v rs t]|] eqn:Ei.
  - left. exists message. split; [by left|done].
  - destruct (quotaExceeded storage) as [message|] eqn:Eq.
    + left. exists message. split; [right; split; [done|done]|done].
    + right. repeat split; done.
  - destruct (quotaExceeded storage) as [message|] eqn:Eq.
    + left. exists message. split; [right; split; [done|done]|done].
    + right. repeat split; done.
  - destruct (quotaExceeded storage) as [message|] eqn:Eq.
    + left. exists message. split; [right; split; [done|done]|done].
    + right. repeat split; done.
Qed.

Lemma load_Saved this v rs t q :
  load this (mkStorage (Some (Saved v rs t)) q)
  = mkStore (store_userId this)
      (foldl reconstruct [] (filter (fun r => userId r = store_userId this) rs)).
Proof. done. Qed.

Lemma foldl_reconstruct_valid l : forall acc,
  NoDup (movieId <$> (acc ++ l)) ->
  Forall (fun r => (1 <= score r <= 5)%Z) l ->
  foldl reconstruct acc l = acc ++ l.
Proof.
  induction l as [|r l IH]; intros acc Hnd Hv; simpl; [by rewrite app_nil_r|].
  apply Forall_cons in Hv as [Hr Hv].
  unfold reconstruct at 2. rewrite newRating_valid by done.
  rewrite mapSet_fresh.
  - rewrite IH; [by rewrite <- app_assoc| by rewrite <- app_assoc|done].
  - rewrite fmap_app in Hnd. apply NoDup_app in Hnd as (_ & Hd & _).
    intros Hin. apply (Hd _ Hin). left.
Qed.

Lemma foldl_reconstruct_inv uid l : forall acc,
  Forall (fun r => userId r = uid) l ->
  storeInv (mkStore uid acc) -> storeInv (mkStore uid (foldl reconstruct acc l)).
Proof.
  induction l as [|r l IH]; intros acc Hu Hinv; simpl; [done|].
  apply Forall_cons in Hu as [Hr Hu]. apply IH; [done|].
  unfold reconstruct.
  destruct (newRating _ _ _ _) as [rating|] eqn:E; [|done].
  apply newRating_Some in E as [-> Hs]. destruct Hinv as [Hnd Hall]. simpl in *.
  split; simpl; [by apply mapSet_NoDup|].
  apply Forall_forall. intros x [->|Hx]%mapSet_elem; [done|].
  by apply (proj1 (Forall_forall _ _) Hall).
Qed.

Lemma newUserDataStore_inv uid storage : storeInv (newUserDataStore uid storage).
Proof.
  assert (He : storeInv (mkStore uid [])) by (split; simpl; [apply NoDup_nil_2|done]).
  unfold newUserDataStore. destruct storage as [[[m| |v rs t]|] q]; try done.
  rewrite load_Saved. simpl. apply foldl_reconstruct_inv; [|done].
  apply Forall_forall. by intros r [? _]%list_elem_of_filter.
Qed.

Lemma filter_all {A} (P : A -> Prop) `{!forall x, Decision (P x)} (l : list A) :
  Forall P l -> filter P l = l.
Proof.
  induction 1 as [|x l Hx Hl IH]; [done|]. rewrite filter_cons, decide_True by done. by f_equal.
Qed.

Lemma filter_none {A} (P : A -> Prop) `{!forall x, Decision (P x)} (l : list A) :
  Forall (fun x => ~ P x) l -> filter P l = [].
Proof.
  induction 1 as [|x l Hx Hl IH]; [done|]. by rewrite filter_cons, decide_False.
Qed.

Lemma reload_after_save this storage now :
  storeInv this ->
  newUserDataStore (store_userId this)
    (mkStorage (Some (Saved 1 (othersOf (store_userId this) storage ++ ratings this) now)) None)
  = this.
Proof.
  intros [Hnd Hall]. unfold newUserDataStore. rewrite load_Saved. simpl.
  rewrite filter_app, filter_none, filter_all; simpl.
  - rewrite foldl_reconstruct_valid; simpl; [by destruct this|done|].
    eapply Forall_impl; [exact Hall|]. by intros r [_ ?].
  - eapply Forall_impl; [exact Hall|]. by intros r [? _].
  - unfold othersOf. destruct (item storage) as [[| |]|]; try done.
    apply Forall_forall. by intros r [? _]%list_elem_of_filter.
Qed.

Lemma others_after_save this storage now uid' :
  storeInv this -> uid' <> store_userId this ->
  newUserDataStore uid'
    (mkStorage (Some (Saved 1 (othersOf (store_userId this) storage ++ ratings this) now)) None)
  = newUserDataStore uid' storage.
Proof.
  intros [Hnd Hall] Hne. unfold newUserDataStore at 1. rewrite load_Saved. simpl.
  rewrite filter_app, (filter_none _ (ratings this)), app_nil_r.
  2:{ eapply Forall_impl; [exact Hall|]. intros r [? _]. simpl. congruence. }
  unfold othersOf, newUserDataStore.
  destruct storage as [[[m| |v rs t]|] q]; simpl; try done.
  rewrite load_Saved. simpl. f_equal. f_equal.
  rewrite list_filter_filter. apply list_filter_iff. intros r. simpl. split; [tauto|].
  intros ->. done.
Qed.

Lemma persist_cases this storage now ok res this' storage' :
  persist this storage now ok = (res, this', storage') ->
  this' = this
  /\ ((success res = false /\ storage' = storage
       /\ exists message,
            res = mkResult false None (Some ("Failed to save to localStorage: " +:+ message))
            /\ (item storage = Some (Unparsable message)
                \/ quotaExceeded storage = Some message))
      \/ (healthy storage /\ res = ok
          /\ storage'
             = mkStorage
                 (Some (Saved 1 (othersOf (store_userId this) storage ++ ratings this) now))
                 None)).
Proof.
  unfold persist.
  destruct (save_cases (A:=Rating) this storage now) as [(message & Hc & ->)|(Hh & ->)]; simpl.
  - intros [= <- <- <-]. split; [done|]. left. repeat split; [].
    exists message. split; [done|]. destruct Hc as [?|[_ ?]]; auto.
  - intros [= <- <- <-]. split; [done|]. right. done.
Qed.

Lemma perform_cases op this storage now :
  match effect op this now with
  | None => exists message,
      perform op this storage now = (mkResult false None (Some message), this, storage)
  | Some (map, ok) =>
      perform op this storage now = persist (mkStore (store_userId this) map) storage now ok
  end.
Proof.
  destruct op as [mid s|mid|]; simpl.
  - unfold addRating. case_bool_decide as Hs; [by eexists|].
    destruct (Js.truthy (Js.get MOVIE_MAP mid)); [|by eexists]. simpl.
    unfold newRating. rewrite bool_decide_eq_false_2 by done. done.
  - unfold deleteRating. destruct (mapGet mid (ratings this)); [done|by eexists].
  - done.
Qed.

Lemma effect_inv op this now map ok :
  storeInv this -> effect op this now = Some (map, ok) ->
  storeInv (mkStore (store_userId this) map).
Proof.
  intros [Hnd Hall] He. destruct op as [mid s|mid|]; simpl in He.
  - case_bool_decide as Hs; [done|]. destruct (Js.truthy (Js.get MOVIE_MAP mid)); [|done].
    injection He as <- <-. split; simpl; [by apply mapSet_NoDup|].
    apply Forall_forall. intros x [->|Hx]%mapSet_elem; [simpl; split; [done|lia]|].
    by apply (proj1 (Forall_forall _ _) Hall).
  - destruct (mapGet mid (ratings this)); [|done]. injection He as <- <-.
    split; simpl.
    + unfold mapDelete. apply NoDup_fmap_2_strong; [|by apply NoDup_filter, (NoDup_fmap_1 movieId)].
      intros x y [_ Hx]%list_elem_of_filter [_ Hy]%list_elem_of_filter Hxy.
      by apply (NoDup_fmap_eq movieId (ratings this)).
    + apply Forall_forall. intros x [_ Hx]%list_elem_of_filter.
      by apply (proj1 (Forall_forall _ _) Hall).
  - injection He as <- <-. split; simpl; [apply NoDup_nil_2|done].
Qed.

Lemma perform_outcome op this storage now res this' storage' :
  perform op this storage now = (res, this', storage') ->
  (effect op this now = None /\ success res = false /\ this' = this /\ storage' = storage)
  \/ exists map ok,
       effect op this now = Some (map, ok)
       /\ this' = mkStore (store_userId this) map
       /\ ((success res = false /\ storage' = storage
            /\ exists message,
                 item storage = Some (Unparsable message)
                 \/ quotaExceeded storage = Some message)
           \/ (healthy storage /\ res = ok
               /\ storage'
                  = mkStorage
                      (Some (Saved 1 (othersOf (store_userId this) storage ++ map) now))
                      None)).
Proof.
  intros Hp. pose proof (perform_cases op this storage now) as Hc.
  destruct (effect op this now) as [[map ok]|] eqn:He.
  - right. exists map, ok. split; [done|]. rewrite Hc in Hp.
    apply persist_cases in Hp as [-> Hp]. split; [done|].
    destruct Hp as [(? & ? & message & _ & ?)|?]; [left|right; done].
    repeat split; [done..|by exists message].
  - left. destruct Hc as [message Hc]. rewrite Hc in Hp. by injection Hp as <- <- <-.
Qed.

Lemma effect_success op this now map ok : effect op this now = Some (map, ok) -> success ok = true.
Proof.
  destruct op as [mid s|mid|]; simpl.
  - case_bool_decide; [done|]. destruct (Js.truthy (Js.get MOVIE_MAP mid)); [|done].
    by intros [= <- <-].
  - destruct (mapGet mid (ratings this)); [|done]. by intros [= <- <-].
  - by intros [= <- <-].
Qed.

(** X10.  The store keeps its ratings well formed: after it is constructed
    from any stored data, and after every [addRating], [deleteRating] and
    [clearAllRatings], whatever the outcome, it holds at most one rating per
    movie, each one of its own user and with a score from 1 to 5. *)
Theorem X10_store_invariant :
  (forall uid storage, storeInv (newUserDataStore uid storage))
  /\ (forall op this storage now res this' storage',
        storeInv this ->
        perform op this storage now = (res, this', storage') ->
        storeInv this').
Proof.
  split; [apply newUserDataStore_inv|].
  intros op this storage now res this' storage' Hinv Hp.
  apply perform_outcome in Hp as [(_ & _ & -> & _)|(map & ok & He & -> & _)]; [done|].
  by apply (effect_inv op this now map ok).
Qed.

(** X11.  [addRating] succeeds exactly when the score is in 1..5, the movie
    id is a key of the catalogue or one of the property names that the
    catalogue object inherits ([toString], [constructor], ...: the check
    [!MOVIE_MAP[movieId]] lets them pass) and the stored item can be read and
    written.  A score outside 1..5, or a movie id that is neither, is refused
    with a message, and then neither the ratings in memory nor the stored data
    change. *)
Theorem X11_addRating_outcome this storage now mid s res this' storage' :
  addRating this storage now mid s = (res, this', storage') ->
  (success res = true
   <-> (1 <= s <= 5)%Z
       /\ (is_Some (MOVIE_MAP !! mid) \/ mid ∈ Js.OBJECT_PROTOTYPE)
       /\ healthy storage)
  /\ ((s < 1 \/ 5 < s)%Z \/ (MOVIE_MAP !! mid = None /\ mid ∉ Js.OBJECT_PROTOTYPE) ->
      success res = false /\ is_Some (error res) /\ this' = this /\ storage' = storage).
Proof.
  intros Hp. pose proof Hp as Hp'.
  assert (Hkey : Js.truthy (Js.get MOVIE_MAP mid) = true
                 <-> is_Some (MOVIE_MAP !! mid) \/ mid ∈ Js.OBJECT_PROTOTYPE).
  { unfold Js.get. destruct (MOVIE_MAP !! mid) as [m|].
    - split; [left; by eexists|done].
    - case_bool_decide as Hin; simpl; [split; [by right|done]|].
      split; [done|]. by intros [[? [=]]|?]. }
  apply (perform_outcome (AddRating mid s)) in Hp'
    as [(He & Hf & -> & ->)|(map & ok & He & -> & Hcase)]; simpl in He.
  - (* refused *)
    assert (Hbad : (s < 1 \/ 5 < s)%Z \/ Js.truthy (Js.get MOVIE_MAP mid) = false).
    { case_bool_decide as Hs; [left; lia|].
      destruct (Js.truthy (Js.get MOVIE_MAP mid)); [done|by right]. }
    split.
    + rewrite Hf. split; [done|]. intros (Hs & Hm & _).
      destruct Hbad as [?|Hn]; [lia|]. apply Hkey in Hm. congruence.
    + intros _. split; [done|]. split; [|done].
      apply (f_equal (fun x => error (fst (fst x)))) in Hp. simpl in Hp. rewrite <- Hp.
      unfold addRating. case_bool_decide; [by eexists|].
      destruct Hbad as [?|Hn]; [lia|]. rewrite Hn. by eexists.
  - (* accepted *)
    case_bool_decide as Hs; [done|].
    destruct (Js.truthy (Js.get MOVIE_MAP mid)) eqn:Hm; [|done].
    injection He as <- <-.
    assert (Hgood : (1 <= s <= 5)%Z /\ (is_Some (MOVIE_MAP !! mid) \/ mid ∈ Js.OBJECT_PROTOTYPE)).
    { split; [lia|]. by apply Hkey. }
    split.
    + destruct Hcase as [(Hf & -> & message & Hb)|(Hh & -> & ->)].
      * rewrite Hf. split; [done|]. intros (_ & _ & [Hu Hq]).
        destruct Hb as [Hb|Hb]; [by destruct (Hu message)|congruence].
      * simpl. split; [intros _; by destruct Hgood|done].
    + intros [?|[Hn Hout]]; [lia|]. destruct Hgood as [_ [[m Hsome]|Hin]]; [congruence|done].
Qed.

(** X12.  After [addRating] is called with a valid score for a movie of the
    catalogue, [getRating] returns the new rating for that movie (replacing an
    older one), the ratings of the other movies are as before, and the number
    of ratings grows by one only when the movie had no rating.  This holds
    whether or not the save succeeded. *)
Theorem X12_addRating_then_getRating this storage now mid s res this' storage' :
  (1 <= s <= 5)%Z ->
  is_Some (MOVIE_MAP !! mid) ->
  addRating this storage now mid s = (res, this', storage') ->
  getRating this' mid = mkResult true (Some (mkRating mid (store_userId this) s now)) None
  /\ (forall mid', mid' <> mid -> getRating this' mid' = getRating this mid')
  /\ length (ratings this')
     = (if bool_decide (mid ∈ movieId <$> ratings this) then length (ratings this)
        else S (length (ratings this))).
Proof.
  intros Hs Hm Hp.
  apply (perform_outcome (AddRating mid s)) in Hp as [(He & _)|(map & ok & He & -> & _)];
    simpl in He; rewrite bool_decide_eq_false_2 in He by lia;
    destruct Hm as [m Hm]; rewrite (get_Own _ _ _ Hm) in He; simpl in He;
    [done|].
  injection He as <- <-. unfold getRating. simpl. split; [|split].
  - by rewrite (mapSet_get (mkRating mid (store_userId this) s now)).
  - intros mid' Hne. by rewrite mapSet_get_ne.
  - by rewrite mapSet_length.
Qed.

(** X13.  What has been saved is what is loaded: after an operation that
    reports success, a store constructed anew for the same user from the
    stored data holds exactly the ratings of the store in memory, in the same
    order. *)
Theorem X13_saved_ratings_reload op this storage now res this' storage' :
  storeInv this ->
  perform op this storage now = (res, this', storage') ->
  success res = true ->
  newUserDataStore (store_userId this) storage' = this'.
Proof.
  intros Hinv Hp Hok.
  apply perform_outcome in Hp as [(_ & Hf & _)|(map & ok & He & -> & Hs)]; [congruence|].
  destruct Hs as [(Hf & _)|(_ & _ & ->)]; [congruence|].
  apply (reload_after_save (mkStore (store_userId this) map) storage now).
  by apply (effect_inv op this now map ok).
Qed.

(** X14.  No operation of one user's store changes what another user loads:
    the other users' stored ratings are preserved by every save. *)
Theorem X14_other_users_untouched op this storage now res this' storage' uid' :
  storeInv this ->
  uid' <> store_userId this ->
  perform op this storage now = (res, this', storage') ->
  newUserDataStore uid' storage' = newUserDataStore uid' storage.
Proof.
  intros Hinv Hne Hp.
  apply perform_outcome in Hp as [(_ & _ & _ & ->)|(map & ok & He & -> & Hs)]; [done|].
  destruct Hs as [(_ & -> & _)|(_ & _ & ->)]; [done|].
  apply (others_after_save (mkStore (store_userId this) map) storage now uid'); [|done].
  by apply (effect_inv op this now map ok).
Qed.

(** X15.  [deleteRating] of a movie without a rating reports a failure and
    changes nothing; of a rated movie, it removes that rating from memory and
    leaves the other ratings as they are. *)
Theorem X15_deleteRating this storage now mid res this' storage' :
  deleteRating this storage now mid = (res, this', storage') ->
  (success (getRating this mid) = false ->
     success res = false /\ this' = this /\ storage' = storage)
  /\ (success (getRating this mid) = true ->
        success (getRating this' mid) = false
        /\ forall mid', mid' <> mid -> getRating this' mid' = getRating this mid').
Proof.
  intros Hp. unfold getRating at 1 2.
  apply (perform_outcome (DeleteRating mid)) in Hp
    as [(He & Hf & -> & ->)|(map & ok & He & -> & _)]; simpl in He;
    destruct (mapGet mid (ratings this)) as [r|] eqn:Hg; try done.
  - injection He as <- <-. split; [done|]. intros _. unfold getRating. simpl. split.
    + by rewrite mapGet_delete.
    + intros mid' Hne. by rewrite mapGet_delete_ne.
Qed.

(** X16.  When the stored text does not parse, or [setItem] throws, a valid
    [addRating] reports a failure and leaves the stored data untouched (a
    corrupt item is never overwritten), yet the rating is kept in memory:
    [getRating] returns it. *)
Theorem X16_unsaved_rating_stays_in_memory this storage now mid s message :
  item storage = Some (Unparsable message) \/ quotaExceeded storage = Some message ->
  (1 <= s <= 5)%Z ->
  is_Some (MOVIE_MAP !! mid) ->
  exists res this',
    addRating this storage now mid s = (res, this', storage)
    /\ success res = false
    /\ getRating this' mid = mkResult true (Some (mkRating mid (store_userId this) s now)) None.
Proof.
  intros Hb Hs Hm.
  destruct (addRating this storage now mid s) as [[res this'] storage'] eqn:Hp.
  exists res, this'.
  pose proof Hp as Hp'.
  apply (perform_outcome (AddRating mid s)) in Hp' as [(He & _)|(map & ok & He & -> & Hcase)];
    simpl in He; rewrite bool_decide_eq_false_2 in He by lia;
    destruct Hm as [m Hm]; rewrite (get_Own _ _ _ Hm) in He; simpl in He;
    [done|].
  injection He as <- <-.
  destruct Hcase as [(Hf & -> & _)|([Hu Hq] & _)].
  - split; [done|]. split; [done|]. unfold getRating. simpl.
    by rewrite (mapSet_get (mkRating mid (store_userId this) s now)).
  - destruct Hb as [Hb|Hb]; [by destruct (Hu message)|congruence].
Qed.

Local Open Scope R_scope.

Lemma distribution_foldl k l : forall d0 : gmap Z Z,
  foldl (fun distribution rating => alter Z.succ (score rating) distribution) d0 l !! k
  = (fun n => n + countOf k l)%Z <$> d0 !! k.
Proof.
  unfold countOf. induction l as [|r l IH]; intros d0; simpl.
  - destruct (d0 !! k); simpl; [f_equal; lia|done].
  - rewrite IH, filter_cons. destruct (decide (score r = k)) as [->|Hne].
    + rewrite lookup_alter_eq. destruct (d0 !! k); simpl; [f_equal; lia|done].
    + rewrite lookup_alter_ne by done. done.
Qed.

Lemma score_sum_bounds l : forall a,
  Forall (fun r => (1 <= score r <= 5)%Z) l ->
  a + INR (length l) <= foldl (fun sum r => sum + IZR (score r)) a l
  <= a + 5 * INR (length l).
Proof.
  induction l as [|r l IH]; intros a Hv.
  - simpl. lra.
  - apply Forall_cons in Hv as [[H1 H5] Hv]. cbn [foldl]. rewrite length_cons, S_INR.
    specialize (IH (a + IZR (score r)) Hv).
    apply IZR_le in H1, H5. lra.
Qed.

Lemma getTasteProfile_cases this :
  (Forall (fun r => movieId r ∉ Js.OBJECT_PROTOTYPE) (ratings this) ->
     exists profile, getTasteProfile this = mkResult true (Some profile) None)
  /\ (Exists (fun r => movieId r ∈ Js.OBJECT_PROTOTYPE) (ratings this) ->
        getTasteProfile this
        = mkResult false None
            (Some ("Failed to calculate taste profile: " +:+ Js.NOT_A_FUNCTION))).
Proof.
  unfold getTasteProfile. split.
  - intros Hplain. case_bool_decide; [by eexists|]. cbv zeta.
    rewrite storeSums_Returned; [by eexists|].
    eapply Forall_impl; [exact Hplain|]. intros r Hr. by apply get_plain.
  - intros Hex. rewrite bool_decide_eq_false_2.
    + cbv zeta. by rewrite storeSums_Thrown.
    + destruct (ratings this); [by apply Exists_nil in Hex|done].
Qed.

(** X17.  [getTasteProfileWithStats] succeeds exactly when no rating of the
    store names a property that the catalogue object inherits (such a rating
    is there after [addRating('toString', 3)]); otherwise it passes on the
    failure of [getTasteProfile], with its message and without data.  When it
    succeeds, its statistics count the ratings, give for each score from 1 to
    5 the number of ratings with that score, and give an average rating of 0
    for an empty store and between 1 and 5 otherwise. *)
Theorem X17_getTasteProfileWithStats this :
  (success (getTasteProfileWithStats this) = true
   <-> Forall (fun r => movieId r ∉ Js.OBJECT_PROTOTYPE) (ratings this))
  /\ (success (getTasteProfileWithStats this) = false ->
      data (getTasteProfileWithStats this) = None
      /\ is_Some (error (getTasteProfileWithStats this)))
  /\ (Forall (fun r => movieId r ∉ Js.OBJECT_PROTOTYPE) (ratings this) ->
      exists pws,
        getTasteProfileWithStats this = mkResult true (Some pws) None
        /\ profile pws = data (getTasteProfile this)
        /\ totalRatings (stats pws) = length (ratings this)
        /\ (forall k, (1 <= k <= 5)%Z ->
              ratingDistribution (stats pws) !! k = Some (countOf k (ratings this)))
        /\ (ratings this = [] -> averageRating (stats pws) = 0)
        /\ (ratings this <> [] ->
            Forall (fun r => (1 <= score r <= 5)%Z) (ratings this) ->
            1 <= averageRating (stats pws) <= 5)).
Proof.
  destruct (getTasteProfile_cases this) as [Hplain Hbad].
  assert (Hdec : Forall (fun r => movieId r ∉ Js.OBJECT_PROTOTYPE) (ratings this)
                 \/ Exists (fun r => movieId r ∈ Js.OBJECT_PROTOTYPE) (ratings this)).
  { destruct (decide (Forall (fun r => movieId r ∉ Js.OBJECT_PROTOTYPE) (ratings this)))
      as [H|H]; [by left|right].
    apply not_Forall_Exists in H; [|apply _].
    eapply Exists_impl; [exact H|]. intros r Hr. simpl in Hr.
    by destruct (decide (movieId r ∈ Js.OBJECT_PROTOTYPE)). }
  unfold getTasteProfileWithStats. split; [|split].
  - destruct Hdec as [Hall|Hex].
    + destruct (Hplain Hall) as [profile ->]. done.
    + rewrite (Hbad Hex). simpl. split; [done|]. intros Hall.
      apply Exists_exists in Hex as (r & Hr & Hin).
      by destruct (proj1 (Forall_forall _ _) Hall r Hr).
  - destruct Hdec as [Hall|Hex].
    + destruct (Hplain Hall) as [profile ->]. done.
    + rewrite (Hbad Hex). simpl. intros _. split; [done|by eexists].
  - intros Hall. destruct (Hplain Hall) as [profile Hp]. rewrite Hp. simpl.
    eexists. split; [done|]. simpl.
    split; [done|]. split; [done|]. split; [|split].
    + intros k Hk. unfold _getRatingDistribution. rewrite distribution_foldl.
      assert (Hk' : (k = 1 \/ k = 2 \/ k = 3 \/ k = 4 \/ k = 5)%Z) by lia.
      destruct Hk' as [-> | [-> | [-> | [-> | ->]]]]; by vm_compute.
    + by intros ->.
    + intros Hne Hv. destruct (ratings this) as [|r l] eqn:E; [done|].
      rewrite bool_decide_eq_true_2 by (simpl; lia).
      pose proof (score_sum_bounds (r :: l) 0 Hv) as [Hlo Hhi].
      assert (0 < INR (length (r :: l))) by (apply lt_0_INR; simpl; lia).
      split.
      * apply (Rmult_le_reg_r (INR (length (r :: l)))); [done|].
        unfold Rdiv. rewrite Rmult_assoc, Rinv_l by lra. lra.
      * apply (Rmult_le_reg_r (INR (length (r :: l)))); [done|].
        unfold Rdiv. rewrite Rmult_assoc, Rinv_l by lra. lra.
Qed.

Local Close Scope R_scope.

Lemma alice_inv : storeInv alice.
Proof. split; [compute_done|]. repeat constructor; simpl; lia. Qed.

Lemma X10_witness :
  exists res this' storage',
    perform (AddRating "movie-1" 5) alice sharedStorage 1000 = (res, this', storage')
    /\ storeInv this'.
Proof.
  destruct (perform (AddRating "movie-1" 5) alice sharedStorage 1000)
    as [[res this'] storage'] eqn:E.
  exists res, this', storage'. split; [reflexivity|].
  exact (proj2 X10_store_invariant _ _ _ _ _ _ _ alice_inv E).
Defined.

Lemma X11_witness :
  exists res this' storage',
    addRating alice sharedStorage 1000 "toString" 3 = (res, this', storage')
    /\ success res = true.
Proof.
  destruct (addRating alice sharedStorage 1000 "toString" 3) as [[res this'] storage'] eqn:E.
  exists res, this', storage'. split; [reflexivity|].
  apply (proj1 (X11_addRating_outcome alice sharedStorage 1000 "toString" 3 res this' storage' E)).
  split; [lia|]. split; [right; unfold Js.OBJECT_PROTOTYPE; set_solver|].
  split; [done|reflexivity].
Defined.

Lemma X12_witness :
  exists res this' storage',
    addRating alice sharedStorage 1000 "movie-3" 5 = (res, this', storage')
    /\ getRating this' "movie-3" = mkResult true (Some (mkRating "movie-3" "alice" 5 1000)) None
    /\ length (ratings this') = 1%nat.
Proof.
  destruct (addRating alice sharedStorage 1000 "movie-3" 5) as [[res this'] storage'] eqn:E.
  exists res, this', storage'. split; [reflexivity|].
  destruct (X12_addRating_then_getRating alice sharedStorage 1000 "movie-3" 5 res this' storage')
    as (Hget & _ & Hlen); [lia|by eexists|exact E|].
  split; [exact Hget|exact Hlen].
Defined.

Lemma X13_witness :
  exists res this' storage',
    perform (AddRating "movie-1" 5) alice sharedStorage 1000 = (res, this', storage')
    /\ newUserDataStore "alice" storage' = this'.
Proof.
  destruct (perform (AddRating "movie-1" 5) alice sharedStorage 1000)
    as [[res this'] storage'] eqn:E.
  exists res, this', storage'. split; [reflexivity|].
  refine (X13_saved_ratings_reload _ _ _ _ res this' storage' alice_inv E _).
  vm_compute in E. by injection E as <- _ _.
Defined.

Lemma X14_witness :
  exists res this' storage',
    perform (DeleteRating "movie-3") alice sharedStorage 1000 = (res, this', storage')
    /\ newUserDataStore "bob" storage' = newUserDataStore "bob" sharedStorage.
Proof.
  destruct (perform (DeleteRating "movie-3") alice sharedStorage 1000)
    as [[res this'] storage'] eqn:E.
  exists res, this', storage'. split; [reflexivity|].
  by refine (X14_other_users_untouched _ _ _ _ res this' storage' "bob" alice_inv _ E).
Defined.

Lemma X15_witness :
  exists res this' storage',
    deleteRating alice sharedStorage 1000 "movie-3" = (res, this', storage')
    /\ success (getRating this' "movie-3") = false.
Proof.
  destruct (deleteRating alice sharedStorage 1000 "movie-3") as [[res this'] storage'] eqn:E.
  exists res, this', storage'. split; [reflexivity|].
  by apply (X15_deleteRating alice sharedStorage 1000 "movie-3" res this' storage' E).
Defined.

Lemma X16_witness :
  exists res this',
    addRating alice corruptStorage 1000 "movie-1" 5 = (res, this', corruptStorage)
    /\ success res = false
    /\ getRating this' "movie-1" = mkResult true (Some (mkRating "movie-1" "alice" 5 1000)) None.
Proof.
  apply (X16_unsaved_rating_stays_in_memory alice corruptStorage 1000 "movie-1" 5
           "Unexpected token"); [by left|lia|by eexists].
Defined.

Lemma X17_witness :
  exists pws,
    getTasteProfileWithStats alice = mkResult true (Some pws) None
    /\ ratingDistribution (stats pws) !! 2%Z = Some 1%Z
    /\ (1 <= averageRating (stats pws) <= 5)%R.
Proof.
  assert (Hplain : Forall (fun r => movieId r ∉ Js.OBJECT_PROTOTYPE) (ratings alice)).
  { repeat constructor. simpl. unfold Js.OBJECT_PROTOTYPE. set_solver. }
  destruct (proj2 (proj2 (X17_getTasteProfileWithStats alice)) Hplain)
    as (pws & Heq & _ & _ & Hd & _ & Havg).
  exists pws. split; [exact Heq|]. split.
  - apply (Hd 2%Z). lia.
  - apply Havg; [done|]. repeat constructor; simpl; lia.
Defined.

End Store.

(** ** The trend analysis and the exploration filters *)

Section Exploration.
Import FilmAttributes TasteProfileEngine.
Local Open Scope R_scope.

Lemma period_fold d ratings : forall s w,
  foldl (fun '(sum, weightSum) rating =>
           match MOVIE_MAP !! movieId rating with
           | Some movie =>
               let weight := IZR (score rating) in
               (sum + getAttributeScore movie d * weight, weightSum + weight)
           | None => (sum, weightSum)
           end) (s, w) ratings
  = (s + gatheredSum MOVIE_MAP d ratings, w + gatheredWeight MOVIE_MAP ratings).
Proof.
  unfold gatheredSum, gatheredWeight, sumOver.
  induction ratings as [|r l IH]; intros s w; simpl.
  - f_equal; lra.
  - destruct (MOVIE_MAP !! movieId r) as [m|]; rewrite IH; unfold weight; f_equal; lra.
Qed.

Lemma period_sums d ratings s w :
  Forall (fun r => movieId r ∉ Js.OBJECT_PROTOTYPE) ratings ->
  Js.forEach
    (fun '(sum, weightSum) rating =>
       match Js.get MOVIE_MAP (movieId rating) with
       | Js.Own movie =>
           let weight := IZR (score rating) in
           Js.Returned (sum + getAttributeScore movie d * weight, weightSum + weight)
       | Js.Inherited => Js.Thrown Js.NOT_A_FUNCTION
       | Js.Undefined => Js.Returned (sum, weightSum)
       end)
    ratings (s, w)
  = Js.Returned (s + gatheredSum MOVIE_MAP d ratings, w + gatheredWeight MOVIE_MAP ratings).
Proof.
  intros Hplain. rewrite <- period_fold. apply forEach_Returned.
  intros [sum weightSum] r Hr.
  rewrite (get_not_Inherited _ _ (get_plain _ _ (proj1 (Forall_forall _ _) Hplain r Hr))).
  by destruct (MOVIE_MAP !! movieId r).
Qed.

Lemma period_throws d ratings s w :
  Exists (fun r => movieId r ∈ Js.OBJECT_PROTOTYPE) ratings ->
  Js.forEach
    (fun '(sum, weightSum) rating =>
       match Js.get MOVIE_MAP (movieId rating) with
       | Js.Own movie =>
           let weight := IZR (score rating) in
           Js.Returned (sum + getAttributeScore movie d * weight, weightSum + weight)
       | Js.Inherited => Js.Thrown Js.NOT_A_FUNCTION
       | Js.Undefined => Js.Returned (sum, weightSum)
       end)
    ratings (s, w)
  = Js.Thrown Js.NOT_A_FUNCTION.
Proof.
  intros Hex. apply forEach_Thrown.
  - intros [sum weightSum] r.
    destruct (Js.get MOVIE_MAP (movieId r)); [right|left|right]; by eexists.
  - eapply Exists_impl; [exact Hex|]. intros r Hr [sum weightSum]. simpl in Hr.
    by rewrite (get_MOVIE_MAP_Inherited _ Hr).
Qed.

Lemma calculatePeriodProfile_eq ratings :
  Forall (fun r => movieId r ∉ Js.OBJECT_PROTOTYPE) ratings ->
  ExplorationUI.calculatePeriodProfile ratings
  = Js.Returned
      (foldl (fun p a => <[attr_id a := periodValue ratings (attr_id a)]> p) ∅ FILM_ATTRIBUTES).
Proof.
  intros Hplain. unfold ExplorationUI.calculatePeriodProfile.
  apply forEach_Returned. intros p a _. cbv zeta.
  rewrite (period_sums _ _ _ _ Hplain), !Rplus_0_l. done.
Qed.

Lemma calculatePeriodProfile_throws ratings :
  Exists (fun r => movieId r ∈ Js.OBJECT_PROTOTYPE) ratings ->
  ExplorationUI.calculatePeriodProfile ratings = Js.Thrown Js.NOT_A_FUNCTION.
Proof.
  intros Hex. unfold ExplorationUI.calculatePeriodProfile. apply forEach_Thrown.
  - intros p a. left. cbv zeta. by rewrite (period_throws _ _ _ _ Hex).
  - unfold FILM_ATTRIBUTES. apply Exists_cons_hd. intros p. cbv zeta.
    by rewrite (period_throws _ _ _ _ Hex).
Qed.

Lemma periodProfile_lookup ratings d :
  foldl (fun p a => <[attr_id a := periodValue ratings (attr_id a)]> p)
        (∅ : gmap string R) FILM_ATTRIBUTES !! d
  = if bool_decide (d ∈ attributeIds) then Some (periodValue ratings d) else None.
Proof.
  case_bool_decide as Hd.
  - by apply (foldl_insert_lookup (periodValue ratings)).
  - by rewrite (foldl_insert_lookup_notin (periodValue ratings)).
Qed.

Lemma getTasteProfile_data (this : DataStore.UserDataStore) d :
  Forall (fun r => movieId r ∉ Js.OBJECT_PROTOTYPE) (DataStore.ratings this) ->
  (DataStore.data (DataStore.getTasteProfile this) ≫= fun profile => profile !! d)
  = if bool_decide (d ∈ attributeIds) then Some (periodValue (DataStore.ratings this) d) else None.
Proof.
  intros Hplain. unfold DataStore.getTasteProfile. case_bool_decide as He.
  - simpl. rewrite _getEmptyProfile_lookup. case_bool_decide; [|done].
    destruct (DataStore.ratings this); [|done]. unfold periodValue.
    rewrite bool_decide_eq_false_2; [done|]. unfold gatheredWeight, sumOver. simpl. lra.
  - cbv zeta. rewrite storeSums_Returned.
    2:{ eapply Forall_impl; [exact Hplain|]. intros r Hr. by apply get_plain. }
    cbn [DataStore.data mbind option_bind].
    case_bool_decide as Hd.
    + rewrite final_loop_eq, (foldl_insert_lookup _ _ _ _ Hd).
      destruct (initAccumulators_lookup d Hd) as [Hs Hw].
      destruct (accumulate_all_lookup MOVIE_MAP (DataStore.ratings this) _ d _ _ Hd Hs Hw)
        as [Hs' Hw'].
      unfold averageOr. rewrite Hs', Hw'.
      rewrite !Rplus_0_l. done.
    + rewrite (final_loop_eq 0).
      by rewrite (foldl_insert_lookup_notin (averageOr 0 _)).
Qed.

(** X18.  The three implementations of the rating-weighted profile agree on
    ratings that name no property which the catalogue object inherits: the
    data store's [getTasteProfile] returns the profile that the trend analysis
    ([calculatePeriodProfile]) computes from the same ratings, and the engine's
    [calculateTasteProfile] computes that same profile too as soon as the
    ratings of known movies have a positive total weight.  When a rating does
    name such a property ([toString], say), the trend analysis throws and the
    data store reports a failure. *)
Theorem X18_three_profiles_agree :
  (forall this : DataStore.UserDataStore,
      Forall (fun r => movieId r ∉ Js.OBJECT_PROTOTYPE) (DataStore.ratings this) ->
      exists profile,
        ExplorationUI.calculatePeriodProfile (DataStore.ratings this) = Js.Returned profile
        /\ DataStore.getTasteProfile this = DataStore.mkResult true (Some profile) None)
  /\ (forall ratings : list Rating,
        Forall (fun r => movieId r ∉ Js.OBJECT_PROTOTYPE) ratings ->
        0 < gatheredWeight MOVIE_MAP ratings ->
        ExplorationUI.calculatePeriodProfile ratings
        = Js.Returned (calculateTasteProfile ratings MOVIE_MAP))
  /\ (forall this : DataStore.UserDataStore,
        Exists (fun r => movieId r ∈ Js.OBJECT_PROTOTYPE) (DataStore.ratings this) ->
        ExplorationUI.calculatePeriodProfile (DataStore.ratings this)
        = Js.Thrown Js.NOT_A_FUNCTION
        /\ DataStore.success (DataStore.getTasteProfile this) = false).
Proof.
  split; [|split].
  - intros this Hplain. rewrite (calculatePeriodProfile_eq _ Hplain).
    eexists. split; [done|].
    assert (Hd : exists profile,
               DataStore.getTasteProfile this = DataStore.mkResult true (Some profile) None).
    { unfold DataStore.getTasteProfile. case_bool_decide; [by eexists|]. cbv zeta.
      rewrite storeSums_Returned; [by eexists|].
      eapply Forall_impl; [exact Hplain|]. intros r Hr. by apply get_plain. }
    destruct Hd as [profile Heq]. rewrite Heq. do 2 f_equal.
    apply map_eq. intros d. pose proof (getTasteProfile_data this d Hplain) as Hl.
    rewrite Heq in Hl. simpl in Hl. by rewrite Hl, periodProfile_lookup.
  - intros ratings Hplain Hw. rewrite (calculatePeriodProfile_eq _ Hplain). f_equal.
    apply map_eq. intros d.
    rewrite periodProfile_lookup. case_bool_decide as Hd.
    + rewrite calculateTasteProfile_lookup_all by done. unfold periodValue.
      by rewrite !bool_decide_eq_true_2.
    + by rewrite calculateTasteProfile_notin.
  - intros this Hex. split; [by apply calculatePeriodProfile_throws|].
    unfold DataStore.getTasteProfile. rewrite bool_decide_eq_false_2.
    + cbv zeta. by rewrite storeSums_Thrown.
    + destruct (DataStore.ratings this); [by apply Exists_nil in Hex|done].
Qed.

Lemma scenario_weight : gatheredWeight MOVIE_MAP scenarioRatings = 6.
Proof.
  unfold gatheredWeight, sumOver, scenarioRatings. simpl.
  replace (MOVIE_MAP !! "movie-1") with
    (Some (mkMovie "movie-1" "Mad Max: Fury Road" 2015 (attrs6 0.95 0.4 0.1 0.7 0.5 0.85)))
    by reflexivity.
  replace (MOVIE_MAP !! "movie-3") with
    (Some (mkMovie "movie-3" "Superbad" 2007 (attrs6 0.3 0.4 0.95 0.2 0.7 0.3)))
    by reflexivity.
  unfold weight. simpl. lra.
Qed.

Lemma X18_witness :
  ExplorationUI.calculatePeriodProfile scenarioRatings
  = Js.Returned (calculateTasteProfile scenarioRatings MOVIE_MAP).
Proof.
  apply (proj1 (proj2 X18_three_profiles_agree)).
  - repeat constructor; simpl; unfold Js.OBJECT_PROTOTYPE; set_solver.
  - rewrite scenario_weight. lra.
Defined.

Lemma matchesAll_spec fs m :
  ExplorationUI.matchesAll fs m = true <-> forall f, f ∈ fs -> 0.5 < getAttributeScore m f.
Proof.
  unfold ExplorationUI.matchesAll. rewrite forallb_forall. split.
  - intros H f Hf. apply list_elem_of_In in Hf. by apply H, bool_decide_eq_true in Hf.
  - intros H f Hf. apply bool_decide_eq_true, H. by apply list_elem_of_In.
Qed.

Lemma exploration_applyFilters_elem fs movies m :
  m ∈ ExplorationUI.applyFilters fs movies
  <-> m ∈ movies /\ forall f, f ∈ fs -> 0.5 < getAttributeScore m f.
Proof.
  unfold ExplorationUI.applyFilters. case_bool_decide as He.
  - destruct fs; [|done]. split; [intros H; split; [done|]; by intros f ?%elem_of_nil|by intros [? _]].
  - rewrite list_elem_of_filter. rewrite Is_true_true, matchesAll_spec. tauto.
Qed.

(** X19.  The exploration filters are conjunctive: a movie is shown exactly
    when it scores above 0.5 on every selected attribute (all movies, when
    none is selected); the shown movies keep the order of the catalogue; and
    selecting one more attribute never adds a movie. *)
Theorem X19_exploration_filters_conjunctive fs movies :
  (forall m, m ∈ ExplorationUI.applyFilters fs movies
             <-> m ∈ movies /\ forall f, f ∈ fs -> 0.5 < getAttributeScore m f)
  /\ ExplorationUI.applyFilters fs movies `sublist_of` movies
  /\ (forall f, ExplorationUI.applyFilters (fs ++ [f]) movies
                ⊆ ExplorationUI.applyFilters fs movies).
Proof.
  split; [apply exploration_applyFilters_elem|]. split.
  - unfold ExplorationUI.applyFilters. case_bool_decide; [done|apply sublist_filter].
  - intros f m. rewrite !exploration_applyFilters_elem. intros [Hm Hall]. split; [done|].
    intros g Hg. apply Hall. apply elem_of_app. by left.
Qed.

Lemma X19_witness :
  ExplorationUI.applyFilters (["action"] ++ ["dark"]) FilmAttributes.SAMPLE_MOVIES
  ⊆ ExplorationUI.applyFilters ["action"] FilmAttributes.SAMPLE_MOVIES.
Proof.
  apply (X19_exploration_filters_conjunctive ["action"] FilmAttributes.SAMPLE_MOVIES).
Defined.

End Exploration.

(** ** The worker's cache and stored profile *)

Section WorkerCache.
Import WorkerRecommendations.
Local Open Scope Z_scope.

Lemma fresh_call_cache_row db env options r db' :
  generateRecommendations db env options = (Js.Returned r, db') ->
  cached r = Some false ->
  exists profile reasoning,
    loadTasteProfile db = Some profile
    /\ getCachedRecommendations db (contextOf options (effectiveCount options)) (now env) = None
    /\ db' = (if cacheWriteFails env then db
              else mkDB (movies db) (taste_profile db)
                     (recommendations db
                      ++ [cacheRowOf profile env options (res_recommendations r) reasoning])).
Proof.
  intros Hgen Hc. unfold generateRecommendations in Hgen.
  destruct (loadTasteProfile db) as [profile|]; [|by result_of Hgen].
  destruct (getCachedRecommendations _ _ _) eqn:Hmiss; [by result_of Hgen|].
  case_bool_decide as Hempty; [by result_of Hgen|].
  cbv zeta in Hgen.
  destruct (rankWithAI _ _) as [[|r0 rs]|] eqn:Hai.
  - injection Hgen as <- <-. by eexists _, _.
  - destruct (negb _); [done|]. injection Hgen as <- <-. by eexists _, _.
  - injection Hgen as <- <-. by eexists _, _.
Qed.

Lemma newest_None (rows : list CacheRow) :
  foldl (fun best row =>
           match best with
           | None => Some row
           | Some b => if (created_at b <? created_at row)%Z then Some row else Some b
           end) None rows = None ->
  rows = [].
Proof.
  destruct rows as [|row rows]; [done|]. simpl. intros H. exfalso.
  revert H. generalize row. induction rows as [|x l IH]; intros b; simpl; [done|].
  destruct (created_at b <? created_at x); apply IH.
Qed.

Lemma getCachedRecommendations_None db ctx t :
  getCachedRecommendations db ctx t = None ->
  filter (fun row => context row = ctx /\ (t < expires_at row)%Z) (recommendations db) = [].
Proof.
  unfold getCachedRecommendations. intros H.
  apply newest_None. by destruct (foldl _ None _).
Qed.

Lemma getCachedRecommendations_fresh db ctx t t' row :
  getCachedRecommendations db ctx t = None ->
  t <= t' ->
  context row = ctx -> t' < expires_at row ->
  getCachedRecommendations
    (mkDB (movies db) (taste_profile db) (recommendations db ++ [row])) ctx t'
  = Some (mkCached (recommended_movie_ids row) (reasoning row) (confidence_score row)
            (created_at row)).
Proof.
  intros Hmiss Hle Hctx Hexp. apply getCachedRecommendations_None in Hmiss.
  unfold getCachedRecommendations. simpl. rewrite filter_app.
  assert (Hold : filter (fun row => context row = ctx /\ (t' < expires_at row)%Z)
                   (recommendations db) = []).
  { apply filter_none, Forall_forall. intros x Hx [Hc He].
    assert (Hin : x ∈ filter (fun row => context row = ctx /\ (t < expires_at row)%Z)
                    (recommendations db)) by (apply list_elem_of_filter; split; [split; [done|lia]|done]).
    rewrite Hmiss in Hin. by apply elem_of_nil in Hin. }
  rewrite Hold. simpl. rewrite filter_cons, decide_True by done. done.
Qed.

Lemma find_by_id (movies : list Movie) m :
  NoDup (id <$> movies) -> m ∈ movies ->
  List.find (fun x => (id x =? id m)%Z) movies = Some m.
Proof.
  intros Hnd Hm. destruct (List.find _ movies) as [x|] eqn:Hf.
  - apply find_some in Hf as [Hx He]. apply Z.eqb_eq in He. apply list_elem_of_In in Hx.
    f_equal. by apply (NoDup_fmap_eq id movies).
  - apply list_elem_of_In in Hm. apply (find_none _ _ Hf) in Hm. by rewrite Z.eqb_refl in Hm.
Qed.

Lemma sliceTo_all {A} (n : Z) (l : list A) : Z.of_nat (length l) <= n -> Js.sliceTo n l = l.
Proof.
  intros H. unfold Js.sliceTo. rewrite bool_decide_eq_false_2 by lia.
  apply take_ge. lia.
Qed.

Lemma omap_find_ids (movies : list Movie) (recs : list Recommendation) :
  NoDup (id <$> movies) ->
  Forall (fun rec => movie rec ∈ movies) recs ->
  omap (fun i => List.find (fun m => (id m =? i)%Z) movies) (map (fun r => id (movie r)) recs)
  = movie <$> recs.
Proof.
  intros Hnd. induction 1 as [|rec recs Hrec Hrecs IH]; [done|].
  cbn [map omap list_omap fmap list_fmap]. rewrite find_by_id by done. simpl. by f_equal.
Qed.

(** X20.  A computed list is served again from the cache: when a worker
    call has computed and cached its list, a second call with the same options
    within the next 24 hours returns the same movies in the same order, marked
    as cached, and writes nothing (row ids being unique and the count not
    negative). *)
Theorem X20_worker_second_call_is_cached db env options r db' env' :
  countWellFormed options ->
  NoDup (id <$> movies db) ->
  generateRecommendations db env options = (Js.Returned r, db') ->
  cached r = Some false ->
  cacheWriteFails env = false ->
  now env <= now env' < now env + 24 * 60 * 60 * 1000 ->
  exists r',
    generateRecommendations db' env' options = (Js.Returned r', db')
    /\ cached r' = Some true
    /\ movie <$> res_recommendations r' = movie <$> res_recommendations r.
Proof.
  intros Hwf Hnd Hgen Hc Hw [Hle Hlt].
  destruct (fresh_call_cache_row _ _ _ _ _ Hgen Hc) as (profile & reasoning & Hp & Hmiss & ->).
  rewrite Hw.
  set (row := cacheRowOf profile env options (res_recommendations r) reasoning).
  set (db' := mkDB _ _ _).
  assert (Hhit := getCachedRecommendations_fresh db _ (now env) (now env') row Hmiss Hle
                    eq_refl Hlt).
  fold db' in Hhit.
  destruct (worker_cache_hit db' env' options profile _ Hp Hhit) as (r' & Hgen' & Hc' & Hm).
  exists r'. split; [done|]. split; [done|]. rewrite Hm. simpl.
  rewrite sliceTo_all.
  2:{ rewrite length_map. by apply (worker_length_le_count db env options r _ Hwf Hgen). }
  apply omap_find_ids; [done|].
  apply Forall_forall. intros rec Hrec.
  by apply (worker_fresh_unrated db env options r _ rec Hgen Hc).
Qed.

Lemma six_wellFormed : countWellFormed six.
Proof. intros c [= <-]. lia. Qed.

Lemma X20_witness :
  exists r db' r',
    generateRecommendations smallCatalogue oracleDown six = (Js.Returned r, db')
    /\ generateRecommendations db' (mkEnv 2000 AiThrows false) six = (Js.Returned r', db')
    /\ cached r' = Some true
    /\ movie <$> res_recommendations r' = movie <$> res_recommendations r.
Proof.
  destruct (generateRecommendations smallCatalogue oracleDown six) as [[r|msg] db'] eqn:E;
    [|vm_compute in E; discriminate E].
  pose proof E as E'. vm_compute in E'. injection E' as Hr Hdb.
  destruct (X20_worker_second_call_is_cached smallCatalogue oracleDown six r db'
              (mkEnv 2000 AiThrows false) six_wellFormed) as (r' & H1 & H2 & H3).
  - compute_done.
  - exact E.
  - by rewrite <- Hr.
  - reflexivity.
  - simpl. lia.
  - exists r, db', r'. done.
Defined.



End WorkerCache.

(** ** Both server engines: catalogue rows only, and the api's cache *)

Section ServerEngines.
Local Open Scope Z_scope.

(** X22.  Both server engines recommend rows of the [movies] table only, on
    every path (computed or cached, oracle or fallback): a title or an id that
    the oracle invents never reaches the result. *)
Theorem X22_only_catalogue_rows_are_recommended :
  (forall db env options r db' rec,
      WorkerRecommendations.generateRecommendations db env options = (Js.Returned r, db') ->
      rec ∈ WorkerRecommendations.res_recommendations r ->
      WorkerRecommendations.movie rec ∈ WorkerRecommendations.movies db)
  /\ (forall db env options r db' rec,
      ApiRecommendations.generateRecommendations db env options = (Js.Returned r, db') ->
      rec ∈ ApiRecommendations.res_recommendations r ->
      ApiRecommendations.movie rec ∈ ApiRecommendations.movies db).
Proof.
  split.
  { intros db env options r db' rec.
    intros Hgen Hrec. destruct (WorkerRecommendations.cached r) as [[|]|] eqn:Hc.
    - unfold WorkerRecommendations.generateRecommendations in Hgen.
      destruct (WorkerRecommendations.loadTasteProfile db) as [profile|]; [|by result_of Hgen].
      destruct (WorkerRecommendations.getCachedRecommendations _ _ _) as [c|].
      + injection Hgen as <- <-. simpl in Hrec.
        apply elem_of_lookup_imap in Hrec as (i & m & -> & Hm). simpl.
        apply list_elem_of_lookup_2 in Hm.
        apply list_elem_of_omap in Hm as (om & Hom & ->).
        apply list_elem_of_In, in_map_iff in Hom as (k & Hk & _).
        apply find_some in Hk as [Hk _]. by apply list_elem_of_In.
      + case_bool_decide; [by result_of Hgen|]. cbv zeta in Hgen.
        destruct (WorkerRecommendations.rankWithAI _ _) as [[|r0 rs]|]; try destruct (negb _); try done;
          by result_of Hgen.
    - by apply (worker_fresh_unrated db env options r db' rec Hgen Hc).
    - unfold WorkerRecommendations.generateRecommendations in Hgen.
      destruct (WorkerRecommendations.loadTasteProfile db) as [profile|].
      2:{ injection Hgen as <- <-. by apply elem_of_nil in Hrec. }
      destruct (WorkerRecommendations.getCachedRecommendations _ _ _) as [c|]; [by result_of Hgen|].
      case_bool_decide.
      { injection Hgen as <- <-. by apply elem_of_nil in Hrec. }
      cbv zeta in Hgen.
      destruct (WorkerRecommendations.rankWithAI _ _) as [[|r0 rs]|]; try destruct (negb _); try done;
        by result_of Hgen. }
  { intros db env options r db' rec.
    intros Hgen Hrec. unfold ApiRecommendations.generateRecommendations in Hgen.
    destruct (ApiRecommendations.loadTasteProfile db) as [profile|].
    2:{ injection Hgen as <- <-. by apply elem_of_nil in Hrec. }
    destruct (ApiRecommendations.checkCache _ _ _) as [c|] eqn:Hcache.
    - injection Hgen as <- <-. simpl in Hrec. apply sliceTo_subseteq in Hrec.
      unfold ApiRecommendations.checkCache in Hcache. destruct (foldl _ None _) as [row|]; [|done].
      case_bool_decide; injection Hcache as <-; simpl in Hrec.
      + by apply elem_of_nil in Hrec.
      + by apply rebuild_movie in Hrec as [? _].
    - case_bool_decide.
      { injection Hgen as <- <-. by apply elem_of_nil in Hrec. }
      destruct (ApiRecommendations.generateWithAI _ _) as [generated candidates].
      case_bool_decide.
      { injection Hgen as <- <-. by apply elem_of_nil in Hrec. }
      destruct (ApiRecommendations.saveToCache _ _ _ _ _); [|done].
      injection Hgen as <- <-. simpl in Hrec. by apply rebuild_movie in Hrec as [? _]. }
Qed.

Lemma newest_None_gen {R} (key : R -> Z) (rows : list R) :
  foldl (fun best row =>
           match best with
           | None => Some row
           | Some b => if (key b <? key row)%Z then Some row else Some b
           end) None rows = None ->
  rows = [].
Proof.
  destruct rows as [|row rows]; [done|]. simpl. intros H. exfalso.
  revert H. generalize row. induction rows as [|x l IH]; intros b; simpl; [done|].
  destruct (key b <? key x); apply IH.
Qed.

Lemma api_checkCache_None db key t :
  ApiRecommendations.checkCache db key t = None ->
  filter (fun row => ApiRecommendations.context row = key /\ (t < ApiRecommendations.expires_at row)%Z) (ApiRecommendations.recommendations db) = [].
Proof.
  unfold ApiRecommendations.checkCache. intros H. apply (newest_None_gen ApiRecommendations.created_at).
  destruct (foldl _ None _); [|done]. by case_bool_decide.
Qed.

Lemma api_checkCache_fresh db key t t' row :
  ApiRecommendations.checkCache db key t = None ->
  t <= t' ->
  ApiRecommendations.context row = key -> t' < ApiRecommendations.expires_at row ->
  filter (fun i => i <> "") (map ApiRecommendations.s_imdb_id (ApiRecommendations.recommended_movie_ids row)) <> [] ->
  ApiRecommendations.checkCache (ApiRecommendations.mkDB (ApiRecommendations.movies db) (ApiRecommendations.taste_profile db) (ApiRecommendations.recommendations db ++ [row])) key t'
  = Some (ApiRecommendations.mkCached (ApiRecommendations.rebuild db (ApiRecommendations.recommended_movie_ids row))
            (ApiRecommendations.or0 (ApiRecommendations.confidence_score row))).
Proof.
  intros Hmiss Hle Hctx Hexp Hids. apply api_checkCache_None in Hmiss.
  unfold ApiRecommendations.checkCache. simpl. rewrite filter_app.
  assert (Hold : filter (fun row => ApiRecommendations.context row = key /\ (t' < ApiRecommendations.expires_at row)%Z)
                   (ApiRecommendations.recommendations db) = []).
  { apply filter_none, Forall_forall. intros x Hx [Hc He].
    assert (Hin : x ∈ filter (fun row => ApiRecommendations.context row = key /\ (t < ApiRecommendations.expires_at row)%Z)
                    (ApiRecommendations.recommendations db))
      by (apply list_elem_of_filter; split; [split; [done|lia]|done]).
    rewrite Hmiss in Hin. by apply elem_of_nil in Hin. }
  rewrite Hold. simpl. rewrite filter_cons, decide_True by done. simpl.
  rewrite bool_decide_eq_false_2; [done|].
  intros Hlen. apply Hids. by apply nil_length_inv.
Qed.

Lemma api_fresh_saved db env options r db' :
  ApiRecommendations.generateRecommendations db env options = (Js.Returned r, db') ->
  ApiRecommendations.cached r = false ->
  ApiRecommendations.res_recommendations r <> [] ->
  exists profile entries,
    ApiRecommendations.loadTasteProfile db = Some profile
    /\ ApiRecommendations.checkCache db (ApiRecommendations.buildCacheKey options) (ApiRecommendations.now env) = None
    /\ filter (fun i => i <> "") (map ApiRecommendations.s_imdb_id entries) <> []
    /\ ApiRecommendations.res_recommendations r = ApiRecommendations.rebuild db entries
    /\ db' = ApiRecommendations.mkDB (ApiRecommendations.movies db) (ApiRecommendations.taste_profile db)
               (ApiRecommendations.recommendations db
                ++ [ApiRecommendations.mkCacheRow (ApiRecommendations.buildCacheKey options) entries (Some (ApiRecommendations.p_confidence profile))
                      (ApiRecommendations.now env) (ApiRecommendations.now env + ApiRecommendations.CACHE_DURATION_HOURS * 60 * 60 * 1000)]).
Proof.
  intros Hgen Hc Hne. unfold ApiRecommendations.generateRecommendations in Hgen.
  destruct (ApiRecommendations.loadTasteProfile db) as [profile|]; [|by result_of Hgen].
  destruct (ApiRecommendations.checkCache _ _ _) as [c|] eqn:Hcache; [by result_of Hgen|].
  case_bool_decide; [by result_of Hgen|].
  destruct (ApiRecommendations.generateWithAI _ _) as [generated candidates].
  case_bool_decide as Hids; [by result_of Hgen|].
  unfold ApiRecommendations.saveToCache in Hgen. destruct (ApiRecommendations.cacheWriteFails env); [done|].
  injection Hgen as <- <-. eexists _, _. repeat split; try done.
  intros E. apply Hids. by rewrite E.
Qed.

(** X23.  The api's cache is keyed by mood and filters only: after a call
    that computed a non-empty list, every call within the next 24 hours whose
    options give the same cache key, whatever its count, returns that list cut
    to its own count, marked as cached, and writes nothing. *)
Theorem X23_api_second_call_is_cached db env options r db' env' options' :
  ApiRecommendations.generateRecommendations db env options = (Js.Returned r, db') ->
  ApiRecommendations.cached r = false ->
  ApiRecommendations.res_recommendations r <> [] ->
  ApiRecommendations.buildCacheKey options' = ApiRecommendations.buildCacheKey options ->
  ApiRecommendations.now env <= ApiRecommendations.now env' < ApiRecommendations.now env + 24 * 60 * 60 * 1000 ->
  exists r',
    ApiRecommendations.generateRecommendations db' env' options' = (Js.Returned r', db')
    /\ ApiRecommendations.cached r' = true
    /\ ApiRecommendations.res_recommendations r'
       = Js.sliceTo (ApiRecommendations.effectiveCount options') (ApiRecommendations.res_recommendations r).
Proof.
  intros Hgen Hc Hne Hkey [Hle Hlt].
  destruct (api_fresh_saved _ _ _ _ _ Hgen Hc Hne)
    as (profile & entries & Hp & Hmiss & Hids & Hres & ->).
  set (row := ApiRecommendations.mkCacheRow _ _ _ _ _).
  assert (Hhit := api_checkCache_fresh db _ (ApiRecommendations.now env) (ApiRecommendations.now env') row Hmiss Hle
                    eq_refl Hlt Hids).
  unfold ApiRecommendations.generateRecommendations.
  replace (ApiRecommendations.loadTasteProfile (ApiRecommendations.mkDB _ _ _)) with (Some profile) by (by rewrite <- Hp).
  rewrite Hkey, Hhit. eexists. split; [reflexivity|]. split; [done|]. simpl. by rewrite Hres.
Qed.

Lemma X23_witness :
  exists r db' r',
    ApiRecommendations.generateRecommendations testCatalogue (ApiRecommendations.mkEnv 1000 twoPicks false)
      (ApiRecommendations.mkOptions None None None (Some 2)) = (Js.Returned r, db')
    /\ ApiRecommendations.generateRecommendations db' (ApiRecommendations.mkEnv 2000 ApiRecommendations.AiThrows false)
         (ApiRecommendations.mkOptions None None None (Some 50)) = (Js.Returned r', db')
    /\ ApiRecommendations.cached r' = true
    /\ ApiRecommendations.res_recommendations r' = Js.sliceTo 50 (ApiRecommendations.res_recommendations r).
Proof.
  destruct (ApiRecommendations.generateRecommendations testCatalogue (ApiRecommendations.mkEnv 1000 twoPicks false)
              (ApiRecommendations.mkOptions None None None (Some 2))) as [[r|msg] db'] eqn:E;
    [|vm_compute in E; discriminate E].
  pose proof E as E'. vm_compute in E'. injection E' as Hr Hdb.
  destruct (X23_api_second_call_is_cached testCatalogue (ApiRecommendations.mkEnv 1000 twoPicks false)
              (ApiRecommendations.mkOptions None None None (Some 2)) r db'
              (ApiRecommendations.mkEnv 2000 ApiRecommendations.AiThrows false) (ApiRecommendations.mkOptions None None None (Some 50)) E)
    as (r' & H1 & H2 & H3).
  - by rewrite <- Hr.
  - by rewrite <- Hr.
  - reflexivity.
  - simpl. lia.
  - exists r, db', r'. done.
Defined.

Lemma X22_witness :
  exists r db' rec,
    WorkerRecommendations.generateRecommendations smallCatalogue oracleDown six
    = (Js.Returned r, db')
    /\ rec ∈ WorkerRecommendations.res_recommendations r
    /\ WorkerRecommendations.movie rec ∈ WorkerRecommendations.movies smallCatalogue.
Proof.
  destruct (WorkerRecommendations.generateRecommendations smallCatalogue oracleDown six)
    as [[r|msg] db'] eqn:E; [|vm_compute in E; discriminate E].
  pose proof E as E'. vm_compute in E'. injection E' as Hr Hdb.
  destruct (WorkerRecommendations.res_recommendations r) as [|rec recs] eqn:Hrecs;
    [by rewrite <- Hr in Hrecs|].
  exists r, db', rec. split; [reflexivity|]. split; [rewrite Hrecs; apply list_elem_of_here|].
  refine (proj1 X22_only_catalogue_rows_are_recommended _ _ _ r db' rec E _).
  rewrite Hrecs. apply list_elem_of_here.
Defined.

End ServerEngines.

(** ** Confidence *)

Section Confidence.
Local Open Scope Q_scope.


Lemma toFixed2_nonneg x : 0 <= x -> Js.toFixed2 x = hundredths x.
Proof.
  intros Hx. unfold Js.toFixed2, Js.toFixed, Js.Qltb.
  assert (Qle_bool 0 x = true) as -> by (by apply Qle_bool_iff). done.
Qed.

Lemma hundredths_mono x y : x <= y -> hundredths x <= hundredths y.
Proof.
  intros Hxy. unfold hundredths, Qdiv. apply Qmult_le_compat_r; [|done].
  rewrite <- Zle_Qle. apply Qfloor_resp_le. lra.
Qed.

Lemma hundredths_range x : 0 <= x <= 1 -> 0 <= hundredths x <= 1.
Proof.
  intros [H0 H1]. split.
  - apply Qle_trans with (hundredths 0); [by vm_compute|by apply hundredths_mono].
  - apply Qle_trans with (hundredths 1); [by apply hundredths_mono|by vm_compute].
Qed.

Lemma worker_confidence_cases n :
  (n < 20)%Z /\ WorkerTasteProfile.calculateConfidence n = 0
  \/ (100 <= n)%Z /\ WorkerTasteProfile.calculateConfidence n = 1
  \/ (20 <= n < 100)%Z
     /\ 0 <= inject_Z (n - 20) / inject_Z 80 <= 1
     /\ WorkerTasteProfile.calculateConfidence n = hundredths (inject_Z (n - 20) / inject_Z 80).
Proof.
  unfold WorkerTasteProfile.calculateConfidence, WorkerTasteProfile.MIN_SAMPLE_SIZE.
  destruct (Z.ltb_spec n 20); [by left|]. destruct (Z.leb_spec 100 n); [right; by left|].
  right. right. split; [lia|].
  assert (Hq : 0 <= inject_Z (n - 20) / inject_Z 80 <= 1).
  { split.
    - apply Qle_shift_div_l; [done|]. rewrite Qmult_0_l. rewrite <- (Zle_Qle 0). lia.
    - apply Qle_shift_div_r; [done|]. rewrite Qmult_1_l. rewrite <- Zle_Qle. lia. }
  split; [done|]. change (100 - 20)%Z with 80%Z. apply toFixed2_nonneg, Hq.
Qed.

Lemma worker_confidence_range n : 0 <= WorkerTasteProfile.calculateConfidence n <= 1.
Proof.
  destruct (worker_confidence_cases n) as [[_ ->]|[[_ ->]|(_ & Hq & ->)]]; [done|done|].
  by apply hundredths_range.
Qed.

Lemma Qmin_range a : 0 <= a -> 0 <= Js.Qmin a 1 <= 1.
Proof.
  intros Ha. unfold Js.Qmin. destruct (Qle_bool a 1) eqn:E; [|done].
  apply Qle_bool_iff in E. done.
Qed.

(** X24.  The confidence of a computed profile lies in the range 0..1 in
    both server engines (for the api, given a sample size that is not
    negative), and the worker's confidence never decreases when the sample
    grows. *)
Theorem X24_confidence_range_and_growth :
  (forall n, 0 <= WorkerTasteProfile.calculateConfidence n <= 1)
  /\ (forall n m, (n <= m)%Z ->
        WorkerTasteProfile.calculateConfidence n <= WorkerTasteProfile.calculateConfidence m)
  /\ (forall n genrePreferences, (0 <= n)%Z ->
        0 <= ApiTasteProfile.calculateConfidence n genrePreferences <= 1).
Proof.
  split; [apply worker_confidence_range|]. split.
  - intros n m Hnm.
    destruct (worker_confidence_cases n) as [[Hn ->]|[[Hn ->]|(Hn & Hqn & ->)]].
    + apply worker_confidence_range.
    + destruct (worker_confidence_cases m) as [[Hm ->]|[[Hm ->]|(Hm & Hqm & ->)]];
        [lia|done|lia].
    + destruct (worker_confidence_cases m) as [[Hm ->]|[[Hm ->]|(Hm & Hqm & ->)]]; [lia| |].
      * by apply hundredths_range.
      * apply hundredths_mono. unfold Qdiv. apply Qmult_le_compat_r; [|done].
        rewrite <- Zle_Qle. lia.
  - intros n prefs Hn. unfold ApiTasteProfile.calculateConfidence.
    assert (Hbase : 0 <= Js.Qmin (inject_Z n / 100) 1 <= 1).
    { apply Qmin_range. apply Qle_shift_div_l; [done|]. rewrite Qmult_0_l.
      by rewrite <- (Zle_Qle 0). }
    set (base := Js.Qmin (inject_Z n / 100) 1) in *.
    match goal with |- 0 <= inject_Z (Qfloor (?c * 100 + _)) / 100 <= 1 =>
      assert (Hc : 0 <= c <= 1) end.
    { destruct (0 <? length _)%nat; [|done]. cbv zeta.
      destruct (Js.Qltb _ _); [|done]. split; [|]; nra. }
    by apply hundredths_range in Hc.
Qed.

Lemma X24_witness :
  WorkerTasteProfile.calculateConfidence 30 <= WorkerTasteProfile.calculateConfidence 60.
Proof. apply (proj1 (proj2 X24_confidence_range_and_growth)). lia. Defined.

End Confidence.


(** ** Rating tiers *)

Section Tiers.
Local Open Scope Z_scope.


Lemma four_way_partition {M} (P1 P2 P3 P4 : M -> Prop)
    `{!forall m, Decision (P1 m)} `{!forall m, Decision (P2 m)}
    `{!forall m, Decision (P3 m)} `{!forall m, Decision (P4 m)} (l : list M) :
  (forall m, m ∈ l ->
     (P1 m /\ ~ P2 m /\ ~ P3 m /\ ~ P4 m) \/ (~ P1 m /\ P2 m /\ ~ P3 m /\ ~ P4 m)
     \/ (~ P1 m /\ ~ P2 m /\ P3 m /\ ~ P4 m) \/ (~ P1 m /\ ~ P2 m /\ ~ P3 m /\ P4 m)) ->
  filter P1 l ++ filter P2 l ++ filter P3 l ++ filter P4 l ≡ₚ l.
Proof.
  induction l as [|m l IH]; intros Hpart; [done|].
  assert (IH' := IH (fun x Hx => Hpart x (list_elem_of_further _ _ _ Hx))).
  rewrite !filter_cons.
  destruct (Hpart m (list_elem_of_here _ _)) as [(?&?&?&?)|[(?&?&?&?)|[(?&?&?&?)|(?&?&?&?)]]];
    repeat (first [rewrite decide_True by done | rewrite decide_False by done]);
    simpl; rewrite <- ?Permutation_middle; by constructor.
Qed.

(** X25.  The rating tiers partition the rated movies: every movie with a
    rating of at least 1 lands in exactly one of the worker's four tiers, and
    every movie whatever its rating in exactly one of the api's. *)
Theorem X25_rating_tiers_partition :
  (forall movies : list Database.Movie,
      (forall m, m ∈ movies -> 1 <= WorkerTasteProfile.rating m) ->
      WorkerTasteProfile.allTiers (WorkerTasteProfile.groupMoviesByRating movies) ≡ₚ movies)
  /\ (forall movies : list Database.Movie,
        let groups := ApiTasteProfile.groupByRating movies in
        ApiTasteProfile.loved groups ++ ApiTasteProfile.liked groups
        ++ ApiTasteProfile.neutral groups ++ ApiTasteProfile.disliked groups ≡ₚ movies).
Proof.
  split.
  - intros movies Hr. unfold WorkerTasteProfile.allTiers, WorkerTasteProfile.groupMoviesByRating.
    cbn [WorkerTasteProfile.loved WorkerTasteProfile.liked WorkerTasteProfile.neutral
         WorkerTasteProfile.disliked].
    apply (four_way_partition (fun m => 9 <= WorkerTasteProfile.rating m)
             (fun m => 7 <= WorkerTasteProfile.rating m /\ WorkerTasteProfile.rating m <= 8)
             (fun m => 5 <= WorkerTasteProfile.rating m /\ WorkerTasteProfile.rating m <= 6)
             (fun m => 1 <= WorkerTasteProfile.rating m /\ WorkerTasteProfile.rating m <= 4)).
    intros m Hm. specialize (Hr m Hm). lia.
  - intros movies. unfold ApiTasteProfile.groupByRating.
    cbn [ApiTasteProfile.loved ApiTasteProfile.liked ApiTasteProfile.neutral
         ApiTasteProfile.disliked].
    apply (four_way_partition (fun m => 9 <= ApiTasteProfile.rating m)
             (fun m => 7 <= ApiTasteProfile.rating m /\ ApiTasteProfile.rating m < 9)
             (fun m => 5 <= ApiTasteProfile.rating m /\ ApiTasteProfile.rating m < 7)
             (fun m => ApiTasteProfile.rating m < 5)).
    intros m Hm. cbv beta. generalize (ApiTasteProfile.rating m). intros z.
    destruct (decide (9 <= z)); [left; lia|right].
    destruct (decide (7 <= z)); [left; lia|right].
    destruct (decide (5 <= z)); [left; lia|right; lia].
Qed.

Lemma X25_witness :
  WorkerTasteProfile.allTiers (WorkerTasteProfile.groupMoviesByRating tenRated) ≡ₚ tenRated.
Proof.
  apply (proj1 X25_rating_tiers_partition).
  intros m Hm. apply list_elem_of_fmap in Hm as (i & -> & _).
  change (1 <= 8 + Z.of_nat i mod 3).
  pose proof (Z.mod_pos_bound (Z.of_nat i) 3 eq_refl). lia.
Defined.

End Tiers.


(** ** The api's cache key *)

Section CacheKey.
Local Open Scope Z_scope.


Lemma stringLe_cases a b :
  stringLe a b <-> a = b \/ OrderedTypeEx.String_as_OT.lt a b.
Proof.
  unfold stringLe, String.ltb. rewrite <- OrderedTypeEx.String_as_OT.cmp_lt.
  change OrderedTypeEx.String_as_OT.cmp with String.compare.
  rewrite (String.compare_antisym b a).
  destruct (String.compare a b) eqn:E; simpl.
  - apply String.compare_eq_iff in E. tauto.
  - tauto.
  - split; [done|]. intros [->|?]; [|done].
    assert (String.compare b b = Eq) as Hbb; [|by rewrite Hbb in E].
    by apply OrderedTypeEx.String_as_OT.cmp_eq.
Qed.

Lemma stringLe_trans a b c : stringLe a b -> stringLe b c -> stringLe a c.
Proof.
  rewrite !stringLe_cases. intros [->|Hab] [->|Hbc]; auto.
  right. exact (OrderedTypeEx.String_as_OT.lt_trans a b c Hab Hbc).
Qed.

Lemma stringLe_antisym a b : stringLe a b -> stringLe b a -> a = b.
Proof.
  rewrite !stringLe_cases. intros [E|Hab] [E'|Hba]; try done.
  exfalso. pose proof (OrderedTypeEx.String_as_OT.lt_trans _ _ _ Hab Hba) as Haa.
  by apply OrderedTypeEx.String_as_OT.lt_not_eq in Haa.
Qed.

Lemma insertBy_strings_elem x l y :
  y ∈ Js.insertBy (fun a b => String.ltb b a) x l -> y = x \/ y ∈ l.
Proof.
  intros H. rewrite insertBy_Permutation in H. by apply elem_of_cons in H.
Qed.

Lemma insertBy_strings_sorted x l :
  StronglySorted stringLe l ->
  StronglySorted stringLe (Js.insertBy (fun a b => String.ltb b a) x l).
Proof.
  induction 1 as [|y l Hl IH Hy]; simpl; [by repeat constructor|].
  destruct (String.ltb y x) eqn:E.
  - constructor; [done|]. apply Forall_forall. intros z [->|Hz]%insertBy_strings_elem.
    + unfold stringLe. unfold String.ltb in *. rewrite String.compare_antisym.
      by destruct (String.compare y x).
    + by apply (proj1 (Forall_forall _ _) Hy).
  - constructor; [by constructor|]. constructor; [done|].
    eapply Forall_impl; [exact Hy|]. intros z Hz. by apply (stringLe_trans x y z).
Qed.

Lemma sortStrings_sorted l : StronglySorted stringLe (ApiRecommendations.sortStrings l).
Proof.
  unfold ApiRecommendations.sortStrings, Js.sortBy.
  induction l as [|x l IH]; simpl; [constructor|by apply insertBy_strings_sorted].
Qed.

Lemma sortStrings_Permutation l1 l2 :
  l1 ≡ₚ l2 -> ApiRecommendations.sortStrings l1 = ApiRecommendations.sortStrings l2.
Proof.
  intros Hp. apply (StronglySorted_unique_strong stringLe).
  - intros x y _ _. apply stringLe_antisym.
  - apply sortStrings_sorted.
  - apply sortStrings_sorted.
  - unfold ApiRecommendations.sortStrings. by rewrite !sortBy_Permutation.
Qed.

(** X26.  The api's cache key does not depend on the order in which the
    genres of the filter are listed, nor on the count. *)
Theorem X26_buildCacheKey_order_independent mood gf gf' era count count' :
  gf ≡ₚ gf' ->
  ApiRecommendations.buildCacheKey (ApiRecommendations.mkOptions mood (Some gf) era count)
  = ApiRecommendations.buildCacheKey (ApiRecommendations.mkOptions mood (Some gf') era count').
Proof.
  intros Hp. unfold ApiRecommendations.buildCacheKey. simpl.
  by rewrite (sortStrings_Permutation gf gf' Hp).
Qed.

Lemma X26_witness :
  ApiRecommendations.buildCacheKey
    (ApiRecommendations.mkOptions (Some "cozy") (Some ["Drama"; "Action"]) None (Some 5))
  = ApiRecommendations.buildCacheKey
      (ApiRecommendations.mkOptions (Some "cozy") (Some ["Action"; "Drama"]) None (Some 20)).
Proof. apply X26_buildCacheKey_order_independent. apply perm_swap. Defined.

End CacheKey.


(** ** Local scores *)

Section LocalScores.
Local Open Scope Q_scope.


Lemma or0_unit (or0 : option Q -> Q) (scores : gmap string Q) k :
  (forall v, or0 v = default 0 v) -> unitScores scores -> 0 <= or0 (scores !! k) <= 1.
Proof.
  intros Hor Hu. rewrite Hor. destruct (scores !! k) as [v|] eqn:E; [by apply (Hu k)|].
  simpl. lra.
Qed.

Lemma sum_range (f : string -> Q) (l : list string) : forall a,
  (forall g, 0 <= f g <= 1) ->
  a <= foldl (fun sum g => sum + f g) a l <= a + inject_Z (Z.of_nat (length l)).
Proof.
  induction l as [|g l IH]; intros a Hf.
  - change (inject_Z (Z.of_nat (length []))) with 0. simpl. split; lra.
  - cbn [foldl]. rewrite length_cons, Nat2Z.inj_succ, <- Z.add_1_r, inject_Z_plus.
    specialize (IH (a + f g) Hf). specialize (Hf g). change (inject_Z 1) with 1.
    split; lra.
Qed.

Lemma mean_range (score : Q) (k : nat) :
  0 <= score <= inject_Z (Z.of_nat k) -> 0 <= score / inject_Z (Z.of_nat k) <= 1.
Proof.
  intros [H0 H1]. destruct k as [|k].
  - change (inject_Z (Z.of_nat 0)) with 0 in *. assert (score == 0) as -> by lra. done.
  - assert (0 < inject_Z (Z.of_nat (S k))) by (rewrite <- (Zlt_Qlt 0); lia).
    split; [apply Qle_shift_div_l|apply Qle_shift_div_r]; try done; lra.
Qed.

Lemma count_step (score a : Q) (k : nat) :
  0 <= score <= inject_Z (Z.of_nat k) -> 0 <= a <= 1 ->
  0 <= score + a <= inject_Z (Z.of_nat (S k)).
Proof.
  intros Hs Ha. rewrite Nat2Z.inj_succ, <- Z.add_1_r, inject_Z_plus.
  change (inject_Z 1) with 1. split; lra.
Qed.

Lemma count_zero : 0 <= 0 <= inject_Z (Z.of_nat 0).
Proof. done. Qed.

Lemma worker_genreScore_range (profile : WorkerRecommendations.TasteProfile) gs :
  unitScores (WorkerRecommendations.p_genres profile) ->
  0 <= foldl (fun sum g => sum + WorkerRecommendations.or0
                                   (WorkerRecommendations.p_genres profile !! g)) 0 gs
       / inject_Z (Z.of_nat (length gs)) <= 1.
Proof.
  intros Hu. apply mean_range.
  pose proof (sum_range (fun g => WorkerRecommendations.or0
                                    (WorkerRecommendations.p_genres profile !! g)) gs 0) as Hs.
  rewrite Qplus_0_l in Hs. apply Hs. intros g. by apply or0_unit.
Qed.

Lemma sum_range_values (l : list Q) : forall a,
  Forall (fun s => 0 <= s <= 1) l ->
  a <= foldl (fun sum s => sum + s) a l <= a + inject_Z (Z.of_nat (length l)).
Proof.
  induction l as [|s l IH]; intros a Hl.
  - change (inject_Z (Z.of_nat (length []))) with 0. simpl. split; lra.
  - apply Forall_cons in Hl as [Hs Hl].
    cbn [foldl]. rewrite length_cons, Nat2Z.inj_succ, <- Z.add_1_r, inject_Z_plus.
    specialize (IH (a + s) Hl). change (inject_Z 1) with 1. split; lra.
Qed.

(** X27.  The local match scores lie in the range 0..1: the worker's
    [calculateBasicMatchScore] when the profile's genre and era scores do and
    the film's genre array, if it has one, is not empty and names no property
    that the profile's genre object inherits (for the array [[]] the genre
    score is 0/0, and the score is NaN); and the api's
    [calculateFallbackScore] when the profile's genre scores do and the film's
    rating is between 0 and 10. *)
Theorem X27_local_scores_in_range :
  (forall movie profile,
      unitScores (WorkerRecommendations.p_genres profile) ->
      unitScores (WorkerRecommendations.p_eras profile) ->
      scorable movie ->
      0 <= WorkerRecommendations.calculateBasicMatchScore movie profile <= 1)
  /\ (forall movie profile,
        unitScores (ApiRecommendations.p_genres profile) ->
        (forall t, Database.tmdb_rating movie = Some t -> 0 <= t <= 10) ->
        0 <= ApiRecommendations.calculateFallbackScore movie profile <= 1).
Proof.
  split.
  { intros movie profile.
    intros Hg He _. unfold WorkerRecommendations.calculateBasicMatchScore.
    pose proof (fun gs => worker_genreScore_range profile gs Hg) as Hgs.
    pose proof (fun k => or0_unit WorkerRecommendations.or0 _ k (fun _ => eq_refl) He) as Hes.
    assert (Hrt : forall b1 b2 b3 : bool,
               0 <= (if b1 then 1 else if b2 then 1 else if b3 then 1 else 3 # 10) <= 1).
    { by intros [] [] []. }
    destruct (Database.genres movie) as [gs|];
      [destruct (0 <? size (WorkerRecommendations.p_genres profile))%nat|];
      destruct (negb (Database.year movie =? 0)%Z
                && (0 <? size (WorkerRecommendations.p_eras profile))%nat);
      (destruct (Database.runtime_minutes movie) as [rt|];
       [destruct (negb (rt =? 0)%Z
                  && Js.truthyS (WorkerRecommendations.p_runtime_preference profile))|]);
      cbv zeta; cbn [Nat.ltb Nat.leb];
      first [ done
            | apply mean_range; repeat (apply count_step; [|done]); apply count_zero ]. }
  { intros movie profile.
    intros Hg Ht. unfold ApiRecommendations.calculateFallbackScore.
    assert (Hgs : forall gs,
               let genreScores :=
                 List.filter (fun s => Js.Qltb 0 s)
                   (map (fun g => ApiRecommendations.or0
                                    (ApiRecommendations.p_genres profile !! g)) gs) in
               0 <= foldl (fun sum s => sum + s) 0 genreScores
                    / inject_Z (Z.of_nat (length genreScores)) <= 1).
    { intros gs genreScores. apply mean_range.
      pose proof (sum_range_values genreScores 0) as Hs. rewrite Qplus_0_l in Hs. apply Hs.
      apply Forall_forall. intros s Hs'. apply list_elem_of_In, filter_In in Hs' as [Hs' _].
      apply in_map_iff in Hs' as (g & <- & _). by apply or0_unit. }
    assert (Hr : 0 <= ApiRecommendations.or0 (Database.tmdb_rating movie) / 10 <= 1).
    { unfold ApiRecommendations.or0. destruct (Database.tmdb_rating movie) as [t|]; [|done].
      destruct (Ht t eq_refl). simpl.
      split; [apply Qle_shift_div_l|apply Qle_shift_div_r]; try done; lra. }
    destruct (Database.genres movie) as [gs|];
      [destruct (0 <? size (ApiRecommendations.p_genres profile))%nat;
       [cbv zeta; destruct (0 <? length _)%nat eqn:El|]|];
      destruct (Js.truthyQ (Database.tmdb_rating movie));
      cbv zeta; cbn [Nat.ltb Nat.leb];
      first [ done
            | apply mean_range; repeat (apply count_step; [|first [done|apply Hgs]]);
              apply count_zero ]. }
Qed.

Lemma X27_witness :
  0 <= WorkerRecommendations.calculateBasicMatchScore (film 1 "A1" ["Action"] None) likesAction
  <= 1.
Proof.
  apply (proj1 X27_local_scores_in_range).
  - intros k v; simpl; rewrite lookup_insert_Some, lookup_empty;
      (intros [[_ <-]|[_ ?]]; [|done]); split; by vm_compute.
  - intros k v; simpl; rewrite lookup_insert_Some, lookup_empty;
      (intros [[_ <-]|[_ ?]]; [|done]); split; by vm_compute.
  - intros gs [= <-]. split; [done|].
    repeat constructor. unfold Js.OBJECT_PROTOTYPE. set_solver.
Defined.

End LocalScores.


(** ** The api's fallback ranking and genre filter *)




Section ApiFallback.
Import ApiRecommendations.
Local Open Scope Q_scope.


Lemma generateFallback_ranked candidates profile count :
  StronglySorted rankedEntries (generateFallback candidates profile count).
Proof.
  unfold generateFallback. apply StronglySorted_sliceTo.
  apply sortBy_StronglySorted.
  - intros x y. apply Qltb_true.
  - intros x y. apply Qltb_false.
  - intros x y z Hxy Hyz. unfold rankedEntries in *. by apply (Qle_trans _ (s_match_score y)).
Qed.

Lemma generateFallback_entry_score candidates profile count e :
  e ∈ generateFallback candidates profile count ->
  exists c, c ∈ candidates /\ s_imdb_id e = imdb_id c
            /\ s_match_score e = calculateFallbackScore c profile
            /\ s_reasoning e = "Recommended based on genre preferences and ratings".
Proof.
  unfold generateFallback. intros He. apply sliceTo_subseteq in He.
  rewrite sortBy_Permutation in He. apply list_elem_of_In, in_map_iff in He as (c & <- & Hc).
  exists c. by apply list_elem_of_In in Hc.
Qed.

Lemma api_fallback_shape_profile db env options r db' :
  generateRecommendations db env options = (Js.Returned r, db') ->
  cached r = false ->
  oracleFails (ai env) = true ->
  res_recommendations r = []
  \/ exists profile candidates,
       loadTasteProfile db = Some profile
       /\ candidates ≡ₚ apiQualifying db options
       /\ res_recommendations r
          = rebuild db (generateFallback candidates profile (effectiveCount options)).
Proof.
  intros Hgen Hc Hai. unfold generateRecommendations in Hgen.
  destruct (loadTasteProfile db) as [profile|]; [|result_of Hgen; by left].
  destruct (checkCache _ _ _); [by result_of Hgen|].
  fold (apiQualifying db options) in Hgen.
  case_bool_decide; [result_of Hgen; by left|].
  unfold oracleFails in Hai.
  rewrite <- (generateWithAI_outcome (apiQualifying db options)) in Hai.
  pose proof (generateWithAI_candidates (apiQualifying db options) (ai env)) as Hperm.
  destruct (generateWithAI _ _) as [generated candidates]. simpl in Hai, Hperm.
  destruct generated as [recs|msg]; [done|].
  case_bool_decide; [result_of Hgen; by left|].
  destruct (saveToCache _ _ _ _ _); [|done]. injection Hgen as <- <-.
  right. by exists profile, candidates.
Qed.

(** X28.  When the oracle gives no usable answer, the list that the api
    computes is ranked by the local score: the items come in descending order
    of [match_score], each one carries the fallback score of its own movie and
    the fallback's fixed reasoning ([imdb_id] being unique in the table). *)
Theorem X28_api_fallback_is_ranked_by_score db env options r db' profile :
  NoDup (imdb_id <$> movies db) ->
  loadTasteProfile db = Some profile ->
  generateRecommendations db env options = (Js.Returned r, db') ->
  cached r = false ->
  oracleFails (ai env) = true ->
  StronglySorted ranked (res_recommendations r)
  /\ Forall (fun rec =>
               match_score rec = calculateFallbackScore (movie rec) profile
               /\ reasoning rec = "Recommended based on genre preferences and ratings")
            (res_recommendations r).
Proof.
  intros Hnd Hp Hgen Hc Hai.
  destruct (api_fallback_shape_profile _ _ _ _ _ Hgen Hc Hai)
    as [-> | (profile' & candidates & Hp' & Hperm & ->)]; [by split; constructor|].
  assert (profile' = profile) as -> by congruence.
  split.
  - unfold rebuild.
    apply (StronglySorted_omap rankedEntries ranked); [|apply generateFallback_ranked].
    intros x y x' y' Hx Hy Hxy.
    destruct (List.find _ _) in Hx; [|done]. destruct (List.find _ _) in Hy; [|done].
    injection Hx as <-. injection Hy as <-. exact Hxy.
  - apply Forall_forall. intros rec Hrec.
    pose proof (rebuild_movie _ _ _ Hrec) as (Hin & e' & He' & Hid').
    unfold rebuild in Hrec. apply list_elem_of_omap in Hrec as (e & He & Hf).
    destruct (List.find _ _) as [m|] eqn:Hfind in Hf; [|done]. injection Hf as <-. simpl in *.
    apply find_some in Hfind as [_ Heq]. apply bool_decide_eq_true in Heq.
    apply generateFallback_entry_score in He as (c & Hcand & Hid & -> & ->).
    split; [|done]. f_equal.
    rewrite Hperm in Hcand. apply apiQualifying_unrated in Hcand as [Hcin _].
    apply (NoDup_fmap_eq imdb_id (movies db)); [done..|congruence].
Qed.

Lemma X28_witness :
  exists r db',
    generateRecommendations testCatalogue (mkEnv 1000 AiThrows false)
      (mkOptions None None None None) = (Js.Returned r, db')
    /\ StronglySorted ranked (res_recommendations r).
Proof.
  destruct (generateRecommendations testCatalogue (mkEnv 1000 AiThrows false)
              (mkOptions None None None None)) as [[r|msg] db'] eqn:E;
    [|vm_compute in E; discriminate E].
  pose proof E as E'. vm_compute in E'. injection E' as Hr Hdb.
  destruct (loadTasteProfile testCatalogue) as [profile|] eqn:Hp; [|by vm_compute in Hp].
  exists r, db'. split; [reflexivity|].
  refine (proj1 (X28_api_fallback_is_ranked_by_score testCatalogue _ _ r db' profile
                   _ Hp E _ _)).
  - compute_done.
  - by rewrite <- Hr.
  - reflexivity.
Defined.

Lemma genreMatches_lower gf movie :
  genreMatches gf movie
  = match genres movie with
    | None => false
    | Some movieGenres =>
        existsb (fun g => bool_decide (g ∈ Js.toLowerCase <$> movieGenres))
                (Js.toLowerCase <$> gf)
    end.
Proof.
  unfold genreMatches. destruct (genres movie) as [mgs|]; [|done].
  induction gf as [|g gf IH]; [done|]. cbn [existsb fmap list_fmap]. rewrite IH. f_equal.
  clear IH. induction mgs as [|mg mgs IH]; [done|]. cbn [existsb fmap list_fmap].
  rewrite IH. destruct (decide (Js.toLowerCase mg = Js.toLowerCase g)) as [E|E].
  - rewrite (bool_decide_eq_true_2 _ E). symmetry. apply bool_decide_eq_true_2. rewrite E. left.
  - rewrite (bool_decide_eq_false_2 _ E). simpl.
    apply bool_decide_ext. rewrite elem_of_cons. naive_solver.
Qed.

(** X29.  The api's genre filter ignores letter case: two filters that are
    equal up to case select the same movies. *)
Theorem X29_filterByGenre_ignores_case movies gf gf' :
  Js.toLowerCase <$> gf = Js.toLowerCase <$> gf' ->
  filterByGenre movies gf = filterByGenre movies gf'.
Proof.
  intros Heq. unfold filterByGenre.
  assert (Hlen : length gf = length gf').
  { by rewrite <- (length_fmap Js.toLowerCase gf), Heq, length_fmap. }
  rewrite Hlen. case_bool_decide; [done|].
  apply list_filter_iff. intros m. by rewrite !genreMatches_lower, Heq.
Qed.

Lemma X29_witness :
  filterByGenre (movies testCatalogue) ["ACTION"; "sci-fi"]
  = filterByGenre (movies testCatalogue) ["Action"; "Sci-Fi"].
Proof. apply X29_filterByGenre_ignores_case. reflexivity. Defined.

End ApiFallback.


(** ** The worker's computed profile *)

Section WorkerProfile.
Import WorkerRecommendations WorkerTasteProfile.
Local Open Scope Q_scope.















End WorkerProfile.
